(** * Image-validating webhook: a shallow embedding of the decision code

    The development follows the Go sources of the repository:
    - [GoStrings]: the functions of Go's [strings] package that the sources call;
    - [Legacy]: package [server], the handler that inspects trust data through a
      docker daemon ([getImageInfo], [hasMatchedSigner], [getDigest], [isSignedImage]);
    - [Trust]: package [trust], the reduction of notary metadata to a trust
      summary ([GetSignedMetadata] and its helpers);
    - [Pods]: package [pods], the validator ([CheckIsValidAndAddDigest],
      [addDigestWhenImageValid], [getBasicAuthForRegistry]);
    - [Sample]: a small cluster on which the functions are run.
    The properties follow the definitions, package by package.

    Go strings are [string] (a list of bytes), a Go [(value, error)] pair coming
    from a collaborator is a [result], remote calls are recorded in a trace by a
    small writer monad, and a slice updated by index is a list updated with
    stdpp's insert. *)

From Stdlib Require Import ZArith Lia.
From stdpp Require Import base option list strings gmap sorting.

Local Open Scope string_scope.
Local Open Scope list_scope.

(** ** Errors, results and traces *)

(** A Go [error] is represented by its message. *)
Definition error : Type := string.

(** The [(value, err)] pair returned by a collaborator: [err != nil] is [Err]. *)
Inductive result (A : Type) : Type :=
| Ok (a : A)
| Err (e : error).
Arguments Ok {A} a.
Arguments Err {A} e.

(** ** Go's [strings] package *)

Module GoStrings.

(** [strings.HasPrefix]. *)
Definition HasPrefix (s prefix : string) : bool := String.prefix prefix s.

(** [strings.Contains]: [substr] occurs somewhere in [s]. *)
Fixpoint Contains (s substr : string) : bool :=
  HasPrefix s substr ||
  match s with
  | EmptyString => false
  | String _ s' => Contains s' substr
  end.

(** [strings.LastIndex]: the byte index of the last occurrence, or [-1]. *)
Fixpoint LastIndex (s substr : string) : Z :=
  match s with
  | EmptyString => if HasPrefix s substr then 0%Z else (-1)%Z
  | String _ s' =>
      let r := LastIndex s' substr in
      if (0 <=? r)%Z then (r + 1)%Z
      else if HasPrefix s substr then 0%Z else (-1)%Z
  end.

(** The slice expressions [s[:hi]] and [s[lo:]] (indices in range). *)
Fixpoint slice_to (s : string) (hi : nat) : string :=
  match hi, s with
  | S n, String c s' => String c (slice_to s' n)
  | _, _ => EmptyString
  end.

Fixpoint slice_from (s : string) (lo : nat) : string :=
  match lo, s with
  | S n, String _ s' => slice_from s' n
  | _, _ => s
  end.

(** [strings.Split] for a non-empty separator: [skip] counts the bytes of a
    separator occurrence that are still to be consumed, [cur] is the piece
    being collected. *)
Fixpoint Split_aux (s sep : string) (skip : nat) (cur : string) : list string :=
  match s with
  | EmptyString => [cur]
  | String c s' =>
      match skip with
      | S k => Split_aux s' sep k cur
      | O =>
          if HasPrefix s sep
          then cur :: Split_aux s' sep (String.length sep - 1) EmptyString
          else Split_aux s' sep O (cur +:+ String c EmptyString)
      end
  end.

Definition Split (s sep : string) : list string := Split_aux s sep O EmptyString.

(** [strings.TrimPrefix]. *)
Definition TrimPrefix (s prefix : string) : string :=
  if HasPrefix s prefix then slice_from s (String.length prefix) else s.

End GoStrings.


(** ** Remote calls and their trace *)

(** The calls the code makes to its collaborators: the cluster's API server,
    the docker daemon of the helper pod and the notary client. *)
Inductive Event : Type :=
| GetSecret (namespace name : string)
| ListSecrets
| ListRegistries
| GetSignerKey (name : string)
| ListSignerPolicies (namespace : string)
| ListPods (namespace labelSelector : string)
| ExecCmd (pod container namespace command : string)
| FetchSignature (image basicAuth notaryURL : string).

#[global] Instance Event_eq_dec : EqDecision Event.
Proof. solve_decision. Defined.

(** A computation returns its value and the calls it made, in order. *)
Definition M (A : Type) : Type := (A * list Event)%type.

Definition ret {A : Type} (a : A) : M A := (a, []).

Definition bind {A B : Type} (m : M A) (k : A -> M B) : M B :=
  let '(a, t1) := m in
  let '(b, t2) := k a in
  (b, t1 ++ t2).

(** [call e answer]: the collaborator is called (event [e]) and answers. *)
Definition call {A : Type} (e : Event) (answer : A) : M A := (answer, [e]).

Definition value {A : Type} (m : M A) : A := fst m.
Definition trace {A : Type} (m : M A) : list Event := snd m.

Notation "x <- m ;; k" := (bind m (fun x => k))
  (at level 100, m at next level, right associativity).

(** How a Go call ends: it returns, or it panics. *)
Inductive panic : Type :=
| IndexOutOfRange
| LogPanic (msg : string)
| NilMapAssignment.

Inductive outcome (A : Type) : Type :=
| Returns (a : A)
| Panics (p : panic).
Arguments Returns {A} a.
Arguments Panics {A} p.

(** ** Kubernetes objects (package [corev1]), the fields the code reads *)

Module corev1.

Record Container := mkContainer {
  ContainerName : string;
  Image : string;
}.

(** The assignment [c.Image = image]: the other fields stay. *)
Definition setImage (c : Container) (image : string) : Container :=
  {| ContainerName := ContainerName c; Image := image |}.

Record LocalObjectReference := mkLocalObjectReference {
  Name : string;
}.

Record Secret := mkSecret {
  SecretName : string;
  Data : gmap string string;
}.

Record PodSpec := mkPodSpec {
  InitContainers : list Container;
  Containers : list Container;
  ImagePullSecrets : list LocalObjectReference;
}.

Record Pod := mkPod {
  Namespace : string;
  Spec : PodSpec;
}.

(** The pod after its init containers, or its containers, were written
    through the slice that shares their storage. *)
Definition setInitContainers (pod : Pod) (cs : list Container) : Pod :=
  {| Namespace := Namespace pod;
     Spec := {| InitContainers := cs;
                Containers := Containers (Spec pod);
                ImagePullSecrets := ImagePullSecrets (Spec pod) |} |}.

Definition setContainers (pod : Pod) (cs : list Container) : Pod :=
  {| Namespace := Namespace pod;
     Spec := {| InitContainers := InitContainers (Spec pod);
                Containers := cs;
                ImagePullSecrets := ImagePullSecrets (Spec pod) |} |}.

End corev1.

(** ** The legacy handler (package [server]) *)

Module Legacy.
Import GoStrings corev1.

(** [ImageInfo] stores an image's info. *)
Record ImageInfo := mkImageInfo {
  registry : string;
  name : string;
  tag : string;
}.

(** [getImageInfo]: the host is what precedes the last ["/"], the tag is the
    second [":"]-separated piece of what follows it. *)
Definition getImageInfo (image : string) : ImageInfo :=
  let '(host, name) :=
    if Contains image "/" then
      let idx := LastIndex image "/" in
      (slice_to image (Z.to_nat idx), slice_from image (Z.to_nat (idx + 1)))
    else ("docker.io", image) in
  let '(name, tag) :=
    if Contains name ":" then
      let temp := Split name ":" in
      (nth 0 temp "", nth 1 temp "")
    else (name, "latest") in
  {| registry := host; name := name; tag := tag |}.

(** Modelled from the spec: the declaration of [Signature] (the rows that
    [getSignatures] decodes from the output of the trust inspection) is not in
    the sources. The handler reads [SignedTags], [SignedTag] and [Digest]; the
    other fields follow the spec's trust summary: the signers of a tag, the
    named signers and the administrative keys, each with their key IDs. *)
Record TrustKey := mkTrustKey {
  ID : string;
}.

Record TrustSigner := mkTrustSigner {
  SignerName : string;
  Keys : list TrustKey;
}.

Record SignedTagRow := mkSignedTagRow {
  SignedTag : string;
  Digest : string;
  TagSigners : list string;
}.

Record Signature := mkSignature {
  SignatureName : string;
  SignedTags : list SignedTagRow;
  Signers : list TrustSigner;
  AdministrativeKeys : list TrustSigner;
}.

(** [whv1.SignerPolicy]: the signer names of [Spec.Signers]. *)
Record SignerPolicy := mkSignerPolicy {
  PolicySigners : list string;
}.

(** [regv1.SignerKey]: the target keys of [Spec.Targets], in the order the
    range statement visits them. *)
Record SignerKey := mkSignerKey {
  Targets : list TrustKey;
}.

(** [regv1.Registry]: the two fields of [Status] that are read. *)
Record Registry := mkRegistry {
  ServerURL : string;
  NotaryURL : string;
}.

Record WhiteList := mkWhiteList {
  byImages : list string;
  byNamespaces : list string;
}.

(** [ExecResult] is a result of cli command: the contents of the two buffers. *)
Record ExecResult := mkExecResult {
  OutBuffer : string;
  ErrBuffer : string;
}.

(** What the cluster answers to the handler's client: the signer key of a
    name, the signer policies of a namespace, the names of the pods of a
    namespace with a label, the registries, all secrets, and a command run in
    the helper pod. *)
Record Cluster := mkCluster {
  signerkeys : string -> result SignerKey;
  signerpolicies : string -> result (list SignerPolicy);
  podNames : string -> string -> list string;
  registries : result (list Registry);
  secrets : result (list Secret);
  ExecCmd_answer : string -> string -> string -> string -> ExecResult * option error;
}.

(** [DockerHandler] handles overall process to check signs. *)
Record DockerHandler := mkDockerHandler {
  client : Cluster;
  whiteList : WhiteList;
  pod : Pod;
  patch : Pod;
  dindPodName : string;
  signerPolicies : list SignerPolicy;
}.

Section Handler.

(** Parts of the package that are not in the sources: the constants naming
    the helper pod's container, namespace and deployment, the reader of the
    whitelist, the decoder of the inspection output and the accessor of a
    signature's repository-admin key. *)
Variable dindContainer : string.
Variable dindNamespace : string.
Variable dindDeployment : string.
Variable ReadWhiteList : Cluster -> result WhiteList.
Variable getSignatures : string -> result (list Signature).
Variable getRepoAdminKey : Signature -> string.

(** [newDockerHandler]: the whitelist is read, the helper pod is the first
    pod of the deployment (a failed listing is ignored and leaves the name
    empty), and the signer policies are those of the pod's namespace. The
    patch starts as a copy of the pod. *)
Definition newDockerHandler (clientset : Cluster) (pod : Pod) : M (result DockerHandler) :=
  match ReadWhiteList clientset with
  | Err err => ret (Err err)
  | Ok wl =>
      pods <- call (ListPods dindNamespace ("app=" +:+ dindDeployment))
                   (podNames clientset dindNamespace ("app=" +:+ dindDeployment)) ;;
      let dindPod := match pods with
                     | first :: _ => first
                     | [] => ""
                     end in
      r <- call (ListSignerPolicies (Namespace pod))
                (signerpolicies clientset (Namespace pod)) ;;
      match r with
      | Err err => ret (Err ("signer policies error, " +:+ err))
      | Ok items =>
          ret (Ok {| client := clientset;
                     whiteList := wl;
                     pod := pod;
                     patch := pod;
                     dindPodName := dindPod;
                     signerPolicies := items |})
      end
  end.

(** [getDigest] indexes [signatures[0]]: on an empty slice the index
    expression panics. The last row signed for the image's tag wins. *)
Definition getDigest (image : string) (signatures : list Signature) : outcome string :=
  match signatures with
  | [] => Panics IndexOutOfRange
  | first :: _ =>
      Returns
        (fold_left
           (fun digest signedTag =>
              if decide (SignedTag signedTag = tag (getImageInfo image))
              then Digest signedTag else digest)
           (SignedTags first) "")
  end.

Definition execToDockerDaemon (h : DockerHandler) (command : string)
  : M (ExecResult * option error) :=
  call (ExecCmd (dindPodName h) dindContainer dindNamespace command)
       (ExecCmd_answer (client h) (dindPodName h) dindContainer dindNamespace command).

(** [getSecret]: all secrets are listed and the first one of that name is
    returned. *)
Definition getSecret (h : DockerHandler) (secretName : string) : M (result Secret) :=
  allSecrets <- call ListSecrets (secrets (client h)) ;;
  match allSecrets with
  | Err err => ret (Err err)
  | Ok items =>
      match List.find (fun secret => bool_decide (SecretName secret = secretName)) items with
      | Some secret => ret (Ok secret)
      | None => ret (Err ("There's no secret named " +:+ secretName))
      end
  end.

(** The loop of [loginToRegistry]: a secret that cannot be read breaks the
    loop, a failed command continues it, a successful login returns [nil]. *)
Fixpoint loginToRegistry_loop (h : DockerHandler) (registry : string)
    (pullSecrets : list LocalObjectReference) : M (option error) :=
  let no_login :=
    Some ("There's no pullSecret to login to registry named " +:+ registry) in
  match pullSecrets with
  | [] => ret no_login
  | pullSecret :: rest =>
      r <- getSecret h (Name pullSecret) ;;
      match r with
      | Err _ => ret no_login
      | Ok secret =>
          match Data secret !! "ID", Data secret !! "PASSWD" with
          | Some id, Some pw =>
              r <- execToDockerDaemon h
                     ("docker login " +:+ registry +:+ " -u " +:+ id +:+ " -p " +:+ pw) ;;
              match snd r with
              | Some _ => loginToRegistry_loop h registry rest
              | None =>
                  if Contains (OutBuffer (fst r)) "Login Succeeded"
                  then ret None
                  else loginToRegistry_loop h registry rest
              end
          | _, _ => loginToRegistry_loop h registry rest
          end
      end
  end.

Definition loginToRegistry (h : DockerHandler) (registry : string) : M (option error) :=
  let pullSecrets := ImagePullSecrets (Spec (pod h)) in
  if bool_decide (length pullSecrets <= 0)%nat
  then ret (Some "There's any pullSecret")
  else loginToRegistry_loop h registry pullSecrets.

(** [getRegistries]: a failed listing is logged and leaves the list empty. *)
Definition getRegistries (h : DockerHandler) : M (list Registry) :=
  r <- call ListRegistries (registries (client h)) ;;
  match r with
  | Ok items => ret items
  | Err _ => ret []
  end.

Definition findNotaryServer (h : DockerHandler) (registry : string) : M string :=
  if decide (registry = "docker.io") then ret "docker.io"
  else
    regList <- getRegistries h ;;
    match List.find (fun reg => bool_decide ("https://" +:+ registry = ServerURL reg)) regList with
    | None => ret "docker-hub"
    | Some targetReg => ret (NotaryURL targetReg)
    end.

Definition makeCommand (h : DockerHandler) (imageInfo : ImageInfo) : M string :=
  notaryServer <- findNotaryServer h (registry imageInfo) ;;
  if decide (notaryServer = "docker.io") then
    ret ("unset DOCKER_CONTENT_TRUST_SERVER; docker trust inspect "
         +:+ name imageInfo +:+ ":" +:+ tag imageInfo)
  else if decide (notaryServer = "docker-hub") then
    ret ("unset DOCKER_CONTENT_TRUST_SERVER; docker trust inspect "
         +:+ registry imageInfo +:+ "/" +:+ name imageInfo +:+ ":" +:+ tag imageInfo)
  else
    _ <- loginToRegistry h (registry imageInfo) ;;
    ret ("export DOCKER_CONTENT_TRUST_SERVER=" +:+ notaryServer
         +:+ "; docker trust inspect "
         +:+ registry imageInfo +:+ "/" +:+ name imageInfo +:+ ":" +:+ tag imageInfo).

(** The innermost loop of [hasMatchedSigner]: some target key has the ID. *)
Definition hasMatchedSigner_targets (key : string) (targets : list TrustKey) : bool :=
  existsb (fun targetKey => bool_decide (ID targetKey = key)) targets.

(** The signer key of a name is fetched from the cluster at every visit; a
    failed request is logged and leaves the zero value, which has no target. *)
Definition fetchSignerKey (h : DockerHandler) (signerName : string) : M SignerKey :=
  r <- call (GetSignerKey signerName) (signerkeys (client h) signerName) ;;
  match r with
  | Ok signer => ret signer
  | Err _ => ret (mkSignerKey [])
  end.

(** The loop over the signer names of one policy. *)
Fixpoint hasMatchedSigner_signers (h : DockerHandler) (key : string)
    (signerNames : list string) : M bool :=
  match signerNames with
  | [] => ret false
  | signerName :: rest =>
      signer <- fetchSignerKey h signerName ;;
      if hasMatchedSigner_targets key (Targets signer) then ret true
      else hasMatchedSigner_signers h key rest
  end.

(** The loop over the signer policies. *)
Fixpoint hasMatchedSigner_policies (h : DockerHandler) (key : string)
    (policies : list SignerPolicy) : M bool :=
  match policies with
  | [] => ret false
  | signerPolicy :: rest =>
      found <- hasMatchedSigner_signers h key (PolicySigners signerPolicy) ;;
      if found then ret true else hasMatchedSigner_policies h key rest
  end.

Definition hasMatchedSigner (h : DockerHandler) (signatures : list Signature) : M bool :=
  if bool_decide (length (signerPolicies h) = 0%nat) then
    ret (negb (bool_decide (length signatures = 0%nat)))
  else
    match signatures with
    | [] => ret false
    | first :: _ => hasMatchedSigner_policies h (getRepoAdminKey first) (signerPolicies h)
    end.

(** [isSignedImage]: an empty output panics, an output that does not decode
    is rejected, and the digest is read only after a signer matched. *)
Definition isSignedImage (h : DockerHandler) (image : string) : M (outcome (bool * string)) :=
  command <- makeCommand h (getImageInfo image) ;;
  r <- execToDockerDaemon h command ;;
  let result := fst r in
  if bool_decide (String.length (OutBuffer result) <= 0)%nat then
    ret (Panics (LogPanic ("Failed to get signature of image " +:+ image)))
  else
    match getSignatures (OutBuffer result) with
    | Err _ => ret (Returns (false, ""))
    | Ok signatures =>
        matched <- hasMatchedSigner h signatures ;;
        if matched then
          match getDigest image signatures with
          | Returns digest => ret (Returns (true, digest))
          | Panics p => ret (Panics p)
          end
        else ret (Returns (false, ""))
    end.

(** [GetPatch] generates a patch to update pod spec. *)
Definition GetPatch (h : DockerHandler) : Pod := patch h.

(** [isImageInWhiteList]: some entry of the whitelist occurs in the image
    written as [registry/name:tag]. *)
Definition isImageInWhiteList (h : DockerHandler) (image : string) : bool :=
  let imageInfo := getImageInfo image in
  let validFormatImage :=
    registry imageInfo +:+ "/" +:+ name imageInfo +:+ ":" +:+ tag imageInfo in
  existsb (fun whiteListImage => Contains validFormatImage whiteListImage)
          (byImages (whiteList h)).

Definition isNamespaceInWhiteList (h : DockerHandler) : bool :=
  existsb (fun whiteListNamespace => bool_decide (Namespace (pod h) = whiteListNamespace))
          (byNamespaces (whiteList h)).

(** The assignments [h.patch.Spec.InitContainers[i].Image = image] and
    [h.patch.Spec.Containers[i].Image = image]: the handler with its patch
    written, or nothing when the index is out of range (the index expression
    panics). *)
Definition setPatchImage (h : DockerHandler) (isInitContainer : bool) (i : nat)
    (image : string) : option DockerHandler :=
  let containers :=
    if isInitContainer then InitContainers (Spec (patch h))
    else Containers (Spec (patch h)) in
  match containers !! i with
  | None => None
  | Some c =>
      let containers' := <[i := setImage c image]> containers in
      Some {| client := client h;
              whiteList := whiteList h;
              pod := pod h;
              patch := if isInitContainer then setInitContainers (patch h) containers'
                       else setContainers (patch h) containers';
              dindPodName := dindPodName h;
              signerPolicies := signerPolicies h |}
  end.

(** The loop of [addDigestWhenImageValid] from index [i] on, with the
    variables [isValid] and [name] as they stand: an image that is not signed
    breaks the loop, a signed one is written to the patch with its digest. *)
Fixpoint addDigestWhenImageValid_loop (h : DockerHandler) (isInitContainer : bool)
    (i : nat) (containers : list Container) (isValid : bool) (name : string)
  : M (outcome (bool * string * DockerHandler)) :=
  match containers with
  | [] => ret (Returns (isValid, name, h))
  | container :: rest =>
      if negb (isImageInWhiteList h (Image container)) then
        r <- isSignedImage h (Image container) ;;
        match r with
        | Panics p => ret (Panics p)
        | Returns (validation, digest) =>
            let isValid := isValid && validation in
            if negb isValid then ret (Returns (isValid, Image container, h))
            else
              match setPatchImage h isInitContainer i
                      (Image container +:+ "@sha256:" +:+ digest) with
              | None => ret (Panics IndexOutOfRange)
              | Some h' =>
                  addDigestWhenImageValid_loop h' isInitContainer (S i) rest isValid name
              end
        end
      else addDigestWhenImageValid_loop h isInitContainer (S i) rest isValid name
  end.

Definition addDigestWhenImageValid (h : DockerHandler) (isInitContainer : bool)
  : M (outcome (bool * string * DockerHandler)) :=
  let containers :=
    if isInitContainer then InitContainers (Spec (pod h))
    else Containers (Spec (pod h)) in
  addDigestWhenImageValid_loop h isInitContainer 0 containers true "".

(** [isValid]: the init containers, then, when they are valid, the
    containers. The handler is returned as the call leaves it. *)
Definition isValid (h : DockerHandler) : M (outcome (bool * string * DockerHandler)) :=
  r <- addDigestWhenImageValid h true ;;
  match r with
  | Panics p => ret (Panics p)
  | Returns (isValid, name, h1) =>
      if isValid then addDigestWhenImageValid h1 false
      else ret (Returns (isValid, name, h1))
  end.

End Handler.

End Legacy.

(** ** The earlier text of the handler *)

(** The second text of package [server] has the two loops of [isValid]
    inline; the functions that the loops call read as in [Legacy]. *)
Module LegacyInline.
Import GoStrings corev1.

Section Handler.

Variable dindContainer : string.
Variable dindNamespace : string.
Variable getSignatures : string -> result (list Legacy.Signature).
Variable getRepoAdminKey : Legacy.Signature -> string.

(** The first loop of [isValid], over the init containers. *)
Fixpoint isValid_initContainers (h : Legacy.DockerHandler) (i : nat)
    (containers : list Container) (isValid : bool) (name : string)
  : M (outcome (bool * string * Legacy.DockerHandler)) :=
  match containers with
  | [] => ret (Returns (isValid, name, h))
  | container :: rest =>
      if negb (Legacy.isImageInWhiteList h (Image container)) then
        r <- Legacy.isSignedImage dindContainer dindNamespace getSignatures
                                  getRepoAdminKey h (Image container) ;;
        match r with
        | Panics p => ret (Panics p)
        | Returns (validation, digest) =>
            let isValid := isValid && validation in
            if negb isValid then ret (Returns (isValid, Image container, h))
            else
              match Legacy.setPatchImage h true i
                      (Image container +:+ "@sha256:" +:+ digest) with
              | None => ret (Panics IndexOutOfRange)
              | Some h' => isValid_initContainers h' (S i) rest isValid name
              end
        end
      else isValid_initContainers h (S i) rest isValid name
  end.

(** The second loop, over the containers: it breaks at once when [isValid]
    is false. *)
Fixpoint isValid_containers (h : Legacy.DockerHandler) (i : nat)
    (containers : list Container) (isValid : bool) (name : string)
  : M (outcome (bool * string * Legacy.DockerHandler)) :=
  match containers with
  | [] => ret (Returns (isValid, name, h))
  | container :: rest =>
      if negb isValid then ret (Returns (isValid, name, h))
      else if negb (Legacy.isImageInWhiteList h (Image container)) then
        r <- Legacy.isSignedImage dindContainer dindNamespace getSignatures
                                  getRepoAdminKey h (Image container) ;;
        match r with
        | Panics p => ret (Panics p)
        | Returns (validation, digest) =>
            let isValid := isValid && validation in
            if negb isValid then ret (Returns (isValid, Image container, h))
            else
              match Legacy.setPatchImage h false i
                      (Image container +:+ "@sha256:" +:+ digest) with
              | None => ret (Panics IndexOutOfRange)
              | Some h' => isValid_containers h' (S i) rest isValid name
              end
        end
      else isValid_containers h (S i) rest isValid name
  end.

Definition isValid (h : Legacy.DockerHandler)
  : M (outcome (bool * string * Legacy.DockerHandler)) :=
  r <- isValid_initContainers h 0 (InitContainers (Spec (Legacy.pod h))) true "" ;;
  match r with
  | Panics p => ret (Panics p)
  | Returns (isValid, name, h1) =>
      isValid_containers h1 0 (Containers (Spec (Legacy.pod h1))) isValid name
  end.

End Handler.

End LegacyInline.

(** ** The trust summary (package [trust]) *)

Module Trust.
Import GoStrings.

(** The canonical role names of the notary [data] package. *)
Definition CanonicalRootRole : string := "root".
Definition CanonicalTargetsRole : string := "targets".
Definition CanonicalSnapshotRole : string := "snapshot".
Definition CanonicalTimestampRole : string := "timestamp".

(** [ReleasesRole] is the role named "releases": [path.Join] of the targets
    role and ["releases"]. *)
Definition ReleasesRole : string := CanonicalTargetsRole +:+ "/" +:+ "releases".

Definition releasedRoleName : string := "Repo Admin".

(** [notary.SHA256], the key of the hash that is read. *)
Definition SHA256 : string := "sha256".

(** [trustTagKey] represents a unique signed tag and hex-encoded hash pair. *)
Record trustTagKey := mkTrustTagKey {
  SignedTag : string;
  Digest : string;
}.

#[global] Instance trustTagKey_eq_dec : EqDecision trustTagKey.
Proof. solve_decision. Defined.

#[global] Instance trustTagKey_countable : Countable trustTagKey :=
  inj_countable' (fun k => (SignedTag k, Digest k))
                 (fun p => mkTrustTagKey (fst p) (snd p))
                 (fun k => match k with mkTrustTagKey _ _ => eq_refl end).

(** [trustTagRow] encodes all human-consumable information for a signed tag,
    including signers; the key is the embedded [trustTagKey]. *)
Record trustTagRow := mkTrustTagRow {
  Key : trustTagKey;
  RowSigners : list string;
}.

(** [trustKey] contains information about trusted keys. *)
Record trustKey := mkTrustKey {
  ID : string;
}.

(** [trustSigner] represents a trusted signer in a trusted repository. *)
Record trustSigner := mkTrustSigner {
  Name : string;
  Keys : list trustKey;
}.

(** [trustRepo] represents consumable information about a trusted repository. *)
Record trustRepo := mkTrustRepo {
  RepoName : string;
  SignedTags : list trustTagRow;
  Signers : list trustSigner;
  AdministrativeKeys : list trustSigner;
}.

(** A role of the notary client ([data.Role], also embedded in the roles that
    [ListRoles] returns): its name and key IDs. *)
Record Role := mkRole {
  RoleName : string;
  KeyIDs : list string;
}.

(** [client.TargetSignedStruct]: the role that signed a target, the target's
    name and its hashes by algorithm. *)
Record TargetSignedStruct := mkTargetSignedStruct {
  TargetRole : string;
  TargetName : string;
  Hashes : gmap string (list Byte.byte);
}.

(** What the notary repository of an image answers. [GetDelegationRoles]
    gives a value and an error: the code logs the error and uses the value. *)
Record Repository := mkRepository {
  GetAllTargetMetadataByName : string -> result (list TargetSignedStruct);
  ListRoles : result (list Role);
  GetDelegationRoles : list Role * option error;
  GetGUN : string;
}.

Record notaryRepo := mkNotaryRepo {
  notaryPath : string;
  notaryServerURL : string;
  repo : Repository;
}.

(** [hex.EncodeToString]: two lower-case digits per byte. *)
Definition hexdigit (n : N) : Ascii.ascii :=
  match String.get (N.to_nat n) "0123456789abcdef" with
  | Some c => c
  | None => Ascii.zero
  end.

Fixpoint hex_EncodeToString (src : list Byte.byte) : string :=
  match src with
  | [] => EmptyString
  | b :: rest =>
      let v := Byte.to_N b in
      String (hexdigit (N.div v 16)) (String (hexdigit (N.modulo v 16)) (hex_EncodeToString rest))
  end.

(** [isReleasedTarget] checks if a role name is "released": either
    targets/releases or targets TUF roles. *)
Definition isReleasedTarget (role : string) : bool :=
  bool_decide (role = CanonicalTargetsRole) || bool_decide (role = ReleasesRole).

(** [notaryRoleToSigner] converts TUF role name to a human-understandable
    signer name. *)
Definition notaryRoleToSigner (tufRole : string) : string :=
  if isReleasedTarget tufRole then releasedRoleName
  else TrimPrefix tufRole "targets/".

(** The key under which a target is filed: its name and the hex form of its
    SHA-256 hash (of the empty slice when the hash is missing). *)
Definition targetKey (tgt : TargetSignedStruct) : trustTagKey :=
  mkTrustTagKey (TargetName tgt)
                (hex_EncodeToString (default [] (Hashes tgt !! SHA256))).

(** First pass of [matchReleasedSignatures]: a row for every target signed
    into "targets" or "targets/releases". *)
Definition releasedRows (allTargets : list TargetSignedStruct)
  : gmap trustTagKey (list string) :=
  fold_left
    (fun rows tgt =>
       if isReleasedTarget (TargetRole tgt) then <[targetKey tgt := []]> rows else rows)
    allTargets ∅.

(** Second pass: every other role that signed a released key is appended to
    the row of that key. *)
Definition fillSigners (allTargets : list TargetSignedStruct)
    (rows : gmap trustTagKey (list string)) : gmap trustTagKey (list string) :=
  fold_left
    (fun rows tgt =>
       match rows !! targetKey tgt with
       | Some signers =>
           if negb (isReleasedTarget (TargetRole tgt))
           then <[targetKey tgt := signers ++ [notaryRoleToSigner (TargetRole tgt)]]> rows
           else rows
       | None => rows
       end)
    allTargets rows.

Section Reduction.

(** [sortorder.NaturalLess] belongs to a library outside the sources. *)
Variable NaturalLess : string -> string -> bool.

(** [sort.Slice] with the given order on the signed tags. The rows come out of
    a Go map, whose iteration order is not fixed, and the sort is not stable:
    the model sorts the rows as [map_to_list] lists them. *)
Definition sortRows (rows : list trustTagRow) : list trustTagRow :=
  merge_sort (fun a b => Is_true (NaturalLess (SignedTag (Key a)) (SignedTag (Key b)))) rows.

(** [sort.Slice] by decreasing name. The sort is not stable: entries of the
    same name (the signer list has none, the administrative list has some
    when [ListRoles] names a role twice) may come out of it in another order
    than the model leaves them in. *)
Definition sortSigners (signers : list trustSigner) : list trustSigner :=
  merge_sort (fun a b => Is_true (String.ltb (Name b) (Name a))) signers.

Definition matchReleasedSignatures (allTargets : list TargetSignedStruct)
  : list trustTagRow :=
  let releasedTargetRows := fillSigners allTargets (releasedRows allTargets) in
  sortRows (List.map (fun kv => mkTrustTagRow (fst kv) (snd kv))
                     (map_to_list releasedTargetRows)).

(** [getDelegationRoleToKeyMap]: the releases role and the four canonical
    roles are skipped, a later role of the same signer name replaces an
    earlier one. *)
Definition getDelegationRoleToKeyMap (rawDelegationRoles : list Role)
  : gmap string (list string) :=
  fold_left
    (fun signerRoleToKeyIDs delRole =>
       if bool_decide (RoleName delRole = ReleasesRole)
          || bool_decide (RoleName delRole = CanonicalRootRole)
          || bool_decide (RoleName delRole = CanonicalSnapshotRole)
          || bool_decide (RoleName delRole = CanonicalTargetsRole)
          || bool_decide (RoleName delRole = CanonicalTimestampRole)
       then signerRoleToKeyIDs
       else <[notaryRoleToSigner (RoleName delRole) := KeyIDs delRole]> signerRoleToKeyIDs)
    rawDelegationRoles ∅.

(** The loop that includes the repo admin in the rows signed by the base
    targets role only. *)
Definition addRepoAdmin (signatureRows : list trustTagRow) : list trustTagRow :=
  List.map
    (fun sig =>
       if bool_decide (length (RowSigners sig) = 0%nat)
       then mkTrustTagRow (Key sig) (RowSigners sig ++ [releasedRoleName])
       else sig)
    signatureRows.

(** The administrative roles: "Root" for the root role, "Repository" for the
    targets role, nothing for any other role. *)
Definition adminSigners (adminRolesWithSigs : list Role) : list trustSigner :=
  flat_map
    (fun adminRole =>
       if bool_decide (RoleName adminRole = CanonicalRootRole)
       then [mkTrustSigner "Root" (List.map mkTrustKey (KeyIDs adminRole))]
       else if bool_decide (RoleName adminRole = CanonicalTargetsRole)
       then [mkTrustSigner "Repository" (List.map mkTrustKey (KeyIDs adminRole))]
       else [])
    adminRolesWithSigs.

Definition emptyTrustRepo : trustRepo := mkTrustRepo "" [] [] [].

(** [GetSignedMetadata] returns trust repository. *)
Definition GetSignedMetadata (n : notaryRepo) (tag : string) : trustRepo * option error :=
  match GetAllTargetMetadataByName (repo n) tag with
  | Err err => (emptyTrustRepo, Some err)
  | Ok allSignedTargets =>
      let signatureRows := matchReleasedSignatures allSignedTargets in
      match ListRoles (repo n) with
      | Err _ => (emptyTrustRepo, Some ("No signers for " +:+ notaryServerURL n))
      | Ok adminRolesWithSigs =>
          let delegationRoles := fst (GetDelegationRoles (repo n)) in
          let signatureRows := addRepoAdmin signatureRows in
          let signerRoleToKeyIDs := getDelegationRoleToKeyMap delegationRoles in
          let signerList :=
            sortSigners
              (List.map (fun kv => mkTrustSigner (fst kv) (List.map mkTrustKey (snd kv)))
                        (map_to_list signerRoleToKeyIDs)) in
          let adminList := sortSigners (adminSigners adminRolesWithSigs) in
          (mkTrustRepo (GetGUN (repo n)) signatureRows signerList adminList, None)
      end
  end.

End Reduction.

(** *** Pass phrases *)

(** [TrustPass] key-value map to store passPhrase: a Go map, which may be
    nil. [None] is the nil map: a read of it finds nothing, an assignment to
    it panics. *)
Definition TrustPass : Type := option (gmap string string).

(** [AddKeyPass] add new passPhrase to TrustPass. *)
Definition AddKeyPass (p : TrustPass) (key val : string) : outcome TrustPass :=
  match p with
  | None => Panics NilMapAssignment
  | Some m => Returns (Some (<[key := val]> m))
  end.

(** The function that [passRetriever] returns, with the map of pass phrases
    of the repository as it finds and leaves it. [fresh] is the string that
    [utils.RandomString(10)] yields when a new pass phrase is created. The
    result is the pass phrase, whether to give up, and the error. *)
Definition passRetriever (passPhrase : TrustPass) (fresh : string)
    (id alias : string) (createNew : bool) (attempts : Z)
  : outcome (TrustPass * (string * bool * option error)) :=
  match (if createNew then AddKeyPass passPhrase id fresh else Returns passPhrase) with
  | Panics p => Panics p
  | Returns passPhrase =>
      match passPhrase ≫= (fun m => m !! id) with
      | None =>
          Returns (passPhrase, ("", (1 <? attempts)%Z, Some "no pass phrase is found"))
      | Some phrase => Returns (passPhrase, (phrase, (1 <? attempts)%Z, None))
      end
  end.

(** *** The token of the notary server *)

(** The declarations of the token and of the image (packages [auth] and
    [image]) are not in the sources: the token has the [Type] and [Value] that
    the code reads and writes, the image the basic-auth credential and the
    name with host that the code reads. The image is the one that the pointer
    given to [NewReadOnly] points to: a nil pointer is not an input here. *)
Record Token := mkToken {
  Type_ : string;
  Value : string;
}.

Record Image := mkImage {
  BasicAuth : string;
  GetImageNameWithHost : string;
}.

(** One challenge of a response: its parameters. *)
Record Challenge := mkChallenge {
  Parameters : gmap string string;
}.

(** What the ping of the server's [v2] endpoint answers: the status code and
    the challenges of the response. *)
Record PingResponse := mkPingResponse {
  PingStatusCode : Z;
  Challenges : list Challenge;
}.

(** What the token endpoint answers: the status code, the error that the
    registry client reads from a response without success, and the decoded
    body, whose [Token] is kept. *)
Record TokenResponse := mkTokenResponse {
  TokenStatusCode : Z;
  ErrorResponse : error;
  DecodedToken : result string;
}.

(** The network and the library calls around it, as [fetchToken] and
    [setToken] use them. [url_Parse server] is [url.Parse] of the server's
    URL followed by [u.Path = path.Join(u.Path, "v2")], as [u.String()]
    prints it, or the error of the parse; [http_NewRequest url] is the error
    of [http.NewRequest(http.MethodGet, url, nil)], if any. [ping url
    authorization] is [HttpClient.Do] of the ping request and [tokenRequest
    realm service scope authorization] is [HttpClient.Do] of the token
    request, whose query holds the service and the scope. [SuccessStatus] is
    the test of the registry client. *)
Record Network := mkNetwork {
  url_Parse : string -> result string;
  http_NewRequest : string -> option error;
  ping : string -> option string -> result PingResponse;
  tokenRequest : string -> string -> string -> option string -> result TokenResponse;
  SuccessStatus : Z -> bool;
  NewFileCachedRepository : string -> string -> string -> option Token -> result Repository;
}.

(** The requests given to [HttpClient.Do]: a request that could not be
    built is not among them. *)
Inductive HttpCall : Type :=
| PingCall (url : string) (authorization : option string)
| TokenCall (realm service scope : string) (authorization : option string).

(** The header [Authorization: Basic ...], set when the image has a
    credential. *)
Definition authorizationOf (image : Image) : option string :=
  if decide (BasicAuth image = "") then None
  else Some ("Basic " +:+ BasicAuth image).

(** [checkPingResponse]: on a status of the 200s the token becomes the basic
    credential of the image, or nil without one. The result is paired with
    the token as the call leaves it. *)
Definition checkPingResponse (image : Image) (token : option Token) (pingResp : Z)
  : bool * option Token :=
  if (200 <=? pingResp)%Z && (pingResp <? 300)%Z then
    if decide (BasicAuth image = "") then (true, None)
    else (true, Some (mkToken "Basic" (BasicAuth image)))
  else (false, token).

(** [setToken]: the error, the token as the call leaves it, the requests.
    A realm of which no request can be made ends the call before anything is
    sent. *)
Definition setToken (net : Network) (image : Image) (token : option Token)
    (service realm : string) : option error * option Token * list HttpCall :=
  let img := GetImageNameWithHost image in
  let scope := "repository:" +:+ img +:+ ":pull,push" in
  match http_NewRequest net realm with
  | Some err => (Some err, token, [])
  | None =>
      let sent := [TokenCall realm service scope (authorizationOf image)] in
      match tokenRequest net realm service scope (authorizationOf image) with
      | Err err => (Some err, token, sent)
      | Ok tokenResp =>
          if negb (SuccessStatus net (TokenStatusCode tokenResp))
          then (Some (ErrorResponse tokenResp), token, sent)
          else
            match DecodedToken tokenResp with
            | Err err => (Some err, token, sent)
            | Ok t => (None, Some (mkToken "Bearer" t), sent)
            end
      end
  end.

(** [fetchToken]: a server URL that does not parse, or of which no request
    can be made, ends the call before anything is sent. *)
Definition fetchToken (net : Network) (notaryServerURL : string) (image : Image)
    (token : option Token) : option error * option Token * list HttpCall :=
  (* Ping *)
  match url_Parse net notaryServerURL with
  | Err err => (Some err, token, [])
  | Ok u =>
      match http_NewRequest net u with
      | Some err => (Some err, token, [])
      | None =>
          let sent := [PingCall u (authorizationOf image)] in
          match ping net u (authorizationOf image) with
          | Err err => (Some err, token, sent)
          | Ok pingResp =>
              (* If 200, use basic auth *)
              let checked := checkPingResponse image token (PingStatusCode pingResp) in
              if fst checked then (None, snd checked, sent)
              else
                match Challenges pingResp with
                | [] => (Some "header does not contain WWW-Authenticate", token, sent)
                | first :: _ =>
                    match Parameters first !! "realm", Parameters first !! "service" with
                    | Some realm, Some service =>
                        (* Get Token *)
                        let r := setToken net image token service realm in
                        (fst (fst r), snd (fst r), sent ++ snd r)
                    | _, _ =>
                        (Some "there is no realm or service in parameters", token, sent)
                    end
                end
          end
      end
  end.

(** [GetToken] returns token to get sign from notary server: the token
    and the error, the token as the call leaves it, the requests. *)
Definition GetToken (net : Network) (notaryServerURL : string) (image : Image)
    (token : option Token) : (option Token * option error) * option Token * list HttpCall :=
  let stale :=
    match token with
    | None => true
    | Some t => bool_decide (Type_ t = "") || bool_decide (Value t = "")
    end in
  if stale then
    let r := fetchToken net notaryServerURL image token in
    match fst (fst r) with
    | Some err => ((None, Some err), snd (fst r), snd r)
    | None => ((snd (fst r), None), snd (fst r), snd r)
    end
  else ((token, None), token, []).

(** [DefaultNotaryServer] is url of docker hub's notary server. *)
Definition DefaultNotaryServer : string := "https://notary.docker.io".

(** [NewReadOnly] returns new readonly object to get sign data: the
    repository of the image on the notary server, with the token and the
    pass phrases it holds, and the requests. The pass phrases are the nil
    map: the object is made without them. *)
Definition NewReadOnly (net : Network) (image : Image) (notaryURL path : string)
  : result (notaryRepo * option Token * TrustPass) * list HttpCall :=
  (* Notary Server url *)
  let notaryServerURL :=
    if decide (notaryURL = "") then DefaultNotaryServer else notaryURL in
  let r := GetToken net notaryServerURL image None in
  match fst (fst r) with
  | (_, Some err) => (Err err, snd r)
  | (token, None) =>
      (* Initialize Notary repository *)
      match NewFileCachedRepository net path (GetImageNameWithHost image)
              notaryServerURL token with
      | Err err => (Err err, snd r)
      | Ok repo => (Ok (mkNotaryRepo path notaryServerURL repo, snd (fst r), None), snd r)
      end
  end.

End Trust.

(** ** The validator (package [pods]) *)

Module Pods.
Import GoStrings corev1.

(** Modelled from the spec: the declaration of the image reference that
    [parseImage] returns is not in the sources. The validator reads [host],
    [tag] and [digest], writes [digest] and prints the reference with
    [String]; the spec's image reference has the repository name besides. *)
Record imageRef := mkImageRef {
  host : string;
  name : string;
  tag : string;
  digest : string;
}.

(** The assignment [ref.digest = digest]. *)
Definition setDigest (ref : imageRef) (d : string) : imageRef :=
  {| host := host ref; name := name ref; tag := tag ref; digest := d |}.

(** The fields of a registry security policy that the validator reads. *)
Record RegistrySecurityPolicy := mkRegistrySecurityPolicy {
  Registry : string;
  Notary : string;
  SignCheck : bool;
}.

(** Parts of the repository that are not in the sources, taken as they are
    called: the parser and printer of image references, the notary client
    with the digest accessor of its signature, and the decoder of pull
    secrets. *)
Record Collaborators := mkCollaborators {
  Signature : Type;
  ImagePullSecret : Type;
  parseImage : string -> result imageRef;
  imageRef_String : imageRef -> string;
  FetchSignature_answer : string -> string -> string -> result (option Signature);
  GetDigest : Signature -> string -> string;
  NewImagePullSecret : Secret -> result ImagePullSecret;
  GetHostBasicAuth : ImagePullSecret -> string -> result string;
}.

(** The two caches, by the methods the validator calls. *)
Record WhiteList := mkWhiteList {
  IsNamespaceWhiteListed : string -> bool;
  IsImageWhiteListed : string -> bool;
}.

Record RegistryPolicyCache := mkRegistryPolicyCache {
  doesMatchPolicy : string -> string -> bool * RegistrySecurityPolicy;
}.

(** [validator] handles overall process to check signs. [client] answers
    [Secrets(namespace).Get(name)]. *)
Record validator := mkValidator {
  client : string -> string -> result Secret;
  registryPolicyCache : RegistryPolicyCache;
  whiteList : WhiteList;
}.

(** What a validation returns: [(valid, reason, err)]. *)
Definition verdict : Type := (bool * string * option error)%type.

Definition findRegistryServer (registry : string) : string :=
  if decide (registry = "docker.io") then "https://registry-1.docker.io"
  else "https://" +:+ registry.

Section Validator.

Variable env : Collaborators.

Fixpoint getBasicAuthForRegistry (h : validator) (host namespace : string)
    (pullSecrets : list LocalObjectReference) : M (string * option error) :=
  match pullSecrets with
  | [] =>
      (* DO NOT return error - the image may be public *)
      ret ("", None)
  | pullSecret :: rest =>
      r <- call (GetSecret namespace (Name pullSecret))
                (client h namespace (Name pullSecret)) ;;
      match r with
      | Err err =>
          ret ("", Some ("couldn't get secret named " +:+ Name pullSecret
                         +:+ " by " +:+ err))
      | Ok secret =>
          match NewImagePullSecret env secret with
          | Err err => ret ("", Some err)
          | Ok imagePullSecret =>
              match GetHostBasicAuth env imagePullSecret (findRegistryServer host) with
              | Err err => ret ("", Some err)
              | Ok basicAuth =>
                  if decide (basicAuth = "")
                  then getBasicAuthForRegistry h host namespace rest
                  else ret (basicAuth, None)
              end
          end
      end
  end.

(** The body of the loop of [addDigestWhenImageValid] for the container at
    index [i] once it is known not to be whitelisted. Every path of it leaves
    the function with a return statement. *)
Definition addDigestWhenImageValid_body (h : validator) (containers : list Container)
    (i : nat) (container : Container) (namespace : string)
    (pullSecrets : list LocalObjectReference) : M (list Container * verdict) :=
  match parseImage env (Image container) with
  | Err err => ret (containers, (false, "", Some err))
  | Ok ref =>
      (* Get registry basic auth *)
      r <- getBasicAuthForRegistry h (host ref) namespace pullSecrets ;;
      match snd r with
      | Some err => ret (containers, (false, "", Some err))
      | None =>
          let basicAuth := fst r in
          (* Check if it meets registry security policy *)
          let vp := doesMatchPolicy (registryPolicyCache h) (host ref) namespace in
          let valid := fst vp in
          let policy := snd vp in
          if valid && bool_decide (Registry policy = "") then
            ret (containers, (true, "", None))
          else if valid then
            if negb (SignCheck policy) then ret (containers, (true, "", None))
            else
              (* Get trust info of the image *)
              r <- call (FetchSignature (Image container) basicAuth (Notary policy))
                        (FetchSignature_answer env (Image container) basicAuth
                                               (Notary policy)) ;;
              match r with
              | Err err => ret (containers, (false, "", Some err))
              | Ok None =>
                  (* sig is nil if it's not signed *)
                  ret (containers,
                       (false, "Image '" +:+ Image container +:+ "' is not signed", None))
              | Ok (Some sig) =>
                  let d := GetDigest env sig (tag ref) in
                  (* If digest is different from user-specified one, return error *)
                  if bool_decide (digest ref <> "") && bool_decide (digest ref <> d) then
                    ret (containers,
                         (false,
                          "Image '" +:+ Image container
                          +:+ "''s digest is different from the signed digest",
                          None))
                  else
                    ret (<[i := setImage container (imageRef_String env (setDigest ref d))]>
                           containers,
                         (true, "", None))
              end
          else
            (* Does NOT match registry security policy *)
            ret (containers,
                 (false,
                  "Image '" +:+ Image container
                  +:+ "' does not meet registry security policy. Please check the RegistrySecurityPolicy",
                  None))
      end
  end.

(** The loop of [addDigestWhenImageValid] from index [i] on: [rest] are the
    containers not yet visited. A whitelisted container continues the loop;
    any other one ends it. *)
Fixpoint addDigestWhenImageValid_from (h : validator) (containers : list Container)
    (i : nat) (rest : list Container) (namespace : string)
    (pullSecrets : list LocalObjectReference) : M (list Container * verdict) :=
  match rest with
  | [] => ret (containers, (true, "", None))
  | container :: rest' =>
      if IsImageWhiteListed (whiteList h) (Image container)
      then addDigestWhenImageValid_from h containers (S i) rest' namespace pullSecrets
      else addDigestWhenImageValid_body h containers i container namespace pullSecrets
  end.

(** [addDigestWhenImageValid] returns the verdict together with the slice,
    whose elements it may have written. *)
Definition addDigestWhenImageValid (h : validator) (containers : list Container)
    (namespace : string) (pullSecrets : list LocalObjectReference)
  : M (list Container * verdict) :=
  addDigestWhenImageValid_from h containers 0 containers namespace pullSecrets.

(** [CheckIsValidAndAddDigest] checks if images of initContainers and
    containers are valid. The pod is returned as the call leaves it. *)
Definition CheckIsValidAndAddDigest (h : validator) (pod : Pod) : M (Pod * verdict) :=
  (* Check namespace whitelist *)
  if IsNamespaceWhiteListed (whiteList h) (Namespace pod) then ret (pod, (true, "", None))
  else
    (* Check initContainers *)
    r <- addDigestWhenImageValid h (InitContainers (Spec pod)) (Namespace pod)
                                 (ImagePullSecrets (Spec pod)) ;;
    let pod := setInitContainers pod (fst r) in
    match snd r with
    | (_, _, Some err) => ret (pod, (false, "", Some err))
    | (false, reason, None) => ret (pod, (false, reason, None))
    | (true, _, None) =>
        (* Check containers *)
        r <- addDigestWhenImageValid h (Containers (Spec pod)) (Namespace pod)
                                     (ImagePullSecrets (Spec pod)) ;;
        let pod := setContainers pod (fst r) in
        match snd r with
        | (_, _, Some err) => ret (pod, (false, "", Some err))
        | (false, reason, None) => ret (pod, (false, reason, None))
        | (true, _, None) => ret (pod, (true, "", None))
        end
    end.

End Validator.

End Pods.

(** ** Sample data *)

(** A small cluster, with the collaborators that the sources leave out given
    by tables, on which the functions above can be run. *)
Module Sample.
Import corev1.

(** The repository-admin key of a signature: the first key of its
    administrative signer named "Repository". *)
Definition repoAdminKey (s : Legacy.Signature) : string :=
  match List.find (fun a => bool_decide (Legacy.SignerName a = "Repository"))
                  (Legacy.AdministrativeKeys s) with
  | Some a =>
      match Legacy.Keys a with
      | k :: _ => Legacy.ID k
      | [] => ""
      end
  | None => ""
  end.

(** The trust data of [registry.example.com/app]: tag [v1] signed by the
    repository key. *)
Definition signature_app : Legacy.Signature :=
  Legacy.mkSignature "registry.example.com/app"
    [Legacy.mkSignedTagRow "v1" "abc123" ["Repo Admin"]]
    []
    [Legacy.mkTrustSigner "Repository" [Legacy.mkTrustKey "key-repo"];
     Legacy.mkTrustSigner "Root" [Legacy.mkTrustKey "key-root"]].

(** The decoder of the inspection output, on the three outputs of the sample. *)
Definition decodeSignatures (out : string) : result (list Legacy.Signature) :=
  if decide (out = "signed") then Ok [signature_app]
  else if decide (out = "[]") then Ok []
  else Err "invalid character".

(** The cluster knows the signer [alice], a policy that names her in the
    namespace [default], one helper pod, one registry with its notary, and
    answers every inspection with the trust data of the application. *)
Definition cluster : Legacy.Cluster :=
  Legacy.mkCluster
    (fun signerName =>
       if decide (signerName = "alice")
       then Ok (Legacy.mkSignerKey [Legacy.mkTrustKey "key-alice"])
       else Err "not found")
    (fun namespace =>
       if decide (namespace = "default") then Ok [Legacy.mkSignerPolicy ["alice"]]
       else Ok [])
    (fun _ _ => ["dind-0"])
    (Ok [Legacy.mkRegistry "https://registry.example.com" "https://notary.example.com"])
    (Ok [])
    (fun _ _ _ _ => (Legacy.mkExecResult "signed" "", None)).

Definition pod_app : Pod :=
  mkPod "default"
    (mkPodSpec [] [mkContainer "app" "registry.example.com/app:v1"] []).

(** A handler of the namespace whose policy names [alice] only. *)
Definition handler : Legacy.DockerHandler :=
  Legacy.mkDockerHandler cluster (Legacy.mkWhiteList [] []) pod_app pod_app
    "dind-0" [Legacy.mkSignerPolicy ["alice"]].

(** The same handler for a namespace without policy records. *)
Definition handler_no_policy : Legacy.DockerHandler :=
  Legacy.mkDockerHandler cluster (Legacy.mkWhiteList [] []) pod_app pod_app
    "dind-0" [].

(** The image references of the sample, as a table. *)
Definition parse (image : string) : result Pods.imageRef :=
  if decide (image = "registry.example.com/app:v1")
  then Ok (Pods.mkImageRef "registry.example.com" "app" "v1" "")
  else if decide (image = "registry.example.com/app:v1@sha256:fff000")
  then Ok (Pods.mkImageRef "registry.example.com" "app" "v1" "fff000")
  else if decide (image = "registry.example.com/tool:v9")
  then Ok (Pods.mkImageRef "registry.example.com" "tool" "v9" "")
  else if decide (image = "plain.example.com/web:1")
  then Ok (Pods.mkImageRef "plain.example.com" "web" "1" "")
  else if decide (image = "down.example.com/job:2")
  then Ok (Pods.mkImageRef "down.example.com" "job" "2" "")
  else if decide (image = "unknown.example.com/db:3")
  then Ok (Pods.mkImageRef "unknown.example.com" "db" "3" "")
  else Err "invalid image reference".

Definition print (ref : Pods.imageRef) : string :=
  let base := Pods.host ref +:+ "/" +:+ Pods.name ref +:+ ":" +:+ Pods.tag ref in
  if decide (Pods.digest ref = "") then base
  else base +:+ "@sha256:" +:+ Pods.digest ref.

(** The digest of the first row signed for the tag, or the empty string. *)
Definition digestOf (s : Legacy.Signature) (tag : string) : string :=
  match List.find (fun row => bool_decide (Legacy.SignedTag row = tag))
                  (Legacy.SignedTags s) with
  | Some row => Legacy.Digest row
  | None => ""
  end.

(** The notary of the sample has trust data for the application only; the
    notary of [down.example.com] cannot be reached. *)
Definition fetch (image basicAuth notaryURL : string)
  : result (option Legacy.Signature) :=
  if decide (notaryURL = "https://notary.example.com") then
    if GoStrings.HasPrefix image "registry.example.com/app:v1"
    then Ok (Some signature_app) else Ok None
  else Err "notary server is unreachable".

Definition collaborators : Pods.Collaborators :=
  Pods.mkCollaborators Legacy.Signature Secret parse print fetch digestOf
    (fun secret => Ok secret)
    (fun secret server => Ok (default "" (Data secret !! server))).

(** The secrets of the sample: [regcred] holds a credential of the
    registry, [other] holds none, any other name does not exist. *)
Definition getSecret (namespace name : string) : result Secret :=
  if decide (name = "regcred")
  then Ok (mkSecret "regcred" {[ "https://registry.example.com" := "dXNlcjpwdw==" ]})
  else if decide (name = "other") then Ok (mkSecret "other" ∅)
  else Err "not found".

(** The policies of the sample: signatures are checked for
    [registry.example.com] and [down.example.com], not for
    [plain.example.com]; no other registry has a policy. *)
Definition matchPolicy (host namespace : string) : bool * Pods.RegistrySecurityPolicy :=
  if decide (host = "registry.example.com")
  then (true, Pods.mkRegistrySecurityPolicy "registry.example.com"
                "https://notary.example.com" true)
  else if decide (host = "down.example.com")
  then (true, Pods.mkRegistrySecurityPolicy "down.example.com"
                "https://notary.down.example.com" true)
  else if decide (host = "plain.example.com")
  then (true, Pods.mkRegistrySecurityPolicy "plain.example.com" "" false)
  else (false, Pods.mkRegistrySecurityPolicy "" "" false).

Definition validator : Pods.validator :=
  Pods.mkValidator getSecret
    (Pods.mkRegistryPolicyCache matchPolicy)
    (Pods.mkWhiteList (fun ns => bool_decide (ns = "kube-system"))
                      (fun image => GoStrings.Contains image "pause")).

Definition container_app : Container := mkContainer "app" "registry.example.com/app:v1".
Definition container_pinned : Container :=
  mkContainer "pinned" "registry.example.com/app:v1@sha256:fff000".
Definition container_tool : Container := mkContainer "tool" "registry.example.com/tool:v9".
Definition container_web : Container := mkContainer "web" "plain.example.com/web:1".
Definition container_job : Container := mkContainer "job" "down.example.com/job:2".
Definition container_db : Container := mkContainer "db" "unknown.example.com/db:3".
Definition container_pause : Container := mkContainer "pause" "k8s.gcr.io/pause:3.2".

(** A notary repository for the sample: tag [v1] is signed by the targets
    role and by the delegation of [alice], tag [v2] through the releases
    role only, tag [v3] by the delegation of [bob] only. *)
Definition repository : Trust.Repository :=
  Trust.mkRepository
    (fun _ =>
       Ok [Trust.mkTargetSignedStruct "targets" "v1" {[ "sha256" := [Byte.xab; Byte.xc1] ]};
           Trust.mkTargetSignedStruct "targets/alice" "v1"
             {[ "sha256" := [Byte.xab; Byte.xc1] ]};
           Trust.mkTargetSignedStruct "targets/releases" "v2" {[ "sha256" := [Byte.x0f] ]};
           Trust.mkTargetSignedStruct "targets/bob" "v3" {[ "sha256" := [Byte.x77] ]}])
    (Ok [Trust.mkRole "root" ["key-root"];
         Trust.mkRole "targets" ["key-repo"];
         Trust.mkRole "snapshot" ["key-snapshot"]])
    ([Trust.mkRole "targets/releases" ["key-alice"; "key-bob"];
      Trust.mkRole "targets/alice" ["key-alice"];
      Trust.mkRole "targets/bob" ["key-bob"]], None)
    "registry.example.com/app".

Definition notaryRepo : Trust.notaryRepo :=
  Trust.mkNotaryRepo "/tmp/notary" "https://notary.example.com" repository.

(** A cluster whose helper pod answers by the image inspected: the trust data
    of the application for [app], an output that does not decode for [tool],
    and no output for any other image. *)
Definition cluster_by_image : Legacy.Cluster :=
  Legacy.mkCluster (Legacy.signerkeys cluster) (Legacy.signerpolicies cluster)
    (Legacy.podNames cluster) (Legacy.registries cluster) (Legacy.secrets cluster)
    (fun _ _ _ command =>
       if GoStrings.Contains command "/app:" then (Legacy.mkExecResult "signed" "", None)
       else if GoStrings.Contains command "/tool:"
       then (Legacy.mkExecResult "no trust data" "", None)
       else (Legacy.mkExecResult "" "", None)).

Definition container_setup : Container := mkContainer "setup" "registry.example.com/app:v1".
Definition container_proxy : Container := mkContainer "proxy" "mirror.example.com/proxy:2".
Definition container_probe : Container := mkContainer "probe" "registry.example.com/probe:1".

(** The handler of a pod as [newDockerHandler] makes it in a namespace
    without policy records: the patch is a copy of the pod, and the images of
    [mirror.example.com] are whitelisted. *)
Definition handler_of (p : Pod) : Legacy.DockerHandler :=
  Legacy.mkDockerHandler cluster_by_image (Legacy.mkWhiteList ["mirror.example.com"] [])
    p p "dind-0" [].

Definition pod_signed : Pod :=
  mkPod "default" (mkPodSpec [container_setup] [container_proxy; container_app] []).

Definition pod_unsigned : Pod :=
  mkPod "default"
    (mkPodSpec [container_setup] [container_proxy; container_tool; container_app] []).

Definition pod_silent : Pod :=
  mkPod "default" (mkPodSpec [container_setup; container_probe] [container_app] []).

Definition pod_mirror : Pod :=
  mkPod "default" (mkPodSpec [container_proxy] [container_proxy] []).

(** A cluster with two secrets, the second with both credentials, whose
    helper pod accepts the login of [bob]; and a pod that pulls with a
    secret without credentials, then with that one. *)
Definition cluster_login : Legacy.Cluster :=
  Legacy.mkCluster (Legacy.signerkeys cluster) (Legacy.signerpolicies cluster)
    (Legacy.podNames cluster) (Legacy.registries cluster)
    (Ok [mkSecret "empty" ∅;
         mkSecret "regcred" {[ "ID" := "bob"; "PASSWD" := "hunter2" ]}])
    (fun _ _ _ command =>
       if GoStrings.Contains command "-u bob"
       then (Legacy.mkExecResult "Login Succeeded" "", None)
       else (Legacy.mkExecResult "" "unauthorized", None)).

Definition pod_login : Pod :=
  mkPod "default"
    (mkPodSpec [] [container_app]
       [mkLocalObjectReference "empty"; mkLocalObjectReference "regcred";
        mkLocalObjectReference "missing"]).

Definition handler_login : Legacy.DockerHandler :=
  Legacy.mkDockerHandler cluster_login (Legacy.mkWhiteList [] []) pod_login pod_login
    "dind-0" [].

(** The handler of a cluster whose registries cannot be listed. *)
Definition handler_no_registries : Legacy.DockerHandler :=
  Legacy.mkDockerHandler
    (Legacy.mkCluster (Legacy.signerkeys cluster) (Legacy.signerpolicies cluster)
       (Legacy.podNames cluster) (Err "the server could not find the requested resource")
       (Legacy.secrets cluster) (Legacy.ExecCmd_answer cluster))
    (Legacy.mkWhiteList [] []) pod_app pod_app "dind-0" [].

(** A network on which the notary of the sample asks for a token of its
    authorization service, which grants the token [tok]; no other server
    answers. A URL parses when it starts with ["https://"], and a request can
    be made of a URL without blank. *)
Definition network : Trust.Network :=
  Trust.mkNetwork
    (fun server =>
       if GoStrings.HasPrefix server "https://" then Ok (server +:+ "/v2")
       else Err "first path segment in URL cannot contain colon")
    (fun url =>
       if GoStrings.Contains url " " then Some "invalid character in host name" else None)
    (fun url _ =>
       if decide (url = "https://notary.example.com/v2")
       then Ok (Trust.mkPingResponse 401
                  [Trust.mkChallenge {[ "realm" := "https://auth.example.com/token";
                                        "service" := "notary" ]}])
       else Err "no such host")
    (fun _ _ _ _ => Ok (Trust.mkTokenResponse 200 "" (Ok "tok")))
    (fun status => (200 <=? status)%Z && (status <=? 399)%Z)
    (fun _ _ _ _ => Ok repository).

Definition image_app : Trust.Image := Trust.mkImage "Ym9iOmh1bnRlcjI=" "registry.example.com/app".

(** Delegation roles in which the signer name [alice] occurs twice, and a
    notary repository whose roles cannot be listed. *)
Definition roles_twice : list Trust.Role :=
  [Trust.mkRole "targets/alice" ["key-old"];
   Trust.mkRole "targets/releases" ["key-alice"];
   Trust.mkRole "alice" ["key-new"];
   Trust.mkRole "targets/bob" ["key-bob"]].

Definition notaryRepo_no_roles : Trust.notaryRepo :=
  Trust.mkNotaryRepo "/tmp/notary" "https://notary.example.com"
    (Trust.mkRepository (Trust.GetAllTargetMetadataByName repository)
       (Err "client is offline") (Trust.GetDelegationRoles repository)
       (Trust.GetGUN repository)).

(** A pod whose init container is signed and whose container is not. *)
Definition pod_refused : Pod :=
  mkPod "default" (mkPodSpec [container_app] [container_tool] []).

(** A signature whose repository-admin key is the key of [alice], and a
    handler whose policy records name [mallory] and [alice], then [zed]: the
    cluster knows no signer key of [mallory] nor of [zed]. *)
Definition signature_alice : Legacy.Signature :=
  Legacy.mkSignature "registry.example.com/app"
    [Legacy.mkSignedTagRow "v1" "abc123" ["alice"]]
    []
    [Legacy.mkTrustSigner "Repository" [Legacy.mkTrustKey "key-alice"];
     Legacy.mkTrustSigner "Root" [Legacy.mkTrustKey "key-root"]].

Definition handler_policies : Legacy.DockerHandler :=
  Legacy.mkDockerHandler cluster (Legacy.mkWhiteList [] []) pod_app pod_app "dind-0"
    [Legacy.mkSignerPolicy ["mallory"; "alice"]; Legacy.mkSignerPolicy ["zed"]].

End Sample.

(** ** Vocabulary of the statements *)

(** The signer key that a lookup of [signerName] yields for the handler: the
    cluster's answer, or the zero value when the request fails. *)
Definition resolveSigner (h : Legacy.DockerHandler) (signerName : string)
  : Legacy.SignerKey :=
  match Legacy.signerkeys (Legacy.client h) signerName with
  | Ok signer => signer
  | Err _ => Legacy.mkSignerKey []
  end.

(** The signer names of all policy records of the handler, in order. *)
Definition policySignerNames (h : Legacy.DockerHandler) : list string :=
  flat_map Legacy.PolicySigners (Legacy.signerPolicies h).

(** [key] is a target key ID of the signer key that a lookup of
    [signerName] yields. *)
Definition holdsKey (h : Legacy.DockerHandler) (key signerName : string) : Prop :=
  exists targetKey,
    targetKey ∈ Legacy.Targets (resolveSigner h signerName)
    /\ Legacy.ID targetKey = key.

(** [key] is a target key ID of a signer named in a policy record. *)
Definition authorizedKey (h : Legacy.DockerHandler) (key : string) : Prop :=
  exists policy signerName targetKey,
    policy ∈ Legacy.signerPolicies h
    /\ signerName ∈ Legacy.PolicySigners policy
    /\ targetKey ∈ Legacy.Targets (resolveSigner h signerName)
    /\ Legacy.ID targetKey = key.

(** The output of the trust inspection that [isSignedImage] decodes. *)
Definition inspectionOutput (dindContainer dindNamespace : string)
    (h : Legacy.DockerHandler) (image : string) : string :=
  Legacy.OutBuffer
    (fst (value (Legacy.execToDockerDaemon dindContainer dindNamespace h
                   (value (Legacy.makeCommand dindContainer dindNamespace h
                             (Legacy.getImageInfo image)))))).

(** A container that the loop skips. *)
Definition whitelisted (h : Pods.validator) (c : corev1.Container) : Prop :=
  Pods.IsImageWhiteListed (Pods.whiteList h) (corev1.Image c) = true.

(** The credential that one pull secret yields for a host: the secret is
    fetched, decoded and asked for the host's registry server. *)
Definition credentialOf (env : Pods.Collaborators) (h : Pods.validator)
    (host namespace : string) (pullSecret : corev1.LocalObjectReference)
  : result string :=
  match Pods.client h namespace (corev1.Name pullSecret) with
  | Err err =>
      Err ("couldn't get secret named " +:+ corev1.Name pullSecret +:+ " by " +:+ err)
  | Ok secret =>
      match Pods.NewImagePullSecret env secret with
      | Err err => Err err
      | Ok imagePullSecret =>
          Pods.GetHostBasicAuth env imagePullSecret (Pods.findRegistryServer host)
      end
  end.

(** What the validator does after the notary client has answered, for the
    container at index [i] with parsed reference [ref]. *)
Definition afterFetch (env : Pods.Collaborators) (containers : list corev1.Container)
    (i : nat) (container : corev1.Container)
    (ref : Pods.imageRef) (answer : result (option (Pods.Signature env)))
  : list corev1.Container * Pods.verdict :=
  match answer with
  | Err err => (containers, (false, "", Some err))
  | Ok None =>
      (containers, (false, "Image '" +:+ corev1.Image container +:+ "' is not signed", None))
  | Ok (Some sig) =>
      let d := Pods.GetDigest env sig (Pods.tag ref) in
      if bool_decide (Pods.digest ref <> "") && bool_decide (Pods.digest ref <> d)
      then (containers,
            (false,
             "Image '" +:+ corev1.Image container
             +:+ "''s digest is different from the signed digest",
             None))
      else (<[i := corev1.setImage container (Pods.imageRef_String env (Pods.setDigest ref d))]>
              containers,
            (true, "", None))
  end.

(** The targets that the notary repository returns for a tag; none when the
    request fails. *)
Definition signedTargets (n : Trust.notaryRepo) (tag : string)
  : list Trust.TargetSignedStruct :=
  match Trust.GetAllTargetMetadataByName (Trust.repo n) tag with
  | Ok allTargets => allTargets
  | Err _ => []
  end.

(** The delegated signers of a signed tag: the roles other than "targets" and
    "targets/releases" that signed a target of that key, in the order of the
    targets, each without its "targets/" prefix. *)
Definition delegatedSigners (allTargets : list Trust.TargetSignedStruct)
    (k : Trust.trustTagKey) : list string :=
  List.map (fun tgt => GoStrings.TrimPrefix (Trust.TargetRole tgt) "targets/")
    (List.filter
       (fun tgt => bool_decide (Trust.targetKey tgt = k)
                   && negb (Trust.isReleasedTarget (Trust.TargetRole tgt)))
       allTargets).

(** The roles that [getDelegationRoleToKeyMap] leaves out. *)
Definition skippedRole (role : Trust.Role) : bool :=
  bool_decide (Trust.RoleName role = Trust.ReleasesRole)
  || bool_decide (Trust.RoleName role = Trust.CanonicalRootRole)
  || bool_decide (Trust.RoleName role = Trust.CanonicalSnapshotRole)
  || bool_decide (Trust.RoleName role = Trust.CanonicalTargetsRole)
  || bool_decide (Trust.RoleName role = Trust.CanonicalTimestampRole).

(** The image as [isImageInWhiteList] writes it: [registry/name:tag]. *)
Definition canonicalImage (image : string) : string :=
  Legacy.registry (Legacy.getImageInfo image) +:+ "/"
  +:+ Legacy.name (Legacy.getImageInfo image) +:+ ":"
  +:+ Legacy.tag (Legacy.getImageInfo image).

(** The handler with another patch, and with one list of its patch replaced. *)
Definition withPatch (h : Legacy.DockerHandler) (p : corev1.Pod) : Legacy.DockerHandler :=
  Legacy.mkDockerHandler (Legacy.client h) (Legacy.whiteList h) (Legacy.pod h) p
    (Legacy.dindPodName h) (Legacy.signerPolicies h).

Definition patchList (isInitContainer : bool) (p : corev1.Pod) : list corev1.Container :=
  if isInitContainer then corev1.InitContainers (corev1.Spec p)
  else corev1.Containers (corev1.Spec p).

Definition withPatchList (h : Legacy.DockerHandler) (isInitContainer : bool)
    (l : list corev1.Container) : Legacy.DockerHandler :=
  withPatch h (if isInitContainer then corev1.setInitContainers (Legacy.patch h) l
               else corev1.setContainers (Legacy.patch h) l).

Section LegacyVocabulary.

Variables dindContainer dindNamespace : string.
Variable getSignatures : string -> result (list Legacy.Signature).
Variable getRepoAdminKey : Legacy.Signature -> string.
Variable h : Legacy.DockerHandler.

(** What the inspection of an image returns. *)
Definition inspected (image : string) : outcome (bool * string) :=
  value (Legacy.isSignedImage dindContainer dindNamespace getSignatures
                              getRepoAdminKey h image).

(** A container that the loop lets pass: its image is whitelisted, or the
    inspection reports it signed. *)
Definition passes (c : corev1.Container) : Prop :=
  Legacy.isImageInWhiteList h (corev1.Image c) = true
  \/ exists digest, inspected (corev1.Image c) = Returns (true, digest).

(** The container as the patch has it after it passed: untouched when
    whitelisted, with the signed digest appended to its image otherwise. *)
Definition patched (c : corev1.Container) : corev1.Container :=
  if Legacy.isImageInWhiteList h (corev1.Image c) then c
  else
    match inspected (corev1.Image c) with
    | Returns (true, digest) =>
        corev1.setImage c (corev1.Image c +:+ "@sha256:" +:+ digest)
    | _ => c
    end.

End LegacyVocabulary.

(** The containers of the handler's pod in the order in which [isValid]
    visits them, and the handler whose patch holds a list of that length, cut
    where the init containers end. *)
Definition visited (h : Legacy.DockerHandler) : list corev1.Container :=
  corev1.InitContainers (corev1.Spec (Legacy.pod h))
  ++ corev1.Containers (corev1.Spec (Legacy.pod h)).

Definition withPatchOf (h : Legacy.DockerHandler) (l : list corev1.Container)
  : Legacy.DockerHandler :=
  let n := length (corev1.InitContainers (corev1.Spec (Legacy.pod h))) in
  withPatch h (corev1.setContainers
                 (corev1.setInitContainers (Legacy.patch h) (take n l)) (drop n l)).

(** The value of a hexadecimal digit and the bytes that a string of digits
    spells, to read a digest back. *)
Fixpoint hexindex (c : Ascii.ascii) (digits : string) : nat :=
  match digits with
  | EmptyString => 0
  | String d rest => if Ascii.eqb d c then 0 else S (hexindex c rest)
  end.

Definition hexvalue (c : Ascii.ascii) : N := N.of_nat (hexindex c "0123456789abcdef").

Fixpoint hex_bytes (s : string) : list Byte.byte :=
  match s with
  | String c1 (String c2 rest) =>
      default Byte.x00 (Byte.of_N (16 * hexvalue c1 + hexvalue c2)) :: hex_bytes rest
  | _ => []
  end.

Section LoginVocabulary.

Variables dindContainer dindNamespace : string.
Variable h : Legacy.DockerHandler.

(** A pull secret that [getSecret] finds. *)
Definition readable (pullSecret : corev1.LocalObjectReference) : Prop :=
  exists secret, value (Legacy.getSecret h (corev1.Name pullSecret)) = Ok secret.

(** A pull secret that holds both credentials and whose login command the
    helper pod runs without error and answers with ["Login Succeeded"]. *)
Definition logsIn (registry : string) (pullSecret : corev1.LocalObjectReference) : Prop :=
  exists secret id pw result,
    value (Legacy.getSecret h (corev1.Name pullSecret)) = Ok secret
    /\ corev1.Data secret !! "ID" = Some id
    /\ corev1.Data secret !! "PASSWD" = Some pw
    /\ value (Legacy.execToDockerDaemon dindContainer dindNamespace h
                ("docker login " +:+ registry +:+ " -u " +:+ id +:+ " -p " +:+ pw))
       = (result, None)
    /\ GoStrings.Contains (Legacy.OutBuffer result) "Login Succeeded" = true.

End LoginVocabulary.

(** * Properties *)

(** ** The writer monad *)

Lemma value_ret {A : Type} (a : A) : value (ret a) = a.
Proof. reflexivity. Qed.

Lemma trace_ret {A : Type} (a : A) : trace (ret a) = [].
Proof. reflexivity. Qed.

Lemma value_bind {A B : Type} (m : M A) (k : A -> M B) :
  value (bind m k) = value (k (value m)).
Proof. destruct m as [a t]; simpl. destruct (k a); reflexivity. Qed.

Lemma trace_bind {A B : Type} (m : M A) (k : A -> M B) :
  trace (bind m k) = trace m ++ trace (k (value m)).
Proof. destruct m as [a t]; simpl. destruct (k a); reflexivity. Qed.

Lemma bind_ret_l {A B : Type} (a : A) (k : A -> M B) : bind (ret a) k = k a.
Proof. unfold bind, ret. destruct (k a); reflexivity. Qed.

Lemma bind_assoc {A B C : Type} (m : M A) (k : A -> M B) (k' : B -> M C) :
  bind (bind m k) k' = bind m (fun a => bind (k a) k').
Proof.
  destruct m as [a t]; simpl. destruct (k a) as [b t']; simpl.
  destruct (k' b) as [c t'']; simpl. by rewrite app_assoc.
Qed.

Lemma M_eq {A : Type} (m m' : M A) :
  value m = value m' -> trace m = trace m' -> m = m'.
Proof. destruct m, m'; simpl; congruence. Qed.

(** ** Go's strings *)

Example Split_three : GoStrings.Split "a:b:c" ":" = ["a"; "b"; "c"].
Proof. reflexivity. Qed.

Example Split_no_separator : GoStrings.Split "nginx" ":" = ["nginx"].
Proof. reflexivity. Qed.

Example Split_long_separator : GoStrings.Split "a, b, c" ", " = ["a"; "b"; "c"].
Proof. reflexivity. Qed.

Example LastIndex_slash : GoStrings.LastIndex "a/b/c" "/" = 3%Z.
Proof. reflexivity. Qed.

Example LastIndex_absent : GoStrings.LastIndex "abc" "/" = (-1)%Z.
Proof. reflexivity. Qed.

Example TrimPrefix_targets : GoStrings.TrimPrefix "targets/alice" "targets/" = "alice".
Proof. reflexivity. Qed.

Lemma Split_aux_length (s sep : string) (skip : nat) (cur : string) :
  (1 <= length (GoStrings.Split_aux s sep skip cur))%nat.
Proof.
  revert skip cur. induction s as [|c s IH]; intros skip cur;
    cbn [GoStrings.Split_aux]; [cbn; lia|].
  destruct skip; [|apply IH].
  destruct (GoStrings.HasPrefix (String c s) sep); [cbn [length]; lia|apply IH].
Qed.

(** When the name contains [":"], the pieces [temp[0]] and [temp[1]] that
    [getImageInfo] reads exist. *)
Lemma Split_colon_length (s cur : string) :
  GoStrings.Contains s ":" = true ->
  (2 <= length (GoStrings.Split_aux s ":" 0 cur))%nat.
Proof.
  revert cur. induction s as [|c s IH]; intros cur; [done|].
  cbn [GoStrings.Contains GoStrings.Split_aux].
  destruct (GoStrings.HasPrefix (String c s) ":"); cbn [orb length String.length Nat.sub].
  - intros _. pose proof (Split_aux_length s ":" 0 EmptyString). lia.
  - apply IH.
Qed.

(** ** [getImageInfo] *)

Lemma getImageInfo_no_slash (image : string) :
  GoStrings.Contains image "/" = false ->
  Legacy.registry (Legacy.getImageInfo image) = "docker.io".
Proof.
  intros H. unfold Legacy.getImageInfo. rewrite H.
  by destruct (GoStrings.Contains image ":").
Qed.

Lemma getImageInfo_no_slash_no_colon (image : string) :
  GoStrings.Contains image "/" = false ->
  GoStrings.Contains image ":" = false ->
  Legacy.getImageInfo image = Legacy.mkImageInfo "docker.io" image "latest".
Proof.
  intros H1 H2. unfold Legacy.getImageInfo. by rewrite H1, H2.
Qed.

Lemma LastIndex_absent_minus_one (s substr : string) :
  GoStrings.Contains s substr = false -> GoStrings.LastIndex s substr = (-1)%Z.
Proof.
  induction s as [|c s IH]; cbn [GoStrings.Contains GoStrings.LastIndex].
  - rewrite orb_false_r. by intros ->.
  - intros [-> Hs]%orb_false_elim. by rewrite (IH Hs).
Qed.

Lemma append_nil_l (t : string) : "" +:+ t = t.
Proof. reflexivity. Qed.

Lemma append_cons_l (c : Ascii.ascii) (s t : string) :
  String c s +:+ t = String c (s +:+ t).
Proof. reflexivity. Qed.

Lemma LastIndex_last_separator (host rest : string) :
  GoStrings.Contains rest "/" = false ->
  GoStrings.LastIndex (host +:+ "/" +:+ rest) "/" = Z.of_nat (String.length host).
Proof.
  intros Hrest. induction host as [|c host IH].
  - rewrite append_nil_l, append_cons_l, append_nil_l.
    cbn [GoStrings.LastIndex].
    rewrite (LastIndex_absent_minus_one rest "/" Hrest). by destruct rest.
  - rewrite append_cons_l. cbn [GoStrings.LastIndex String.length]. rewrite IH.
    destruct (0 <=? Z.of_nat (String.length host))%Z eqn:Hle; lia.
Qed.

Lemma Contains_separator (host rest : string) :
  GoStrings.Contains (host +:+ "/" +:+ rest) "/" = true.
Proof.
  induction host as [|c host IH]; [by destruct rest|].
  rewrite append_cons_l. cbn [GoStrings.Contains]. rewrite IH. apply orb_true_r.
Qed.

Lemma slice_to_app (s t : string) :
  GoStrings.slice_to (s +:+ t) (String.length s) = s.
Proof.
  induction s as [|c s IH].
  - rewrite append_nil_l. by destruct t.
  - rewrite append_cons_l. cbn [GoStrings.slice_to String.length]. by rewrite IH.
Qed.

Lemma slice_from_app (s t : string) :
  GoStrings.slice_from (s +:+ t) (String.length s) = t.
Proof.
  induction s as [|c s IH].
  - rewrite append_nil_l. by destruct t.
  - rewrite append_cons_l. by cbn [GoStrings.slice_from String.length].
Qed.

(** In general the registry of [getImageInfo] is all that precedes the last
    ["/"] of the image. *)
Lemma getImageInfo_registry_before_last_slash (host rest : string) :
  GoStrings.Contains rest "/" = false ->
  Legacy.registry (Legacy.getImageInfo (host +:+ "/" +:+ rest)) = host.
Proof.
  intros Hrest. unfold Legacy.getImageInfo.
  rewrite Contains_separator, LastIndex_last_separator by done.
  rewrite Nat2Z.id, slice_to_app.
  by destruct (GoStrings.Contains _ ":").
Qed.

(** C2, as the code has it: on ["myreg.example.com/team/app:v2"] the host is
    what precedes the last ["/"], that is ["myreg.example.com/team"], the name
    is ["app"] and the tag ["v2"]; an input without ["/"] gets the host
    ["docker.io"], and when it has no [":"] either, it is the name and the tag
    is ["latest"]. *)
Theorem getImageInfo_splits_at_last_slash :
  Legacy.getImageInfo "myreg.example.com/team/app:v2"
  = Legacy.mkImageInfo "myreg.example.com/team" "app" "v2"
  /\ (forall image : string,
        GoStrings.Contains image "/" = false ->
        Legacy.registry (Legacy.getImageInfo image) = "docker.io"
        /\ (GoStrings.Contains image ":" = false ->
            Legacy.name (Legacy.getImageInfo image) = image
            /\ Legacy.tag (Legacy.getImageInfo image) = "latest")).
Proof.
  split; [reflexivity|].
  intros image H. split; [by apply getImageInfo_no_slash|].
  intros H'. by rewrite getImageInfo_no_slash_no_colon.
Qed.

(** The defaults of C2 at the image ["nginx"]. *)
Lemma getImageInfo_splits_at_last_slash_witness :
  Legacy.registry (Legacy.getImageInfo "nginx") = "docker.io"
  /\ Legacy.name (Legacy.getImageInfo "nginx") = "nginx"
  /\ Legacy.tag (Legacy.getImageInfo "nginx") = "latest".
Proof.
  destruct (proj2 getImageInfo_splits_at_last_slash "nginx" eq_refl) as [H1 H2].
  split; [exact H1|]. exact (H2 eq_refl).
Defined.

(** C2 as the spec has it fails: the host of
    ["myreg.example.com/team/app:v2"] is not ["myreg.example.com"] and its
    name is not ["team/app"]. *)
Lemma getImageInfo_host_keeps_path :
  Legacy.registry (Legacy.getImageInfo "myreg.example.com/team/app:v2")
  = "myreg.example.com/team"
  /\ Legacy.name (Legacy.getImageInfo "myreg.example.com/team/app:v2") = "app"
  /\ bool_decide (Legacy.registry (Legacy.getImageInfo "myreg.example.com/team/app:v2")
                  = "myreg.example.com") = false
  /\ bool_decide (Legacy.name (Legacy.getImageInfo "myreg.example.com/team/app:v2")
                  = "team/app") = false.
Proof. by vm_compute. Qed.

(** ** The signer-policy matcher of the legacy handler *)

Section MatcherFacts.

Variable getRepoAdminKey : Legacy.Signature -> string.
Variable h : Legacy.DockerHandler.

Lemma fetchSignerKey_eq (signerName : string) :
  Legacy.fetchSignerKey h signerName
  = (resolveSigner h signerName, [GetSignerKey signerName]).
Proof.
  unfold Legacy.fetchSignerKey, resolveSigner, call, bind.
  by destruct (Legacy.signerkeys (Legacy.client h) signerName).
Qed.

Lemma hasMatchedSigner_targets_true (key : string) (targets : list Legacy.TrustKey) :
  Legacy.hasMatchedSigner_targets key targets = true
  <-> exists targetKey, targetKey ∈ targets /\ Legacy.ID targetKey = key.
Proof.
  unfold Legacy.hasMatchedSigner_targets. rewrite existsb_exists. split.
  - intros (k & Hin & Hk). exists k. split; [by apply list_elem_of_In|].
    by apply bool_decide_eq_true in Hk.
  - intros (k & Hin & Hk). exists k. split; [by apply list_elem_of_In|].
    by apply bool_decide_eq_true.
Qed.

Lemma hasMatchedSigner_signers_cons (key signerName : string) (rest : list string) :
  Legacy.hasMatchedSigner_signers h key (signerName :: rest)
  = if Legacy.hasMatchedSigner_targets key (Legacy.Targets (resolveSigner h signerName))
    then (true, [GetSignerKey signerName])
    else bind (call (GetSignerKey signerName) tt)
              (fun _ => Legacy.hasMatchedSigner_signers h key rest).
Proof.
  simpl. rewrite fetchSignerKey_eq. unfold bind at 1.
  destruct (Legacy.hasMatchedSigner_targets _ _); [reflexivity|].
  unfold call, bind. by destruct (Legacy.hasMatchedSigner_signers h key rest).
Qed.

Lemma hasMatchedSigner_signers_value (key : string) (signerNames : list string) :
  value (Legacy.hasMatchedSigner_signers h key signerNames)
  = existsb (fun n => Legacy.hasMatchedSigner_targets key
                        (Legacy.Targets (resolveSigner h n))) signerNames.
Proof.
  induction signerNames as [|n rest IH]; [reflexivity|].
  rewrite hasMatchedSigner_signers_cons. cbn [existsb].
  destruct (Legacy.hasMatchedSigner_targets _ _); [reflexivity|].
  by rewrite value_bind.
Qed.

Lemma hasMatchedSigner_signers_app (key : string) (l1 l2 : list string) :
  Legacy.hasMatchedSigner_signers h key (l1 ++ l2)
  = bind (Legacy.hasMatchedSigner_signers h key l1)
         (fun found => if found then ret true
                       else Legacy.hasMatchedSigner_signers h key l2).
Proof.
  induction l1 as [|n rest IH].
  - cbn [app Legacy.hasMatchedSigner_signers]. by rewrite bind_ret_l.
  - rewrite <- app_comm_cons, !hasMatchedSigner_signers_cons.
    destruct (Legacy.hasMatchedSigner_targets _ _); [reflexivity|].
    by rewrite IH, bind_assoc.
Qed.

Lemma hasMatchedSigner_policies_flat (key : string) (policies : list Legacy.SignerPolicy) :
  Legacy.hasMatchedSigner_policies h key policies
  = Legacy.hasMatchedSigner_signers h key (flat_map Legacy.PolicySigners policies).
Proof.
  induction policies as [|p rest IH]; [reflexivity|].
  cbn [Legacy.hasMatchedSigner_policies flat_map].
  by rewrite hasMatchedSigner_signers_app, IH.
Qed.

Lemma hasMatchedSigner_signers_trace (key : string) (signerNames : list string) :
  exists visited,
    trace (Legacy.hasMatchedSigner_signers h key signerNames) = GetSignerKey <$> visited
    /\ visited `prefix_of` signerNames
    /\ (value (Legacy.hasMatchedSigner_signers h key signerNames) = false ->
        visited = signerNames)
    /\ (value (Legacy.hasMatchedSigner_signers h key signerNames) = true ->
        exists pre n,
          visited = pre ++ [n]
          /\ Forall (fun m => ~ holdsKey h key m) pre
          /\ holdsKey h key n).
Proof.
  induction signerNames as [|n rest (visited & Ht & Hp & Hv & Ha)].
  - exists []. by repeat split.
  - rewrite hasMatchedSigner_signers_cons.
    destruct (Legacy.hasMatchedSigner_targets _ _) eqn:Hn.
    + exists [n]. repeat split; [by exists rest|done|].
      intros _. exists [], n. repeat split; [constructor|].
      by apply hasMatchedSigner_targets_true.
    + exists (n :: visited). rewrite trace_bind, value_bind, Ht. repeat split.
      * by apply prefix_cons.
      * intros Hf. by rewrite Hv.
      * intros (pre & m & -> & Hpre & Hm)%Ha. exists (n :: pre), m.
        repeat split; [|done]. constructor; [|done].
        intros Hk%hasMatchedSigner_targets_true. congruence.
Qed.

Lemma authorizedKey_existsb (key : string) :
  existsb (fun n => Legacy.hasMatchedSigner_targets key
                      (Legacy.Targets (resolveSigner h n))) (policySignerNames h) = true
  <-> authorizedKey h key.
Proof.
  unfold authorizedKey, policySignerNames. rewrite existsb_exists. split.
  - intros (n & Hin & Hn). apply in_flat_map in Hin as (p & Hp & Hnp).
    apply hasMatchedSigner_targets_true in Hn as (k & Hk & Hid).
    exists p, n, k. apply list_elem_of_In in Hp, Hnp. done.
  - intros (p & n & k & Hp & Hn & Hk & Hid). exists n. split.
    + apply in_flat_map. exists p. apply list_elem_of_In in Hp, Hn. done.
    + apply hasMatchedSigner_targets_true. by exists k.
Qed.

(** C4: without policy records the matcher accepts exactly the non-empty
    signature lists, and looks nothing up; it rejects the empty list whatever
    the policies; with policy records and a first signature it accepts exactly
    when the repository-admin key of that signature is a target key ID of a
    signer named in a policy record, and the signer keys are looked up in the
    cluster during every check: the requests of a check are those for the
    signer names of the policy records in order, one request per name, all
    of them when the check rejects, and when it accepts those up to and
    including the first name whose signer key holds the repository-admin
    key, no name before it holding that key. The policy records of a handler
    are those that the cluster lists for the namespace of its pod. *)
Theorem hasMatchedSigner_decides (signatures : list Legacy.Signature) :
  let r := Legacy.hasMatchedSigner getRepoAdminKey h signatures in
  (Legacy.signerPolicies h = [] ->
   r = ret (negb (bool_decide (signatures = []))))
  /\ (signatures = [] -> r = ret false)
  /\ (forall first rest,
        Legacy.signerPolicies h <> [] -> signatures = first :: rest ->
        (value r = true <-> authorizedKey h (getRepoAdminKey first))
        /\ exists visited,
             trace r = GetSignerKey <$> visited
             /\ visited `prefix_of` policySignerNames h
             /\ (value r = false -> visited = policySignerNames h)
             /\ (value r = true ->
                 exists pre n,
                   visited = pre ++ [n]
                   /\ Forall (fun m => ~ holdsKey h (getRepoAdminKey first) m) pre
                   /\ holdsKey h (getRepoAdminKey first) n))
  /\ (forall dindNamespace dindDeployment ReadWhiteList clientset pod h',
        value (Legacy.newDockerHandler dindNamespace dindDeployment ReadWhiteList
                                       clientset pod) = Ok h' ->
        Legacy.signerpolicies clientset (corev1.Namespace pod)
        = Ok (Legacy.signerPolicies h')
        /\ Legacy.client h' = clientset).
Proof.
  cbv zeta. unfold Legacy.hasMatchedSigner. split; [|split; [|split]].
  4:{ intros dindNamespace dindDeployment ReadWhiteList clientset pod h'.
      unfold Legacy.newDockerHandler.
      destruct (ReadWhiteList clientset) as [wl|err]; [|done].
      rewrite !value_bind. cbn [call value fst].
      destruct (Legacy.signerpolicies clientset (corev1.Namespace pod)) as [items|err];
        [|done].
      by intros [= <-]. }
  - intros ->. by destruct signatures.
  - intros ->. by destruct (bool_decide _).
  - intros first rest Hne ->.
    rewrite bool_decide_eq_false_2 by (by destruct (Legacy.signerPolicies h)).
    rewrite hasMatchedSigner_policies_flat. fold (policySignerNames h). split.
    + rewrite hasMatchedSigner_signers_value. apply authorizedKey_existsb.
    + apply hasMatchedSigner_signers_trace.
Qed.

End MatcherFacts.

(** ** [isSignedImage] and [getDigest] *)

Section IsSignedImageFacts.

Variables dindContainer dindNamespace : string.
Variable getSignatures : string -> result (list Legacy.Signature).
Variable getRepoAdminKey : Legacy.Signature -> string.
Variable h : Legacy.DockerHandler.

Lemma hasMatchedSigner_nonempty (signatures : list Legacy.Signature) :
  value (Legacy.hasMatchedSigner getRepoAdminKey h signatures) = true ->
  signatures <> [].
Proof.
  intros H ->. unfold Legacy.hasMatchedSigner in H.
  by destruct (bool_decide (length (Legacy.signerPolicies h) = 0%nat)).
Qed.

Lemma getDigest_returns (image : string) (signatures : list Legacy.Signature) :
  signatures <> [] -> exists d, Legacy.getDigest image signatures = Returns d.
Proof. destruct signatures as [|first rest]; [done|]. intros _. by eexists. Qed.

(** The value of [isSignedImage], by the output of the inspection. *)
Lemma isSignedImage_value (image : string) :
  value (Legacy.isSignedImage dindContainer dindNamespace getSignatures
                              getRepoAdminKey h image)
  = if bool_decide (String.length (inspectionOutput dindContainer dindNamespace h image)
                    <= 0)%nat
    then Panics (LogPanic ("Failed to get signature of image " +:+ image))
    else
      match getSignatures (inspectionOutput dindContainer dindNamespace h image) with
      | Err _ => Returns (false, "")
      | Ok signatures =>
          if value (Legacy.hasMatchedSigner getRepoAdminKey h signatures)
          then match Legacy.getDigest image signatures with
               | Returns d => Returns (true, d)
               | Panics p => Panics p
               end
          else Returns (false, "")
      end.
Proof.
  unfold Legacy.isSignedImage, inspectionOutput.
  rewrite !value_bind.
  destruct (bool_decide _); [reflexivity|].
  destruct (getSignatures _) as [signatures|err]; [|reflexivity].
  rewrite value_bind.
  destruct (value (Legacy.hasMatchedSigner getRepoAdminKey h signatures));
    [|reflexivity].
  by destruct (Legacy.getDigest image signatures).
Qed.

(** When the output decodes and no signer matches, the image is rejected
    with an empty digest. *)
Lemma isSignedImage_unmatched (image : string) (signatures : list Legacy.Signature) :
  (0 < String.length (inspectionOutput dindContainer dindNamespace h image))%nat ->
  getSignatures (inspectionOutput dindContainer dindNamespace h image) = Ok signatures ->
  value (Legacy.hasMatchedSigner getRepoAdminKey h signatures) = false ->
  value (Legacy.isSignedImage dindContainer dindNamespace getSignatures
                              getRepoAdminKey h image)
  = Returns (false, "").
Proof.
  intros Hlen Hsig Hm. rewrite isSignedImage_value.
  rewrite bool_decide_eq_false_2 by lia. by rewrite Hsig, Hm.
Qed.

(** C10: [hasMatchedSigner] returns true only on a non-empty slice, on which
    [getDigest] returns; [isSignedImage] reports a digest only when the
    matcher returned true on the decoded slice and [getDigest] returned on
    that slice; and no call of [isSignedImage] ends in an index out of
    range. *)
Theorem getDigest_index_in_bounds (image : string) :
  (forall signatures,
     value (Legacy.hasMatchedSigner getRepoAdminKey h signatures) = true ->
     signatures <> []
     /\ exists d, Legacy.getDigest image signatures = Returns d)
  /\ (forall ok d,
        value (Legacy.isSignedImage dindContainer dindNamespace getSignatures
                                    getRepoAdminKey h image) = Returns (ok, d) ->
        ok = true ->
        exists signatures,
          getSignatures (inspectionOutput dindContainer dindNamespace h image)
          = Ok signatures
          /\ value (Legacy.hasMatchedSigner getRepoAdminKey h signatures) = true
          /\ Legacy.getDigest image signatures = Returns d)
  /\ value (Legacy.isSignedImage dindContainer dindNamespace getSignatures
                                 getRepoAdminKey h image)
     <> Panics IndexOutOfRange.
Proof.
  split; [|split].
  - intros signatures H. apply hasMatchedSigner_nonempty in H.
    split; [done|]. by apply getDigest_returns.
  - intros ok d. rewrite isSignedImage_value.
    destruct (bool_decide _); [done|].
    destruct (getSignatures _) as [signatures|err]; [|by intros [= <- <-]].
    destruct (value (Legacy.hasMatchedSigner getRepoAdminKey h signatures)) eqn:Hm;
      [|by intros [= <- <-]].
    destruct (Legacy.getDigest image signatures) as [d'|p] eqn:Hd; [|done].
    intros [= <- <-] _. by exists signatures.
  - rewrite isSignedImage_value.
    destruct (bool_decide _); [done|].
    destruct (getSignatures _) as [signatures|err]; [|done].
    destruct (value (Legacy.hasMatchedSigner getRepoAdminKey h signatures)) eqn:Hm;
      [|done].
    apply hasMatchedSigner_nonempty in Hm.
    by destruct (getDigest_returns image signatures Hm) as [d ->].
Qed.

End IsSignedImageFacts.

(** ** The validator *)

Section ValidatorFacts.

Import corev1.

Variable env : Pods.Collaborators.
Variable h : Pods.validator.

Lemma getBasicAuthForRegistry_cons (host namespace : string)
    (pullSecret : LocalObjectReference) (rest : list LocalObjectReference) :
  Pods.getBasicAuthForRegistry env h host namespace (pullSecret :: rest)
  = match credentialOf env h host namespace pullSecret with
    | Err err => (("", Some err), [GetSecret namespace (Name pullSecret)])
    | Ok basicAuth =>
        if decide (basicAuth = "")
        then bind (call (GetSecret namespace (Name pullSecret)) tt)
                  (fun _ => Pods.getBasicAuthForRegistry env h host namespace rest)
        else ((basicAuth, None), [GetSecret namespace (Name pullSecret)])
    end.
Proof.
  cbn [Pods.getBasicAuthForRegistry]. unfold credentialOf, call, bind.
  destruct (Pods.client h namespace (Name pullSecret)) as [secret|err]; [|reflexivity].
  destruct (Pods.NewImagePullSecret env secret) as [ips|err]; [|reflexivity].
  destruct (Pods.GetHostBasicAuth env ips _) as [basicAuth|err]; [|reflexivity].
  destruct (decide (basicAuth = "")); [|reflexivity].
  by destruct (Pods.getBasicAuthForRegistry env h host namespace rest).
Qed.

(** The lookup of credentials only reads secrets. *)
Lemma getBasicAuthForRegistry_trace (host namespace : string)
    (pullSecrets : list LocalObjectReference) (e : Event) :
  e ∈ trace (Pods.getBasicAuthForRegistry env h host namespace pullSecrets) ->
  exists secretName, e = GetSecret namespace secretName.
Proof.
  induction pullSecrets as [|p rest IH]; [by intros ?%elem_of_nil|].
  rewrite getBasicAuthForRegistry_cons.
  destruct (credentialOf env h host namespace p) as [a|err].
  - destruct (decide (a = "")).
    + rewrite trace_bind. intros [->%list_elem_of_singleton|Hin]%elem_of_app; eauto.
    + intros ->%list_elem_of_singleton; eauto.
  - intros ->%list_elem_of_singleton; eauto.
Qed.

(** The loop skips a whitelisted prefix and runs the body on the first
    container that is not whitelisted. *)
Lemma addDigestWhenImageValid_from_reach (containers pre post : list Container)
    (i : nat) (c : Container) (namespace : string)
    (pullSecrets : list LocalObjectReference) :
  Forall (whitelisted h) pre -> ~ whitelisted h c ->
  Pods.addDigestWhenImageValid_from env h containers i (pre ++ c :: post)
                                    namespace pullSecrets
  = Pods.addDigestWhenImageValid_body env h containers (i + length pre) c
                                      namespace pullSecrets.
Proof.
  intros Hpre Hc. revert i. induction Hpre as [|p pre Hp Hpre IH]; intros i.
  - cbn [app length Pods.addDigestWhenImageValid_from]. rewrite Nat.add_0_r.
    unfold whitelisted in Hc. by destruct (Pods.IsImageWhiteListed _ _).
  - cbn [app length Pods.addDigestWhenImageValid_from]. rewrite Hp, IH.
    f_equal. lia.
Qed.

Lemma addDigestWhenImageValid_from_skip (containers rest : list Container) (i : nat)
    (namespace : string) (pullSecrets : list LocalObjectReference) :
  Forall (whitelisted h) rest ->
  Pods.addDigestWhenImageValid_from env h containers i rest namespace pullSecrets
  = ret (containers, (true, "", None)).
Proof.
  intros Hall. revert i. induction Hall as [|p rest Hp Hall IH]; intros i; [reflexivity|].
  cbn [Pods.addDigestWhenImageValid_from]. by rewrite Hp, IH.
Qed.

Lemma addDigestWhenImageValid_reach (containers pre post : list Container)
    (c : Container) (namespace : string) (pullSecrets : list LocalObjectReference) :
  containers = pre ++ c :: post ->
  Forall (whitelisted h) pre -> ~ whitelisted h c ->
  Pods.addDigestWhenImageValid env h containers namespace pullSecrets
  = Pods.addDigestWhenImageValid_body env h containers (length pre) c
                                      namespace pullSecrets.
Proof.
  intros Heq Hpre Hc. unfold Pods.addDigestWhenImageValid.
  rewrite Heq at 2. by rewrite addDigestWhenImageValid_from_reach.
Qed.

Lemma addDigestWhenImageValid_skip (containers : list Container)
    (namespace : string) (pullSecrets : list LocalObjectReference) :
  Forall (whitelisted h) containers ->
  Pods.addDigestWhenImageValid env h containers namespace pullSecrets
  = ret (containers, (true, "", None)).
Proof. intros Hall. by apply addDigestWhenImageValid_from_skip. Qed.

(** A list is whitelisted throughout, or has a first container that is not. *)
Lemma first_not_whitelisted (containers : list Container) :
  Forall (whitelisted h) containers
  \/ exists pre c post,
       containers = pre ++ c :: post /\ Forall (whitelisted h) pre /\ ~ whitelisted h c.
Proof.
  induction containers as [|c rest [IH|(pre & c' & post & -> & Hpre & Hc')]].
  - by left.
  - destruct (Pods.IsImageWhiteListed (Pods.whiteList h) (Image c)) eqn:Hw.
    + left. by constructor.
    + right. exists [], c, rest. repeat split; [constructor|].
      unfold whitelisted. by rewrite Hw.
  - destruct (Pods.IsImageWhiteListed (Pods.whiteList h) (Image c)) eqn:Hw.
    + right. exists (c :: pre), c', post. repeat split; [|done]. by constructor.
    + right. exists [], c, (pre ++ c' :: post). repeat split; [constructor|].
      unfold whitelisted. by rewrite Hw.
Qed.

(** The body, when the reference parses and the credentials are resolved
    without error, by the policy of the host. *)
Lemma addDigestWhenImageValid_body_policy (containers : list Container) (i : nat)
    (c : Container) (namespace : string) (pullSecrets : list LocalObjectReference)
    (ref : Pods.imageRef) (basicAuth : string) :
  Pods.parseImage env (Image c) = Ok ref ->
  value (Pods.getBasicAuthForRegistry env h (Pods.host ref) namespace pullSecrets)
  = (basicAuth, None) ->
  let vp := Pods.doesMatchPolicy (Pods.registryPolicyCache h) (Pods.host ref) namespace in
  let lookups :=
    trace (Pods.getBasicAuthForRegistry env h (Pods.host ref) namespace pullSecrets) in
  Pods.addDigestWhenImageValid_body env h containers i c namespace pullSecrets
  = if fst vp then
      if bool_decide (Pods.Registry (snd vp) = "") || negb (Pods.SignCheck (snd vp))
      then ((containers, (true, "", None)), lookups)
      else (afterFetch env containers i c ref
              (Pods.FetchSignature_answer env (Image c) basicAuth (Pods.Notary (snd vp))),
            lookups ++ [FetchSignature (Image c) basicAuth (Pods.Notary (snd vp))])
    else ((containers,
           (false,
            "Image '" +:+ Image c
            +:+ "' does not meet registry security policy. Please check the RegistrySecurityPolicy",
            None)),
          lookups).
Proof.
  intros Hparse Hauth. cbv zeta. unfold Pods.addDigestWhenImageValid_body.
  rewrite Hparse.
  destruct (Pods.getBasicAuthForRegistry env h (Pods.host ref) namespace pullSecrets)
    as [[a e] t] eqn:Hg.
  cbn in Hauth. injection Hauth as -> ->.
  cbn [bind value trace fst snd].
  destruct (Pods.doesMatchPolicy _ _ _) as [valid policy]. cbn [fst snd].
  destruct valid; cbn [andb orb].
  - destruct (bool_decide (Pods.Registry policy = "")); cbn [orb].
    + unfold ret. by rewrite app_nil_r.
    + destruct (Pods.SignCheck policy); cbn [negb].
      * unfold call. cbn [bind].
        destruct (Pods.FetchSignature_answer env (Image c) basicAuth (Pods.Notary policy))
          as [[sig|]|err]; cbn [afterFetch]; try reflexivity.
        by destruct (bool_decide _ && bool_decide _).
      * unfold ret. by rewrite app_nil_r.
  - unfold ret. by rewrite app_nil_r.
Qed.

(** The body, when the reference does not parse or the credentials cannot
    be resolved: the error is returned and no notary is asked. *)
Lemma addDigestWhenImageValid_body_error (containers : list Container) (i : nat)
    (c : Container) (namespace : string) (pullSecrets : list LocalObjectReference) :
  (forall ref, Pods.parseImage env (Image c) = Ok ref ->
     exists err,
       snd (value (Pods.getBasicAuthForRegistry env h (Pods.host ref) namespace
                                                pullSecrets)) = Some err) ->
  fst (value (Pods.addDigestWhenImageValid_body env h containers i c namespace
                                                pullSecrets)) = containers
  /\ forall e,
       e ∈ trace (Pods.addDigestWhenImageValid_body env h containers i c namespace
                                                    pullSecrets) ->
       exists secretName, e = GetSecret namespace secretName.
Proof.
  intros Herr. unfold Pods.addDigestWhenImageValid_body.
  destruct (Pods.parseImage env (Image c)) as [ref|err].
  - destruct (Herr ref eq_refl) as [err Hsome].
    rewrite value_bind, trace_bind, Hsome. cbn [ret value trace fst snd].
    split; [done|]. intros e. rewrite app_nil_r.
    apply getBasicAuthForRegistry_trace.
  - split; [done|]. by intros e ?%elem_of_nil.
Qed.

(** A call of the notary client in a run of [addDigestWhenImageValid] is the
    call for a container of the list, whose reference parsed; the run ends as
    [afterFetch] says. *)
Lemma addDigestWhenImageValid_fetch_inv (containers : list Container)
    (namespace : string) (pullSecrets : list LocalObjectReference)
    (image basicAuth notaryURL : string) :
  FetchSignature image basicAuth notaryURL
    ∈ trace (Pods.addDigestWhenImageValid env h containers namespace pullSecrets) ->
  exists i c ref,
    containers !! i = Some c /\ Image c = image
    /\ Pods.parseImage env image = Ok ref
    /\ value (Pods.addDigestWhenImageValid env h containers namespace pullSecrets)
       = afterFetch env containers i c ref
           (Pods.FetchSignature_answer env image basicAuth notaryURL).
Proof.
  destruct (first_not_whitelisted containers)
    as [Hall|(pre & c & post & Heq & Hpre & Hc)].
  - rewrite addDigestWhenImageValid_skip by done. by intros ?%elem_of_nil.
  - rewrite !(addDigestWhenImageValid_reach _ _ _ _ _ _ Heq Hpre Hc). intros Hin.
    assert (Hlook : containers !! length pre = Some c).
    { rewrite Heq. by rewrite list_lookup_middle. }
    destruct (Pods.parseImage env (Image c)) as [ref|err] eqn:Hparse.
    2:{ destruct (addDigestWhenImageValid_body_error containers (length pre) c
                    namespace pullSecrets) as [_ Hev].
        { intros ref. by rewrite Hparse. }
        by destruct (Hev _ Hin). }
    destruct (value (Pods.getBasicAuthForRegistry env h (Pods.host ref) namespace
                                                  pullSecrets))
      as [a [err|]] eqn:Hauth.
    { destruct (addDigestWhenImageValid_body_error containers (length pre) c
                  namespace pullSecrets) as [_ Hev].
      { intros ref'. rewrite Hparse. intros [= <-]. exists err. by rewrite Hauth. }
      by destruct (Hev _ Hin). }
    revert Hin.
    rewrite (addDigestWhenImageValid_body_policy containers (length pre) c namespace
               pullSecrets ref a Hparse Hauth).
    assert (Hno : FetchSignature image basicAuth notaryURL
                  ∉ trace (Pods.getBasicAuthForRegistry env h (Pods.host ref)
                             namespace pullSecrets)).
    { intros Hin. by destruct (getBasicAuthForRegistry_trace _ _ _ _ Hin). }
    destruct (fst (Pods.doesMatchPolicy _ _ _)); [|done].
    destruct (_ || _); [done|]. cbn [trace value fst snd].
    intros [Hin|[= -> -> ->]%list_elem_of_singleton]%elem_of_app; [done|].
    by exists (length pre), c, ref.
Qed.

(** A run reads secrets and asks the notary client, nothing else. *)
Lemma addDigestWhenImageValid_events (containers : list Container)
    (namespace : string) (pullSecrets : list LocalObjectReference) (e : Event) :
  e ∈ trace (Pods.addDigestWhenImageValid env h containers namespace pullSecrets) ->
  (exists secretName, e = GetSecret namespace secretName)
  \/ (exists image basicAuth notaryURL, e = FetchSignature image basicAuth notaryURL).
Proof.
  destruct (first_not_whitelisted containers)
    as [Hall|(pre & c & post & Heq & Hpre & Hc)].
  - rewrite addDigestWhenImageValid_skip by done. by intros ?%elem_of_nil.
  - rewrite (addDigestWhenImageValid_reach _ _ _ _ _ _ Heq Hpre Hc). intros Hin.
    destruct (Pods.parseImage env (Image c)) as [ref|err] eqn:Hparse.
    2:{ destruct (addDigestWhenImageValid_body_error containers (length pre) c
                    namespace pullSecrets) as [_ Hev].
        { intros ref. by rewrite Hparse. }
        left. by apply Hev. }
    destruct (value (Pods.getBasicAuthForRegistry env h (Pods.host ref) namespace
                                                  pullSecrets))
      as [a [err|]] eqn:Hauth.
    { destruct (addDigestWhenImageValid_body_error containers (length pre) c
                  namespace pullSecrets) as [_ Hev].
      { intros ref'. rewrite Hparse. intros [= <-]. exists err. by rewrite Hauth. }
      left. by apply Hev. }
    revert Hin.
    rewrite (addDigestWhenImageValid_body_policy containers (length pre) c namespace
               pullSecrets ref a Hparse Hauth).
    destruct (fst (Pods.doesMatchPolicy _ _ _)).
    + destruct (_ || _); cbn [trace snd].
      * intros Hin. left. by eapply getBasicAuthForRegistry_trace.
      * intros [Hin| ->%list_elem_of_singleton]%elem_of_app.
        -- left. by eapply getBasicAuthForRegistry_trace.
        -- right. eauto.
    + cbn [trace snd]. intros Hin. left. by eapply getBasicAuthForRegistry_trace.
Qed.

(** A run that changed the slice asked the notary client. *)
Lemma addDigestWhenImageValid_changed (containers : list Container)
    (namespace : string) (pullSecrets : list LocalObjectReference) :
  fst (value (Pods.addDigestWhenImageValid env h containers namespace pullSecrets))
  <> containers ->
  exists image basicAuth notaryURL,
    FetchSignature image basicAuth notaryURL
      ∈ trace (Pods.addDigestWhenImageValid env h containers namespace pullSecrets).
Proof.
  destruct (first_not_whitelisted containers)
    as [Hall|(pre & c & post & Heq & Hpre & Hc)].
  - by rewrite addDigestWhenImageValid_skip.
  - rewrite !(addDigestWhenImageValid_reach _ _ _ _ _ _ Heq Hpre Hc). intros Hne.
    destruct (Pods.parseImage env (Image c)) as [ref|err] eqn:Hparse.
    2:{ destruct (addDigestWhenImageValid_body_error containers (length pre) c
                    namespace pullSecrets) as [Hsame _]; [|done].
        intros ref. by rewrite Hparse. }
    destruct (value (Pods.getBasicAuthForRegistry env h (Pods.host ref) namespace
                                                  pullSecrets))
      as [a [err|]] eqn:Hauth.
    { destruct (addDigestWhenImageValid_body_error containers (length pre) c
                  namespace pullSecrets) as [Hsame _]; [|done].
      intros ref'. rewrite Hparse. intros [= <-]. exists err. by rewrite Hauth. }
    revert Hne.
    rewrite (addDigestWhenImageValid_body_policy containers (length pre) c namespace
               pullSecrets ref a Hparse Hauth).
    destruct (fst (Pods.doesMatchPolicy _ _ _)); [|done].
    destruct (_ || _); [done|]. cbn [trace value fst snd]. intros _.
    eexists _, _, _. apply elem_of_app. right. by apply list_elem_of_singleton.
Qed.

(** The verdict and the calls of the body do not depend on the slice nor on
    the index. *)
Lemma addDigestWhenImageValid_body_verdict (containers containers' : list Container)
    (i i' : nat) (c : Container) (namespace : string)
    (pullSecrets : list LocalObjectReference) :
  snd (value (Pods.addDigestWhenImageValid_body env h containers i c namespace
                                                pullSecrets))
  = snd (value (Pods.addDigestWhenImageValid_body env h containers' i' c namespace
                                                  pullSecrets)).
Proof.
  unfold Pods.addDigestWhenImageValid_body.
  destruct (Pods.parseImage env (Image c)) as [ref|err]; [|done].
  rewrite !value_bind.
  destruct (snd (value (Pods.getBasicAuthForRegistry env h (Pods.host ref) namespace
                                                      pullSecrets))); [done|].
  destruct (fst (Pods.doesMatchPolicy _ _ _)); cbn [andb]; [|done].
  destruct (bool_decide (Pods.Registry _ = "")); [done|].
  destruct (negb _); [done|].
  rewrite !value_bind. cbn [call value fst].
  destruct (Pods.FetchSignature_answer _ _ _ _) as [[sig|]|err]; try done.
  by destruct (_ && _).
Qed.

(** The verdict of a list is the verdict of its first container that is not
    whitelisted, taken alone: the containers after it are not looked at. *)
Lemma addDigestWhenImageValid_verdict_of_first (pre post : list Container)
    (c : Container) (namespace : string) (pullSecrets : list LocalObjectReference) :
  Forall (whitelisted h) pre -> ~ whitelisted h c ->
  snd (value (Pods.addDigestWhenImageValid env h (pre ++ c :: post) namespace
                                           pullSecrets))
  = snd (value (Pods.addDigestWhenImageValid env h [c] namespace pullSecrets)).
Proof.
  intros Hpre Hc.
  rewrite (addDigestWhenImageValid_reach _ pre post c _ _ eq_refl Hpre Hc).
  rewrite (addDigestWhenImageValid_reach [c] [] [] c _ _ eq_refl (Forall_nil_2 _) Hc).
  apply addDigestWhenImageValid_body_verdict.
Qed.

(** Secrets that yield the empty credential are passed over. *)
Lemma getBasicAuthForRegistry_skip (host namespace : string)
    (pre rest : list LocalObjectReference) :
  Forall (fun p => credentialOf env h host namespace p = Ok "") pre ->
  value (Pods.getBasicAuthForRegistry env h host namespace (pre ++ rest))
  = value (Pods.getBasicAuthForRegistry env h host namespace rest).
Proof.
  induction 1 as [|p pre Hp Hpre IH]; [reflexivity|].
  rewrite <- app_comm_cons, getBasicAuthForRegistry_cons, Hp.
  cbn [decide]. by rewrite decide_True, value_bind.
Qed.

(** C9, as the code has it: secrets whose credential for the host is empty
    are skipped; the first listed secret with a non-empty credential wins
    when every secret listed before it was fetched and decoded without error;
    when every listed secret is fetched and decoded and yields the empty
    credential, the result is the empty credential and no error; and the
    first listed secret that cannot be fetched or decoded ends the lookup
    with its error. *)
Theorem getBasicAuthForRegistry_first_credential (host namespace : string) :
  (forall pullSecrets,
     Forall (fun p => credentialOf env h host namespace p = Ok "") pullSecrets ->
     value (Pods.getBasicAuthForRegistry env h host namespace pullSecrets) = ("", None))
  /\ (forall pre p post basicAuth,
        Forall (fun p => credentialOf env h host namespace p = Ok "") pre ->
        credentialOf env h host namespace p = Ok basicAuth -> basicAuth <> "" ->
        value (Pods.getBasicAuthForRegistry env h host namespace (pre ++ p :: post))
        = (basicAuth, None))
  /\ (forall pre p post err,
        Forall (fun p => credentialOf env h host namespace p = Ok "") pre ->
        credentialOf env h host namespace p = Err err ->
        value (Pods.getBasicAuthForRegistry env h host namespace (pre ++ p :: post))
        = ("", Some err)).
Proof.
  split; [|split].
  - intros pullSecrets Hall.
    rewrite <- (app_nil_r pullSecrets). by rewrite getBasicAuthForRegistry_skip.
  - intros pre p post basicAuth Hpre Hp Hne.
    rewrite getBasicAuthForRegistry_skip by done.
    rewrite getBasicAuthForRegistry_cons, Hp. by rewrite decide_False.
  - intros pre p post err Hpre Hp.
    rewrite getBasicAuthForRegistry_skip by done.
    by rewrite getBasicAuthForRegistry_cons, Hp.
Qed.

(** C5, as the code has it: for the container that the loop evaluates (the
    containers before it are whitelisted, it is not), whose reference parses
    and whose credentials are resolved without error: when no policy matches
    its host in the namespace it is rejected with the reason that cites the
    registry security policy; when a policy matches with the sign check off
    it is accepted and the notary client is not called. *)
Theorem addDigestWhenImageValid_policy_decision (pre post : list Container)
    (c : Container) (namespace : string) (pullSecrets : list LocalObjectReference)
    (ref : Pods.imageRef) (basicAuth : string) :
  Forall (whitelisted h) pre -> ~ whitelisted h c ->
  Pods.parseImage env (Image c) = Ok ref ->
  value (Pods.getBasicAuthForRegistry env h (Pods.host ref) namespace pullSecrets)
  = (basicAuth, None) ->
  let r := Pods.addDigestWhenImageValid env h (pre ++ c :: post) namespace pullSecrets in
  let vp := Pods.doesMatchPolicy (Pods.registryPolicyCache h) (Pods.host ref) namespace in
  (fst vp = false ->
   value r
   = (pre ++ c :: post,
      (false,
       "Image '" +:+ Image c
       +:+ "' does not meet registry security policy. Please check the RegistrySecurityPolicy",
       None)))
  /\ (fst vp = true -> Pods.SignCheck (snd vp) = false ->
      value r = (pre ++ c :: post, (true, "", None))
      /\ forall image auth notaryURL, FetchSignature image auth notaryURL ∉ trace r).
Proof.
  intros Hpre Hc Hparse Hauth. cbv zeta.
  rewrite (addDigestWhenImageValid_reach _ pre post c namespace pullSecrets eq_refl Hpre Hc).
  rewrite (addDigestWhenImageValid_body_policy _ _ _ _ _ ref basicAuth Hparse Hauth).
  split.
  - by intros ->.
  - intros -> ->. rewrite orb_true_r. split; [done|].
    intros image auth notaryURL Hin. cbn [trace snd] in Hin.
    by destruct (getBasicAuthForRegistry_trace _ _ _ _ Hin).
Qed.

(** The answer of the notary client decides a run of
    [addDigestWhenImageValid] that asked it. *)
Lemma addDigestWhenImageValid_fetch_answer (containers : list Container)
    (namespace : string) (pullSecrets : list LocalObjectReference)
    (image basicAuth notaryURL : string) :
  let r := Pods.addDigestWhenImageValid env h containers namespace pullSecrets in
  FetchSignature image basicAuth notaryURL ∈ trace r ->
  (Pods.FetchSignature_answer env image basicAuth notaryURL = Ok None ->
   value r = (containers, (false, "Image '" +:+ image +:+ "' is not signed", None)))
  /\ (forall err,
        Pods.FetchSignature_answer env image basicAuth notaryURL = Err err ->
        value r = (containers, (false, "", Some err))).
Proof.
  cbv zeta. intros Hin.
  destruct (addDigestWhenImageValid_fetch_inv _ _ _ _ _ _ Hin)
    as (i & c & ref & Hlook & <- & Hparse & ->).
  split.
  - by intros ->.
  - by intros err ->.
Qed.

(** The same for a validation of a pod, whichever of the two lists the
    container belongs to. *)
Lemma CheckIsValidAndAddDigest_fetch_answer (pod : Pod)
    (image basicAuth notaryURL : string) :
  let r := Pods.CheckIsValidAndAddDigest env h pod in
  FetchSignature image basicAuth notaryURL ∈ trace r ->
  (Pods.FetchSignature_answer env image basicAuth notaryURL = Ok None ->
   snd (value r) = (false, "Image '" +:+ image +:+ "' is not signed", None))
  /\ (forall err,
        Pods.FetchSignature_answer env image basicAuth notaryURL = Err err ->
        snd (value r) = (false, "", Some err)).
Proof.
  cbv zeta. unfold Pods.CheckIsValidAndAddDigest.
  destruct (Pods.IsNamespaceWhiteListed _ _); [by intros ?%elem_of_nil|].
  rewrite trace_bind, value_bind.
  pose proof (addDigestWhenImageValid_fetch_answer (InitContainers (Spec pod))
                (Namespace pod) (ImagePullSecrets (Spec pod)) image basicAuth notaryURL)
    as Hinit.
  cbv zeta in Hinit.
  destruct (value (Pods.addDigestWhenImageValid env h (InitContainers (Spec pod))
                     (Namespace pod) (ImagePullSecrets (Spec pod))))
    as [cs1 [[v1 reason1] e1]] eqn:Hv1.
  cbn [fst snd].
  destruct v1, e1 as [e1|]; cbn [ret trace value fst snd].
  2:{ rewrite trace_bind, value_bind.
      cbn [setInitContainers Containers ImagePullSecrets Namespace Spec].
      pose proof (addDigestWhenImageValid_fetch_answer (Containers (Spec pod))
                    (Namespace pod) (ImagePullSecrets (Spec pod)) image basicAuth
                    notaryURL) as Hreg.
      cbv zeta in Hreg.
      destruct (value (Pods.addDigestWhenImageValid env h (Containers (Spec pod))
                         (Namespace pod) (ImagePullSecrets (Spec pod))))
        as [cs2 [[v2 reason2] e2]] eqn:Hv2.
      cbn [fst snd].
      intros [Hin|Hin]%elem_of_app.
      { destruct (Hinit Hin) as [Hnil Herr]. split.
        - intros Hans. specialize (Hnil Hans). by simplify_eq.
        - intros err Hans. specialize (Herr err Hans). by simplify_eq. }
      destruct v2, e2 as [e2|]; cbn [ret trace value fst snd] in Hin |- *;
        rewrite app_nil_r in Hin;
        destruct (Hreg Hin) as [Hnil Herr]; (split;
          [intros Hans; specialize (Hnil Hans); by simplify_eq
          |intros err Hans; specialize (Herr err Hans); by simplify_eq]). }
  all: rewrite app_nil_r; intros Hin; destruct (Hinit Hin) as [Hnil Herr]; (split;
         [intros Hans; specialize (Hnil Hans); by simplify_eq
         |intros err Hans; specialize (Herr err Hans); by simplify_eq]).
Qed.

(** C6: when a run has asked the notary client for an image and the answer
    is nil, the run returns invalid with the reason that the image is not
    signed and no error, the slice unchanged; when the answer is an error,
    the run returns that error, with an empty reason. The validation of the
    pod returns the same verdict. *)
Theorem addDigestWhenImageValid_fetch_nil_or_error (image basicAuth notaryURL : string) :
  (forall containers namespace pullSecrets,
     let r := Pods.addDigestWhenImageValid env h containers namespace pullSecrets in
     FetchSignature image basicAuth notaryURL ∈ trace r ->
     (Pods.FetchSignature_answer env image basicAuth notaryURL = Ok None ->
      value r = (containers, (false, "Image '" +:+ image +:+ "' is not signed", None)))
     /\ (forall err,
           Pods.FetchSignature_answer env image basicAuth notaryURL = Err err ->
           value r = (containers, (false, "", Some err))))
  /\ (forall pod,
        let r := Pods.CheckIsValidAndAddDigest env h pod in
        FetchSignature image basicAuth notaryURL ∈ trace r ->
        (Pods.FetchSignature_answer env image basicAuth notaryURL = Ok None ->
         snd (value r) = (false, "Image '" +:+ image +:+ "' is not signed", None))
        /\ (forall err,
              Pods.FetchSignature_answer env image basicAuth notaryURL = Err err ->
              snd (value r) = (false, "", Some err))).
Proof.
  split.
  - intros containers namespace pullSecrets.
    apply addDigestWhenImageValid_fetch_answer.
  - intros pod. apply CheckIsValidAndAddDigest_fetch_answer.
Qed.

(** The digest check of the container that a run evaluates: when a run has
    asked the notary client for an image whose reference carries a digest
    that differs from the digest of the signature for its tag, the run
    returns invalid with the digest reason and the slice is unchanged; and a
    run that changed the slice wrote one container, whose reference carried
    no digest or the digest of the signature. *)
Theorem addDigestWhenImageValid_digest_mismatch (containers : list Container)
    (namespace : string) (pullSecrets : list LocalObjectReference) :
  let r := Pods.addDigestWhenImageValid env h containers namespace pullSecrets in
  (forall image basicAuth notaryURL sig ref,
     FetchSignature image basicAuth notaryURL ∈ trace r ->
     Pods.FetchSignature_answer env image basicAuth notaryURL = Ok (Some sig) ->
     Pods.parseImage env image = Ok ref ->
     Pods.digest ref <> "" ->
     Pods.digest ref <> Pods.GetDigest env sig (Pods.tag ref) ->
     value r
     = (containers,
        (false,
         "Image '" +:+ image +:+ "''s digest is different from the signed digest",
         None)))
  /\ (fst (value r) <> containers ->
      exists i c ref sig basicAuth notaryURL,
        containers !! i = Some c
        /\ Pods.parseImage env (Image c) = Ok ref
        /\ FetchSignature (Image c) basicAuth notaryURL ∈ trace r
        /\ Pods.FetchSignature_answer env (Image c) basicAuth notaryURL = Ok (Some sig)
        /\ (Pods.digest ref = ""
            \/ Pods.digest ref = Pods.GetDigest env sig (Pods.tag ref))
        /\ value r
           = (<[i := setImage c
                       (Pods.imageRef_String env
                          (Pods.setDigest ref (Pods.GetDigest env sig (Pods.tag ref))))]>
                containers,
              (true, "", None))).
Proof.
  cbv zeta. split.
  - intros image basicAuth notaryURL sig ref Hin Hans Hparse Hne1 Hne2.
    destruct (addDigestWhenImageValid_fetch_inv _ _ _ _ _ _ Hin)
      as (i & c & ref' & Hlook & <- & Hparse' & ->).
    rewrite Hparse in Hparse'. injection Hparse' as <-.
    rewrite Hans. cbn [afterFetch].
    by rewrite !bool_decide_eq_true_2.
  - intros Hne.
    destruct (addDigestWhenImageValid_changed _ _ _ Hne)
      as (image & basicAuth & notaryURL & Hin).
    destruct (addDigestWhenImageValid_fetch_inv _ _ _ _ _ _ Hin)
      as (i & c & ref & Hlook & <- & Hparse & Hval).
    rewrite Hval in Hne |- *.
    destruct (Pods.FetchSignature_answer env (Image c) basicAuth notaryURL)
      as [[sig|]|err] eqn:Hans; [|done..].
    cbn [afterFetch] in Hne |- *.
    destruct (bool_decide (Pods.digest ref <> "")) eqn:H1;
      destruct (bool_decide (Pods.digest ref <> Pods.GetDigest env sig (Pods.tag ref)))
        eqn:H2; cbn [andb] in Hne |- *; [done|..];
      exists i, c, ref, sig, basicAuth, notaryURL; repeat split; try done.
    + right. apply bool_decide_eq_false in H2.
      by destruct (decide (Pods.digest ref = Pods.GetDigest env sig (Pods.tag ref))).
    + left. apply bool_decide_eq_false in H1.
      by destruct (decide (Pods.digest ref = "")).
    + left. apply bool_decide_eq_false in H1.
      by destruct (decide (Pods.digest ref = "")).
Qed.

End ValidatorFacts.

(** ** The validator on the sample data *)

Import corev1.

(** C9 on the sample: after a secret without credential for the host, the
    secret [regcred] wins; a list of such secrets yields the empty
    credential; a secret that does not exist ends the lookup with an error. *)
Lemma getBasicAuthForRegistry_first_credential_witness :
  value (Pods.getBasicAuthForRegistry Sample.collaborators Sample.validator
           "registry.example.com" "default"
           [mkLocalObjectReference "other"; mkLocalObjectReference "regcred"])
  = ("dXNlcjpwdw==", None)
  /\ value (Pods.getBasicAuthForRegistry Sample.collaborators Sample.validator
              "registry.example.com" "default" [mkLocalObjectReference "other"])
     = ("", None)
  /\ value (Pods.getBasicAuthForRegistry Sample.collaborators Sample.validator
              "registry.example.com" "default"
              [mkLocalObjectReference "other"; mkLocalObjectReference "missing"])
     = ("", Some "couldn't get secret named missing by not found").
Proof.
  destruct (getBasicAuthForRegistry_first_credential Sample.collaborators
              Sample.validator "registry.example.com" "default") as (H1 & H2 & H3).
  split; [|split].
  - apply (H2 [mkLocalObjectReference "other"] (mkLocalObjectReference "regcred") []).
    + repeat constructor.
    + reflexivity.
    + discriminate.
  - apply H1. repeat constructor.
  - apply (H3 [mkLocalObjectReference "other"] (mkLocalObjectReference "missing") []).
    + repeat constructor.
    + reflexivity.
Defined.

(** C9 as the spec has it fails: the listed secret [missing] does not exist
    and [regcred], listed after it, carries a credential of the registry,
    yet the lookup returns an error and not that credential; and with
    [missing] alone, where no listed secret yields a credential, the lookup
    returns an error and not the empty credential without error. *)
Lemma getBasicAuthForRegistry_missing_secret_fails :
  Sample.getSecret "default" "missing" = Err "not found"
  /\ credentialOf Sample.collaborators Sample.validator "registry.example.com"
       "default" (mkLocalObjectReference "regcred") = Ok "dXNlcjpwdw=="
  /\ value (Pods.getBasicAuthForRegistry Sample.collaborators Sample.validator
              "registry.example.com" "default"
              [mkLocalObjectReference "missing"; mkLocalObjectReference "regcred"])
     = ("", Some "couldn't get secret named missing by not found")
  /\ value (Pods.getBasicAuthForRegistry Sample.collaborators Sample.validator
              "registry.example.com" "default" [mkLocalObjectReference "missing"])
     = ("", Some "couldn't get secret named missing by not found").
Proof. by vm_compute. Qed.

(** C5 on the sample: after a whitelisted container, the container of a
    registry without policy is rejected, and the container of a registry
    whose policy has the sign check off is accepted without a call of the
    notary client. *)
Lemma addDigestWhenImageValid_policy_decision_witness :
  value (Pods.addDigestWhenImageValid Sample.collaborators Sample.validator
           [Sample.container_pause; Sample.container_db] "default" [])
  = ([Sample.container_pause; Sample.container_db],
     (false,
      "Image 'unknown.example.com/db:3' does not meet registry security policy. Please check the RegistrySecurityPolicy",
      None))
  /\ value (Pods.addDigestWhenImageValid Sample.collaborators Sample.validator
              [Sample.container_pause; Sample.container_web] "default" [])
     = ([Sample.container_pause; Sample.container_web], (true, "", None)).
Proof.
  split.
  - apply (addDigestWhenImageValid_policy_decision Sample.collaborators Sample.validator
             [Sample.container_pause] [] Sample.container_db "default" []
             (Pods.mkImageRef "unknown.example.com" "db" "3" "") "");
      [by repeat constructor|by vm_compute|reflexivity..].
  - apply (addDigestWhenImageValid_policy_decision Sample.collaborators Sample.validator
             [Sample.container_pause] [] Sample.container_web "default" []
             (Pods.mkImageRef "plain.example.com" "web" "1" "") "");
      [by repeat constructor|by vm_compute|reflexivity..].
Defined.

(** C5 as the spec has it fails: the image of this container is not
    whitelisted and no policy matches its host, yet the run is not a
    rejection with a reason: the pull secret of the pod cannot be read and
    the run returns that error with an empty reason. *)
Lemma addDigestWhenImageValid_no_policy_but_error :
  Pods.IsImageWhiteListed (Pods.whiteList Sample.validator)
    (Image Sample.container_db) = false
  /\ fst (Pods.doesMatchPolicy (Pods.registryPolicyCache Sample.validator)
            "unknown.example.com" "default") = false
  /\ value (Pods.addDigestWhenImageValid Sample.collaborators Sample.validator
              [Sample.container_db] "default" [mkLocalObjectReference "missing"])
     = ([Sample.container_db],
        (false, "", Some "couldn't get secret named missing by not found")).
Proof. by vm_compute. Qed.

(** C6 on the sample: the notary has no trust data for the tool image, and
    the notary of the job image cannot be reached; the pod whose init
    container is the signed application and whose container is the job image
    ends with the error of the notary. *)
Lemma addDigestWhenImageValid_fetch_nil_or_error_witness :
  value (Pods.addDigestWhenImageValid Sample.collaborators Sample.validator
           [Sample.container_tool] "default" [])
  = ([Sample.container_tool],
     (false, "Image 'registry.example.com/tool:v9' is not signed", None))
  /\ value (Pods.addDigestWhenImageValid Sample.collaborators Sample.validator
              [Sample.container_job] "default" [])
     = ([Sample.container_job], (false, "", Some "notary server is unreachable"))
  /\ snd (value (Pods.CheckIsValidAndAddDigest Sample.collaborators Sample.validator
                   (mkPod "default"
                      (mkPodSpec [Sample.container_app] [Sample.container_job] []))))
     = (false, "", Some "notary server is unreachable").
Proof.
  split; [|split].
  - apply (proj1 (addDigestWhenImageValid_fetch_nil_or_error Sample.collaborators
                    Sample.validator "registry.example.com/tool:v9" ""
                    "https://notary.example.com")
             [Sample.container_tool] "default" []).
    + vm_compute. constructor.
    + reflexivity.
  - apply (proj1 (addDigestWhenImageValid_fetch_nil_or_error Sample.collaborators
                    Sample.validator "down.example.com/job:2" ""
                    "https://notary.down.example.com")
             [Sample.container_job] "default" []).
    + vm_compute. constructor.
    + reflexivity.
  - apply (proj2 (addDigestWhenImageValid_fetch_nil_or_error Sample.collaborators
                    Sample.validator "down.example.com/job:2" ""
                    "https://notary.down.example.com")
             (mkPod "default"
                (mkPodSpec [Sample.container_app] [Sample.container_job] []))).
    + apply list_elem_of_In. vm_compute. tauto.
    + reflexivity.
Defined.

(** The digest check on the sample: the pinned image carries the digest
    [fff000], the signature of its tag has [abc123]. *)
Lemma addDigestWhenImageValid_digest_mismatch_witness :
  value (Pods.addDigestWhenImageValid Sample.collaborators Sample.validator
           [Sample.container_pinned] "default" [])
  = ([Sample.container_pinned],
     (false,
      "Image 'registry.example.com/app:v1@sha256:fff000''s digest is different from the signed digest",
      None)).
Proof.
  apply (proj1 (addDigestWhenImageValid_digest_mismatch Sample.collaborators
                  Sample.validator [Sample.container_pinned] "default" [])
           "registry.example.com/app:v1@sha256:fff000" "" "https://notary.example.com"
           Sample.signature_app
           (Pods.mkImageRef "registry.example.com" "app" "v1" "fff000")).
  - vm_compute. constructor.
  - reflexivity.
  - reflexivity.
  - discriminate.
  - discriminate.
Defined.

(** On the sample, a signed image without digest is accepted and its image
    is rewritten with the signed digest. *)
Example addDigestWhenImageValid_rewrites :
  value (Pods.addDigestWhenImageValid Sample.collaborators Sample.validator
           [Sample.container_pause; Sample.container_app] "default" [])
  = ([Sample.container_pause;
      mkContainer "app" "registry.example.com/app:v1@sha256:abc123"],
     (true, "", None)).
Proof. by vm_compute. Qed.

(** C1 on the sample: the first container of the pod belongs to a registry
    whose policy asks for no signature, the second one to a registry without
    policy. Alone, the second container is rejected; in the pod it is never
    evaluated, and the pod is accepted. *)
Theorem CheckIsValidAndAddDigest_returns_at_first_container :
  let pod :=
    mkPod "default" (mkPodSpec [] [Sample.container_web; Sample.container_db] []) in
  value (Pods.CheckIsValidAndAddDigest Sample.collaborators Sample.validator pod)
  = (pod, (true, "", None))
  /\ value (Pods.addDigestWhenImageValid Sample.collaborators Sample.validator
              [Sample.container_db] "default" [])
     = ([Sample.container_db],
        (false,
         "Image 'unknown.example.com/db:3' does not meet registry security policy. Please check the RegistrySecurityPolicy",
         None)).
Proof. by vm_compute. Qed.

(** C7 on the sample: the second container of the pod pins the digest
    [fff000] while the signature of its tag has [abc123]. Alone, that
    container is rejected for its digest; in the pod, behind a container that
    is accepted, it is never evaluated: the notary client is asked for the
    first image only, the pod is accepted and the pinned image stays in it. *)
Theorem CheckIsValidAndAddDigest_accepts_mismatching_digest :
  let pod :=
    mkPod "default" (mkPodSpec [] [Sample.container_app; Sample.container_pinned] []) in
  Pods.CheckIsValidAndAddDigest Sample.collaborators Sample.validator pod
  = ((mkPod "default"
        (mkPodSpec []
           [mkContainer "app" "registry.example.com/app:v1@sha256:abc123";
            Sample.container_pinned] []),
      (true, "", None)),
     [FetchSignature "registry.example.com/app:v1" "" "https://notary.example.com"])
  /\ value (Pods.addDigestWhenImageValid Sample.collaborators Sample.validator
              [Sample.container_pinned] "default" [])
     = ([Sample.container_pinned],
        (false,
         "Image 'registry.example.com/app:v1@sha256:fff000''s digest is different from the signed digest",
         None)).
Proof. by vm_compute. Qed.

(** ** Signer policies: the validator and the legacy handler *)

(** C3, as the code has it. In the validator, a run that has asked the
    notary client and got a signature looks up no signer key: the container
    is rejected only when its reference carries a digest that differs from
    the signed one, and is accepted and rewritten otherwise. In the legacy
    handler, when the inspection output decodes and the signer-policy matcher
    finds no match, [isSignedImage] returns [(false, "")], and the matcher
    finds no match on the empty signature list, so an image without
    signatures gets the same result. *)
Theorem signature_accepted_without_signer_policy :
  (forall (env : Pods.Collaborators) (h : Pods.validator) (containers : list Container)
          (namespace : string) (pullSecrets : list LocalObjectReference)
          (image basicAuth notaryURL : string) (sig : Pods.Signature env),
     let r := Pods.addDigestWhenImageValid env h containers namespace pullSecrets in
     FetchSignature image basicAuth notaryURL ∈ trace r ->
     Pods.FetchSignature_answer env image basicAuth notaryURL = Ok (Some sig) ->
     (forall signerName, GetSignerKey signerName ∉ trace r)
     /\ exists i c ref,
          containers !! i = Some c /\ Image c = image
          /\ Pods.parseImage env image = Ok ref
          /\ value r
             = let d := Pods.GetDigest env sig (Pods.tag ref) in
               if bool_decide (Pods.digest ref <> "") && bool_decide (Pods.digest ref <> d)
               then (containers,
                     (false,
                      "Image '" +:+ image
                      +:+ "''s digest is different from the signed digest",
                      None))
               else (<[i := setImage c (Pods.imageRef_String env (Pods.setDigest ref d))]>
                       containers,
                     (true, "", None)))
  /\ (forall (dindContainer dindNamespace : string)
             (getSignatures : string -> result (list Legacy.Signature))
             (getRepoAdminKey : Legacy.Signature -> string)
             (h : Legacy.DockerHandler) (image : string)
             (signatures : list Legacy.Signature),
        (0 < String.length (inspectionOutput dindContainer dindNamespace h image))%nat ->
        getSignatures (inspectionOutput dindContainer dindNamespace h image)
        = Ok signatures ->
        value (Legacy.hasMatchedSigner getRepoAdminKey h signatures) = false ->
        value (Legacy.isSignedImage dindContainer dindNamespace getSignatures
                                    getRepoAdminKey h image)
        = Returns (false, ""))
  /\ (forall (getRepoAdminKey : Legacy.Signature -> string) (h : Legacy.DockerHandler),
        value (Legacy.hasMatchedSigner getRepoAdminKey h []) = false).
Proof.
  split; [|split].
  - intros env h containers namespace pullSecrets image basicAuth notaryURL sig r Hin Hans.
    split.
    + intros signerName Hs.
      by destruct (addDigestWhenImageValid_events _ _ _ _ _ _ Hs)
        as [[? ?]|(? & ? & ? & ?)].
    + destruct (addDigestWhenImageValid_fetch_inv _ _ _ _ _ _ _ _ Hin)
        as (i & c & ref & Hlook & <- & Hparse & Hval).
      exists i, c, ref. repeat split; try done.
      subst r. by rewrite Hval, Hans.
  - intros. by apply isSignedImage_unmatched with (signatures := signatures).
  - intros getRepoAdminKey h. unfold Legacy.hasMatchedSigner.
    by destruct (bool_decide _).
Qed.

(** C3 on the sample: the validator accepts the signed application image,
    and the legacy handler, whose policy names [alice], rejects it. *)
Lemma signature_accepted_without_signer_policy_witness :
  (exists i c ref,
     [Sample.container_app] !! i = Some c
     /\ Image c = "registry.example.com/app:v1"
     /\ Pods.parseImage Sample.collaborators "registry.example.com/app:v1" = Ok ref
     /\ value (Pods.addDigestWhenImageValid Sample.collaborators Sample.validator
                 [Sample.container_app] "default" [])
        = let d := Pods.GetDigest Sample.collaborators Sample.signature_app
                     (Pods.tag ref) in
          if bool_decide (Pods.digest ref <> "") && bool_decide (Pods.digest ref <> d)
          then ([Sample.container_app],
                (false,
                 "Image '" +:+ "registry.example.com/app:v1"
                 +:+ "''s digest is different from the signed digest",
                 None))
          else (<[i := setImage c
                         (Pods.imageRef_String Sample.collaborators
                            (Pods.setDigest ref d))]> [Sample.container_app],
                (true, "", None)))
  /\ value (Legacy.isSignedImage "dind" "registry-system" Sample.decodeSignatures
              Sample.repoAdminKey Sample.handler "registry.example.com/app:v1")
     = Returns (false, "").
Proof.
  destruct signature_accepted_without_signer_policy as (H1 & H2 & _).
  split.
  - apply (H1 Sample.collaborators Sample.validator [Sample.container_app] "default" []
              "registry.example.com/app:v1" "" "https://notary.example.com"
              Sample.signature_app).
    + vm_compute. constructor.
    + reflexivity.
  - apply (H2 "dind" "registry-system" Sample.decodeSignatures Sample.repoAdminKey
              Sample.handler "registry.example.com/app:v1" [Sample.signature_app]).
    + vm_compute. lia.
    + reflexivity.
    + reflexivity.
Defined.

(** C3 as the spec has it fails: the policy of the sample namespace names
    the signer [alice], whose key is not the repository-admin key of the
    application's signature, so the signer-policy matcher finds no match on
    that signature; the validator, for which the notary client returns this
    very signature, accepts the container and rewrites its image. *)
Lemma validator_accepts_unauthorized_signer :
  Pods.FetchSignature_answer Sample.collaborators "registry.example.com/app:v1" ""
    "https://notary.example.com" = Ok (Some Sample.signature_app)
  /\ Legacy.hasMatchedSigner Sample.repoAdminKey Sample.handler [Sample.signature_app]
     = (false, [GetSignerKey "alice"])
  /\ Pods.addDigestWhenImageValid Sample.collaborators Sample.validator
       [Sample.container_app] "default" []
     = (([mkContainer "app" "registry.example.com/app:v1@sha256:abc123"],
         (true, "", None)),
        [FetchSignature "registry.example.com/app:v1" "" "https://notary.example.com"]).
Proof. by vm_compute. Qed.

(** C4 on the sample: the handler without policy records accepts the signed
    image and rejects an empty list without any lookup; the handler whose
    policy names [alice] accepts a signature exactly when its
    repository-admin key is a key of [alice], and its requests are as the
    theorem says; and the handler made for the sample pod has the policy
    records of the namespace [default]. *)
Lemma hasMatchedSigner_decides_witness :
  Legacy.hasMatchedSigner Sample.repoAdminKey Sample.handler_no_policy
    [Sample.signature_app] = ret true
  /\ Legacy.hasMatchedSigner Sample.repoAdminKey Sample.handler [] = ret false
  /\ ((value (Legacy.hasMatchedSigner Sample.repoAdminKey Sample.handler_policies
                [Sample.signature_alice]) = true
       <-> authorizedKey Sample.handler_policies
             (Sample.repoAdminKey Sample.signature_alice))
      /\ exists visited,
           trace (Legacy.hasMatchedSigner Sample.repoAdminKey Sample.handler_policies
                    [Sample.signature_alice]) = GetSignerKey <$> visited
           /\ visited `prefix_of` policySignerNames Sample.handler_policies
           /\ (value (Legacy.hasMatchedSigner Sample.repoAdminKey Sample.handler_policies
                        [Sample.signature_alice]) = false ->
               visited = policySignerNames Sample.handler_policies)
           /\ (value (Legacy.hasMatchedSigner Sample.repoAdminKey Sample.handler_policies
                        [Sample.signature_alice]) = true ->
               exists pre n,
                 visited = pre ++ [n]
                 /\ Forall (fun m => ~ holdsKey Sample.handler_policies
                                       (Sample.repoAdminKey Sample.signature_alice) m) pre
                 /\ holdsKey Sample.handler_policies
                      (Sample.repoAdminKey Sample.signature_alice) n))
  /\ Legacy.signerpolicies Sample.cluster (Namespace Sample.pod_app)
     = Ok (Legacy.signerPolicies Sample.handler).
Proof.
  split; [|split; [|split]].
  - apply (proj1 (hasMatchedSigner_decides Sample.repoAdminKey Sample.handler_no_policy
                    [Sample.signature_app])).
    reflexivity.
  - apply (proj1 (proj2 (hasMatchedSigner_decides Sample.repoAdminKey Sample.handler []))).
    reflexivity.
  - apply (proj1 (proj2 (proj2 (hasMatchedSigner_decides Sample.repoAdminKey
                                  Sample.handler_policies [Sample.signature_alice])))
             Sample.signature_alice []).
    + discriminate.
    + reflexivity.
  - apply (proj2 (proj2 (proj2 (hasMatchedSigner_decides Sample.repoAdminKey
                                  Sample.handler [])))
             "registry-system" "dind" (fun _ => Ok (Legacy.mkWhiteList [] []))
             Sample.cluster Sample.pod_app Sample.handler).
    reflexivity.
Defined.

(** The two checks of the sample, run: the accepting check asks for
    [mallory] and [alice] and never for [zed]; the rejecting check asks for
    every name; and a check run twice asks twice. *)
Example hasMatchedSigner_sample :
  Legacy.hasMatchedSigner Sample.repoAdminKey Sample.handler_policies
    [Sample.signature_alice]
  = (true, [GetSignerKey "mallory"; GetSignerKey "alice"])
  /\ Legacy.hasMatchedSigner Sample.repoAdminKey Sample.handler_policies
       [Sample.signature_app]
     = (false, [GetSignerKey "mallory"; GetSignerKey "alice"; GetSignerKey "zed"])
  /\ trace (_ <- Legacy.hasMatchedSigner Sample.repoAdminKey Sample.handler_policies
                   [Sample.signature_alice] ;;
            Legacy.hasMatchedSigner Sample.repoAdminKey Sample.handler_policies
              [Sample.signature_alice])
     = [GetSignerKey "mallory"; GetSignerKey "alice";
        GetSignerKey "mallory"; GetSignerKey "alice"].
Proof. repeat split; vm_compute; reflexivity. Qed.

(** C10 on the sample: the handler without policy records reads the digest
    of the signed image; no call ends in an index out of range. *)
Lemma getDigest_index_in_bounds_witness :
  (exists signatures,
     Sample.decodeSignatures
       (inspectionOutput "dind" "registry-system" Sample.handler_no_policy
          "registry.example.com/app:v1") = Ok signatures
     /\ value (Legacy.hasMatchedSigner Sample.repoAdminKey Sample.handler_no_policy
                 signatures) = true
     /\ Legacy.getDigest "registry.example.com/app:v1" signatures = Returns "abc123").
Proof.
  apply (proj1 (proj2 (getDigest_index_in_bounds "dind" "registry-system"
                         Sample.decodeSignatures Sample.repoAdminKey
                         Sample.handler_no_policy "registry.example.com/app:v1"))
           true "abc123").
  - reflexivity.
  - reflexivity.
Defined.

(** ** The reduction of notary metadata *)

Section TrustFacts.

Variable NaturalLess : string -> string -> bool.

(** A role that is not released is named by its path without prefix. *)
Lemma notaryRoleToSigner_delegated (role : string) :
  Trust.isReleasedTarget role = false ->
  Trust.notaryRoleToSigner role = GoStrings.TrimPrefix role "targets/".
Proof. intros H. unfold Trust.notaryRoleToSigner. by rewrite H. Qed.

(** The first pass leaves an empty row at the keys of the released targets
    and nothing at the other keys. *)
Lemma releasedRows_fold_lookup (allTargets : list Trust.TargetSignedStruct)
    (rows : gmap Trust.trustTagKey (list string)) (k : Trust.trustTagKey) :
  fold_left
    (fun rows tgt =>
       if Trust.isReleasedTarget (Trust.TargetRole tgt)
       then <[Trust.targetKey tgt := []]> rows else rows)
    allTargets rows !! k
  = if existsb (fun tgt => Trust.isReleasedTarget (Trust.TargetRole tgt)
                           && bool_decide (Trust.targetKey tgt = k)) allTargets
    then Some [] else rows !! k.
Proof.
  revert rows. induction allTargets as [|tgt rest IH]; intros rows; [reflexivity|].
  cbn [fold_left existsb]. rewrite IH.
  destruct (existsb _ rest); [by rewrite orb_true_r|]. rewrite orb_false_r.
  destruct (Trust.isReleasedTarget (Trust.TargetRole tgt)); [|reflexivity].
  rewrite lookup_insert. cbn [andb].
  case_decide; [by rewrite bool_decide_eq_true_2|by rewrite bool_decide_eq_false_2].
Qed.

Lemma releasedRows_lookup (allTargets : list Trust.TargetSignedStruct)
    (k : Trust.trustTagKey) :
  Trust.releasedRows allTargets !! k
  = if existsb (fun tgt => Trust.isReleasedTarget (Trust.TargetRole tgt)
                           && bool_decide (Trust.targetKey tgt = k)) allTargets
    then Some [] else None.
Proof. unfold Trust.releasedRows. by rewrite releasedRows_fold_lookup, lookup_empty. Qed.

(** The second pass appends to every row the delegated signers of its key. *)
Lemma fillSigners_lookup (allTargets : list Trust.TargetSignedStruct)
    (rows : gmap Trust.trustTagKey (list string)) (k : Trust.trustTagKey) :
  Trust.fillSigners allTargets rows !! k
  = (fun signers => signers ++ delegatedSigners allTargets k) <$> rows !! k.
Proof.
  unfold Trust.fillSigners, delegatedSigners.
  revert rows. induction allTargets as [|tgt rest IH]; intros rows.
  - cbn. destruct (rows !! k); cbn; [by rewrite app_nil_r|done].
  - cbn [fold_left List.filter]. rewrite IH.
    destruct (Trust.isReleasedTarget (Trust.TargetRole tgt)) eqn:Hrel; cbn [negb].
    + rewrite andb_false_r. by destruct (rows !! Trust.targetKey tgt).
    + rewrite andb_true_r.
      destruct (rows !! Trust.targetKey tgt) as [signers|] eqn:Hk.
      * rewrite lookup_insert. case_decide as Heq.
        -- subst k. rewrite Hk, bool_decide_eq_true_2 by done. cbn.
           rewrite notaryRoleToSigner_delegated by done.
           by rewrite <- app_assoc.
        -- by rewrite bool_decide_eq_false_2.
      * case_bool_decide as Heq; [|done]. subst k. by rewrite Hk.
Qed.

(** The rows of [matchReleasedSignatures]: one for every key of a released
    target, with the delegated signers of that key. *)
Lemma matchReleasedSignatures_rows (allTargets : list Trust.TargetSignedStruct)
    (row : Trust.trustTagRow) :
  row ∈ Trust.matchReleasedSignatures NaturalLess allTargets
  <-> existsb (fun tgt => Trust.isReleasedTarget (Trust.TargetRole tgt)
                          && bool_decide (Trust.targetKey tgt = Trust.Key row))
              allTargets = true
      /\ Trust.RowSigners row = delegatedSigners allTargets (Trust.Key row).
Proof.
  unfold Trust.matchReleasedSignatures, Trust.sortRows.
  rewrite merge_sort_Permutation, list_elem_of_In, in_map_iff. split.
  - intros ([k signers] & <- & Hin). cbn [fst snd Trust.Key Trust.RowSigners].
    apply list_elem_of_In, elem_of_map_to_list in Hin.
    rewrite fillSigners_lookup, releasedRows_lookup in Hin.
    destruct (existsb _ allTargets); [|done]. by injection Hin as <-.
  - intros [Hex Hs]. exists (Trust.Key row, Trust.RowSigners row). split.
    + by destruct row.
    + apply list_elem_of_In, elem_of_map_to_list.
      rewrite fillSigners_lookup, releasedRows_lookup, Hex. cbn. by rewrite Hs.
Qed.

(** The entries of [getDelegationRoleToKeyMap] come from roles that are not
    skipped. *)
Lemma getDelegationRoleToKeyMap_fold_Some (roles : list Trust.Role)
    (m : gmap string (list string)) (signerName : string) (keys : list string) :
  fold_left
    (fun signerRoleToKeyIDs delRole =>
       if skippedRole delRole then signerRoleToKeyIDs
       else <[Trust.notaryRoleToSigner (Trust.RoleName delRole) := Trust.KeyIDs delRole]>
              signerRoleToKeyIDs)
    roles m !! signerName = Some keys ->
  (exists role,
     role ∈ roles /\ skippedRole role = false
     /\ Trust.notaryRoleToSigner (Trust.RoleName role) = signerName
     /\ Trust.KeyIDs role = keys)
  \/ m !! signerName = Some keys.
Proof.
  revert m. induction roles as [|role rest IH]; intros m; [by right|].
  cbn [fold_left]. intros [(r & Hr & Hs)|Hm]%IH.
  - left. exists r. split; [by right|done].
  - destruct (skippedRole role) eqn:Hskip; [by right|].
    apply lookup_insert_Some in Hm as [[Hn Hk]|[_ Hm]]; [|by right].
    left. exists role. split; [by left|done].
Qed.

(** Every role that is not skipped has an entry under its signer name. *)
Lemma getDelegationRoleToKeyMap_fold_is_Some (roles : list Trust.Role)
    (m : gmap string (list string)) (signerName : string) :
  is_Some (m !! signerName)
  \/ (exists role, role ∈ roles /\ skippedRole role = false
                   /\ Trust.notaryRoleToSigner (Trust.RoleName role) = signerName) ->
  is_Some
    (fold_left
       (fun signerRoleToKeyIDs delRole =>
          if skippedRole delRole then signerRoleToKeyIDs
          else <[Trust.notaryRoleToSigner (Trust.RoleName delRole) := Trust.KeyIDs delRole]>
                 signerRoleToKeyIDs)
       roles m !! signerName).
Proof.
  revert m. induction roles as [|role rest IH]; intros m.
  - intros [H|(r & Hr & _)]; [done|by apply elem_of_nil in Hr].
  - cbn [fold_left]. intros [H|(r & Hr & Hs & Hn)]; apply IH.
    + left. destruct (skippedRole role); [done|].
      apply lookup_insert_is_Some.
      destruct (decide (Trust.notaryRoleToSigner (Trust.RoleName role) = signerName));
        [by left|by right].
    + apply elem_of_cons in Hr as [->|Hr].
      * left. rewrite Hs, <- Hn. by rewrite lookup_insert_eq.
      * right. by exists r.
Qed.

Lemma skippedRole_false (role : Trust.Role) :
  skippedRole role = false ->
  Trust.RoleName role <> Trust.CanonicalTargetsRole
  /\ Trust.RoleName role <> Trust.ReleasesRole
  /\ Trust.isReleasedTarget (Trust.RoleName role) = false.
Proof.
  unfold skippedRole, Trust.isReleasedTarget.
  repeat case_bool_decide; cbn; done.
Qed.

(** The rows after the repo admin was included. *)
Lemma addRepoAdmin_rows (rows : list Trust.trustTagRow) (row : Trust.trustTagRow) :
  row ∈ Trust.addRepoAdmin rows
  <-> exists row0,
        row0 ∈ rows /\ Trust.Key row = Trust.Key row0
        /\ Trust.RowSigners row
           = match Trust.RowSigners row0 with
             | [] => [Trust.releasedRoleName]
             | _ :: _ => Trust.RowSigners row0
             end.
Proof.
  unfold Trust.addRepoAdmin. rewrite list_elem_of_In, in_map_iff. split.
  - intros (row0 & <- & Hin). exists row0. split; [by apply list_elem_of_In|].
    by destruct row0 as [k [|s signers]].
  - intros (row0 & Hin & Hk & Hs). exists row0. split; [|by apply list_elem_of_In].
    destruct row as [k signers], row0 as [k0 [|s0 signers0]]; cbn in *; by subst.
Qed.

(** The signer list: one entry for every entry of the role map. *)
Lemma signerList_entries (m : gmap string (list string)) (signer : Trust.trustSigner) :
  signer ∈ Trust.sortSigners
             (List.map (fun kv => Trust.mkTrustSigner (fst kv)
                                    (List.map Trust.mkTrustKey (snd kv)))
                       (map_to_list m))
  <-> exists keys,
        m !! Trust.Name signer = Some keys
        /\ Trust.Keys signer = List.map Trust.mkTrustKey keys.
Proof.
  unfold Trust.sortSigners.
  rewrite merge_sort_Permutation, list_elem_of_In, in_map_iff. split.
  - intros ([signerName keys] & <- & Hin). exists keys.
    by apply list_elem_of_In, elem_of_map_to_list in Hin.
  - intros (keys & Hm & Hk). exists (Trust.Name signer, keys). split.
    + destruct signer; cbn in *; by subst.
    + by apply list_elem_of_In, elem_of_map_to_list.
Qed.

(** C8: in the summary that [GetSignedMetadata] returns, every signed-tag row
    belongs to a key signed into "targets" or "targets/releases"; a row
    without delegated signer lists "Repo Admin" alone, any other row lists
    its delegated signers, each the role path without its "targets/" prefix;
    every entry of the signer list comes from a delegation role that is
    neither "targets" nor "targets/releases", under that role's path without
    the prefix and with that role's keys; and when the metadata was read
    without error, every delegation role that is not skipped has its entry
    and every released target has its row. *)
Theorem GetSignedMetadata_signers (n : Trust.notaryRepo) (tag : string) :
  let summary := fst (Trust.GetSignedMetadata NaturalLess n tag) in
  let allTargets := signedTargets n tag in
  let delegationRoles := fst (Trust.GetDelegationRoles (Trust.repo n)) in
  (forall row,
     row ∈ Trust.SignedTags summary ->
     (exists tgt,
        tgt ∈ allTargets /\ Trust.isReleasedTarget (Trust.TargetRole tgt) = true
        /\ Trust.targetKey tgt = Trust.Key row)
     /\ (delegatedSigners allTargets (Trust.Key row) = [] ->
         Trust.RowSigners row = [Trust.releasedRoleName])
     /\ (delegatedSigners allTargets (Trust.Key row) <> [] ->
         Trust.RowSigners row = delegatedSigners allTargets (Trust.Key row)))
  /\ (forall signer,
        signer ∈ Trust.Signers summary ->
        exists role,
          role ∈ delegationRoles
          /\ Trust.RoleName role <> Trust.CanonicalTargetsRole
          /\ Trust.RoleName role <> Trust.ReleasesRole
          /\ Trust.Name signer = GoStrings.TrimPrefix (Trust.RoleName role) "targets/"
          /\ Trust.Keys signer = List.map Trust.mkTrustKey (Trust.KeyIDs role))
  /\ (snd (Trust.GetSignedMetadata NaturalLess n tag) = None ->
      (forall role,
         role ∈ delegationRoles -> skippedRole role = false ->
         exists signer,
           signer ∈ Trust.Signers summary
           /\ Trust.Name signer = GoStrings.TrimPrefix (Trust.RoleName role) "targets/")
      /\ (forall tgt,
            tgt ∈ allTargets -> Trust.isReleasedTarget (Trust.TargetRole tgt) = true ->
            exists row,
              row ∈ Trust.SignedTags summary /\ Trust.Key row = Trust.targetKey tgt)).
Proof.
  cbv zeta. unfold Trust.GetSignedMetadata, signedTargets.
  destruct (Trust.GetAllTargetMetadataByName (Trust.repo n) tag) as [allTargets|err].
  2:{ cbn. split; [by intros row ?%elem_of_nil|]. split; [by intros s ?%elem_of_nil|done]. }
  destruct (Trust.ListRoles (Trust.repo n)) as [adminRoles|err].
  2:{ cbn. split; [by intros row ?%elem_of_nil|]. split; [by intros s ?%elem_of_nil|done]. }
  cbn [fst snd Trust.SignedTags Trust.Signers]. split; [|split].
  - intros row (row0 & [Hex Hs]%matchReleasedSignatures_rows & Hk & Hr)%addRepoAdmin_rows.
    rewrite Hk, <- Hs. split; [|split].
    + apply existsb_exists in Hex as (tgt & Hin & [Hrel Hkey]%andb_prop).
      exists tgt. split; [by apply list_elem_of_In|].
      by apply bool_decide_eq_true in Hkey.
    + intros Hnil. by rewrite Hr, Hnil.
    + intros Hne. rewrite Hr. by destruct (Trust.RowSigners row0).
  - intros signer (keys & Hm & Hkeys)%signerList_entries.
    apply getDelegationRoleToKeyMap_fold_Some in Hm
      as [(role & Hin & Hskip & Hname & Hk)|Hm]; [|by rewrite lookup_empty in Hm].
    destruct (skippedRole_false role Hskip) as (H1 & H2 & H3).
    exists role. repeat split; try done.
    + by rewrite <- Hname, notaryRoleToSigner_delegated.
    + by rewrite Hkeys, Hk.
  - intros _. split.
    + intros role Hin Hskip.
      destruct (getDelegationRoleToKeyMap_fold_is_Some
                  (fst (Trust.GetDelegationRoles (Trust.repo n))) ∅
                  (Trust.notaryRoleToSigner (Trust.RoleName role))) as [keys Hm].
      { right. by exists role. }
      exists (Trust.mkTrustSigner (Trust.notaryRoleToSigner (Trust.RoleName role))
                (List.map Trust.mkTrustKey keys)).
      split.
      * apply signerList_entries. by exists keys.
      * destruct (skippedRole_false role Hskip) as (_ & _ & H3).
        by apply notaryRoleToSigner_delegated.
    + intros tgt Hin Hrel.
      set (row0 := Trust.mkTrustTagRow (Trust.targetKey tgt)
                     (delegatedSigners allTargets (Trust.targetKey tgt))).
      exists (Trust.mkTrustTagRow (Trust.targetKey tgt)
                match Trust.RowSigners row0 with
                | [] => [Trust.releasedRoleName]
                | _ :: _ => Trust.RowSigners row0
                end).
      split; [|done]. apply addRepoAdmin_rows. exists row0. split; [|done].
      apply matchReleasedSignatures_rows. split; [|done].
      apply existsb_exists. exists tgt. split; [by apply list_elem_of_In|].
      cbn. by rewrite Hrel, bool_decide_eq_true_2.
Qed.

End TrustFacts.

(** C8 on the sample repository: the row of tag [v2], signed through the
    releases role only, lists "Repo Admin"; the row of tag [v1] lists
    [alice]; the signer [bob] comes from the role "targets/bob". *)
Lemma GetSignedMetadata_signers_witness :
  Trust.RowSigners
    (Trust.mkTrustTagRow (Trust.mkTrustTagKey "v2" "0f") ["Repo Admin"])
  = [Trust.releasedRoleName]
  /\ Trust.RowSigners (Trust.mkTrustTagRow (Trust.mkTrustTagKey "v1" "abc1") ["alice"])
     = delegatedSigners (signedTargets Sample.notaryRepo "v1")
         (Trust.mkTrustTagKey "v1" "abc1")
  /\ exists role,
       role ∈ fst (Trust.GetDelegationRoles (Trust.repo Sample.notaryRepo))
       /\ Trust.RoleName role <> Trust.CanonicalTargetsRole
       /\ Trust.RoleName role <> Trust.ReleasesRole
       /\ Trust.Name (Trust.mkTrustSigner "bob" [Trust.mkTrustKey "key-bob"])
          = GoStrings.TrimPrefix (Trust.RoleName role) "targets/"
       /\ Trust.Keys (Trust.mkTrustSigner "bob" [Trust.mkTrustKey "key-bob"])
          = List.map Trust.mkTrustKey (Trust.KeyIDs role).
Proof.
  destruct (GetSignedMetadata_signers String.ltb Sample.notaryRepo "v1") as (H1 & H2 & _).
  split; [|split].
  - apply (H1 (Trust.mkTrustTagRow (Trust.mkTrustTagKey "v2" "0f") ["Repo Admin"])).
    + apply list_elem_of_In. vm_compute. tauto.
    + reflexivity.
  - apply (H1 (Trust.mkTrustTagRow (Trust.mkTrustTagKey "v1" "abc1") ["alice"])).
    + apply list_elem_of_In. vm_compute. tauto.
    + discriminate.
  - apply (H2 (Trust.mkTrustSigner "bob" [Trust.mkTrustKey "key-bob"])).
    apply list_elem_of_In. vm_compute. tauto.
Defined.

(** The summary of the sample repository. *)
Example GetSignedMetadata_sample :
  Trust.GetSignedMetadata String.ltb Sample.notaryRepo "v1"
  = (Trust.mkTrustRepo "registry.example.com/app"
       [Trust.mkTrustTagRow (Trust.mkTrustTagKey "v1" "abc1") ["alice"];
        Trust.mkTrustTagRow (Trust.mkTrustTagKey "v2" "0f") ["Repo Admin"]]
       [Trust.mkTrustSigner "bob" [Trust.mkTrustKey "key-bob"];
        Trust.mkTrustSigner "alice" [Trust.mkTrustKey "key-alice"]]
       [Trust.mkTrustSigner "Root" [Trust.mkTrustKey "key-root"];
        Trust.mkTrustSigner "Repository" [Trust.mkTrustKey "key-repo"]],
     None).
Proof. by vm_compute. Qed.

(** * Further properties of the code *)

(** ** Strings with a one-byte separator *)

Section OneByte.

Variable c0 : Ascii.ascii.

Local Abbreviation sep := (String c0 EmptyString).

Lemma prefix_empty (s : string) : String.prefix "" s = true.
Proof. by destruct s. Qed.

Lemma append_nil_r (s : string) : s +:+ "" = s.
Proof. induction s as [|c s IH]; [done|]. by rewrite append_cons_l, IH. Qed.

Lemma append_assoc_string (a b c : string) : (a +:+ b) +:+ c = a +:+ b +:+ c.
Proof. induction a as [|x a IH]; [done|]. by rewrite !append_cons_l, IH. Qed.

Lemma HasPrefix_one_byte (c : Ascii.ascii) (s : string) :
  GoStrings.HasPrefix (String c s) sep = bool_decide (c0 = c).
Proof.
  unfold GoStrings.HasPrefix. cbn [String.prefix].
  destruct (Ascii.ascii_dec c0 c) as [->|Hne].
  - by rewrite prefix_empty, bool_decide_eq_true_2.
  - by rewrite bool_decide_eq_false_2.
Qed.

Lemma Contains_one_byte_app (a b : string) :
  GoStrings.Contains (a +:+ b) sep = GoStrings.Contains a sep || GoStrings.Contains b sep.
Proof.
  induction a as [|c a IH]; [done|].
  rewrite append_cons_l. cbn [GoStrings.Contains].
  by rewrite !HasPrefix_one_byte, IH, orb_assoc.
Qed.

Lemma Contains_one_byte_sep : GoStrings.Contains sep sep = true.
Proof.
  cbn [GoStrings.Contains]. by rewrite HasPrefix_one_byte, bool_decide_eq_true_2.
Qed.

(** A string without the separator is one piece. *)
Lemma Split_aux_one_piece (s cur : string) :
  GoStrings.Contains s sep = false ->
  GoStrings.Split_aux s sep 0 cur = [cur +:+ s].
Proof.
  revert cur. induction s as [|c s IH]; intros cur.
  - intros _. by rewrite append_nil_r.
  - cbn [GoStrings.Contains GoStrings.Split_aux].
    intros [Hp Hs]%orb_false_elim. rewrite Hp, (IH _ Hs).
    by rewrite append_assoc_string.
Qed.

(** The first piece ends at the first separator. *)
Lemma Split_aux_first_piece (s rest cur : string) :
  GoStrings.Contains s sep = false ->
  GoStrings.Split_aux (s +:+ sep +:+ rest) sep 0 cur
  = (cur +:+ s) :: GoStrings.Split_aux rest sep 0 "".
Proof.
  revert cur. induction s as [|c s IH]; intros cur.
  - intros _. rewrite append_nil_l, append_cons_l, append_nil_l, append_nil_r.
    cbn [GoStrings.Split_aux String.length Nat.sub].
    by rewrite HasPrefix_one_byte, bool_decide_eq_true_2.
  - cbn [GoStrings.Contains]. intros [Hp Hs]%orb_false_elim.
    rewrite append_cons_l. cbn [GoStrings.Split_aux].
    rewrite HasPrefix_one_byte in Hp |- *. rewrite Hp, (IH _ Hs).
    by rewrite append_assoc_string.
Qed.

End OneByte.

(** ** [getImageInfo] on well-formed and on odd references *)

Lemma slice_from_after_separator (host rest : string) (c : Ascii.ascii) :
  GoStrings.slice_from (host +:+ String c rest) (S (String.length host)) = rest.
Proof.
  induction host as [|x host IH]; [rewrite append_nil_l; by destruct rest|].
  rewrite append_cons_l. cbn [GoStrings.slice_from String.length]. apply IH.
Qed.

(** The two halves that [getImageInfo] cuts at the last ["/"]. *)
Lemma getImageInfo_halves (host rest : string) :
  GoStrings.Contains rest "/" = false ->
  Legacy.getImageInfo (host +:+ "/" +:+ rest)
  = if GoStrings.Contains rest ":"
    then Legacy.mkImageInfo host (nth 0 (GoStrings.Split rest ":") "")
                            (nth 1 (GoStrings.Split rest ":") "")
    else Legacy.mkImageInfo host rest "latest".
Proof.
  intros Hrest. unfold Legacy.getImageInfo.
  rewrite Contains_separator, LastIndex_last_separator by done.
  rewrite Nat2Z.id, slice_to_app.
  replace (Z.to_nat (Z.of_nat (String.length host) + 1)) with (S (String.length host))
    by lia.
  rewrite append_cons_l, append_nil_l, slice_from_after_separator.
  by destruct (GoStrings.Contains rest ":").
Qed.

(** X1. A reference [host/name:tag] whose name and tag hold neither ["/"] nor
    [":"] is cut into its three parts, whatever the host is, and the parts
    put together again give the reference. *)
Theorem getImageInfo_round_trip (host nm tg : string) :
  GoStrings.Contains nm "/" = false -> GoStrings.Contains tg "/" = false ->
  GoStrings.Contains nm ":" = false -> GoStrings.Contains tg ":" = false ->
  let image := host +:+ "/" +:+ nm +:+ ":" +:+ tg in
  Legacy.getImageInfo image = Legacy.mkImageInfo host nm tg
  /\ Legacy.registry (Legacy.getImageInfo image) +:+ "/"
     +:+ Legacy.name (Legacy.getImageInfo image) +:+ ":"
     +:+ Legacy.tag (Legacy.getImageInfo image) = image.
Proof.
  intros Hn1 Ht1 Hn2 Ht2. cbv zeta.
  assert (Legacy.getImageInfo (host +:+ "/" +:+ nm +:+ ":" +:+ tg)
          = Legacy.mkImageInfo host nm tg) as ->; [|done].
  rewrite getImageInfo_halves.
  2:{ rewrite !Contains_one_byte_app, Hn1, Ht1. reflexivity. }
  rewrite !Contains_one_byte_app, Contains_one_byte_sep, orb_true_r. cbn [orb].
  unfold GoStrings.Split. rewrite Split_aux_first_piece by done.
  by rewrite Split_aux_one_piece.
Qed.

Lemma getImageInfo_round_trip_witness :
  Legacy.getImageInfo "myreg.example.com/team/app:v2"
  = Legacy.mkImageInfo "myreg.example.com/team" "app" "v2"
  /\ "myreg.example.com/team" +:+ "/" +:+ "app" +:+ ":" +:+ "v2"
     = "myreg.example.com/team/app:v2".
Proof.
  apply (getImageInfo_round_trip "myreg.example.com/team" "app" "v2"); reflexivity.
Defined.

(** X2. What follows a second [":"] is dropped: the reference
    [host/name:tag:extra] has the parts of [host/name:tag]. *)
Theorem getImageInfo_drops_after_second_colon (host nm tg extra : string) :
  GoStrings.Contains nm "/" = false -> GoStrings.Contains tg "/" = false ->
  GoStrings.Contains extra "/" = false ->
  GoStrings.Contains nm ":" = false -> GoStrings.Contains tg ":" = false ->
  Legacy.getImageInfo (host +:+ "/" +:+ nm +:+ ":" +:+ tg +:+ ":" +:+ extra)
  = Legacy.mkImageInfo host nm tg.
Proof.
  intros Hn1 Ht1 He1 Hn2 Ht2.
  rewrite getImageInfo_halves.
  2:{ rewrite !Contains_one_byte_app, Hn1, Ht1, He1. reflexivity. }
  rewrite !Contains_one_byte_app, Contains_one_byte_sep, orb_true_r. cbn [orb].
  unfold GoStrings.Split.
  by rewrite !Split_aux_first_piece.
Qed.

Lemma getImageInfo_drops_after_second_colon_witness :
  Legacy.getImageInfo "registry.example.com/app:v1@sha256:abc123"
  = Legacy.mkImageInfo "registry.example.com" "app" "v1@sha256".
Proof.
  apply (getImageInfo_drops_after_second_colon "registry.example.com" "app"
           "v1@sha256" "abc123"); reflexivity.
Defined.

(** X3. A [":"] before the last ["/"] (the port of the host) is not taken for
    the tag separator: a reference [host/name] without [":"] in the name has
    the tag ["latest"]. *)
Theorem getImageInfo_port_is_not_a_tag (host nm : string) :
  GoStrings.Contains nm "/" = false -> GoStrings.Contains nm ":" = false ->
  Legacy.getImageInfo (host +:+ "/" +:+ nm) = Legacy.mkImageInfo host nm "latest".
Proof. intros H1 H2. by rewrite getImageInfo_halves, H2. Qed.

Lemma getImageInfo_port_is_not_a_tag_witness :
  Legacy.getImageInfo "registry.example.com:5000/app"
  = Legacy.mkImageInfo "registry.example.com:5000" "app" "latest".
Proof.
  apply (getImageInfo_port_is_not_a_tag "registry.example.com:5000" "app"); reflexivity.
Defined.

(** ** Substrings and the image whitelist *)

Lemma Contains_unfold (s substr : string) :
  GoStrings.Contains s substr
  = GoStrings.HasPrefix s substr
    || match s with
       | EmptyString => false
       | String _ s' => GoStrings.Contains s' substr
       end.
Proof. by destruct s. Qed.

Lemma prefix_app (w b : string) : String.prefix w (w +:+ b) = true.
Proof.
  induction w as [|x w IH]; [apply prefix_empty|].
  rewrite append_cons_l. cbn [String.prefix].
  by destruct (Ascii.ascii_dec x x).
Qed.

Lemma prefix_inv (w s : string) :
  String.prefix w s = true -> exists b, s = w +:+ b.
Proof.
  revert s. induction w as [|x w IH]; intros s; [by exists s|].
  destruct s as [|y s]; [done|]. cbn [String.prefix].
  destruct (Ascii.ascii_dec x y) as [->|]; [|done].
  intros [b ->]%IH. by exists b.
Qed.

(** [strings.Contains] is the substring test. *)
Lemma Contains_substring (s w : string) :
  GoStrings.Contains s w = true <-> exists a b, s = a +:+ w +:+ b.
Proof.
  split.
  - induction s as [|c s IH]; rewrite Contains_unfold.
    + rewrite orb_false_r. intros [b ->]%prefix_inv. by exists "", b.
    + intros [[b ->]%prefix_inv|(a & b & ->)%IH]%orb_prop.
      * by exists "", b.
      * by exists (String c a), b.
  - intros (a & b & ->). induction a as [|c a IH]; rewrite Contains_unfold.
    + rewrite append_nil_l. unfold GoStrings.HasPrefix. by rewrite prefix_app.
    + rewrite append_cons_l, IH. apply orb_true_r.
Qed.

(** X4. An image is whitelisted exactly when some entry of the whitelist is a
    substring of its form [registry/name:tag]; so an empty entry whitelists
    every image, and an empty whitelist none. *)
Theorem isImageInWhiteList_substring (h : Legacy.DockerHandler) (image : string) :
  (Legacy.isImageInWhiteList h image = true
   <-> exists entry a b,
         entry ∈ Legacy.byImages (Legacy.whiteList h)
         /\ canonicalImage image = a +:+ entry +:+ b)
  /\ ("" ∈ Legacy.byImages (Legacy.whiteList h) ->
      Legacy.isImageInWhiteList h image = true)
  /\ (Legacy.byImages (Legacy.whiteList h) = [] ->
      Legacy.isImageInWhiteList h image = false).
Proof.
  assert (Hiff : Legacy.isImageInWhiteList h image = true
                 <-> exists entry a b,
                       entry ∈ Legacy.byImages (Legacy.whiteList h)
                       /\ canonicalImage image = a +:+ entry +:+ b).
  { unfold Legacy.isImageInWhiteList. cbv zeta. fold (canonicalImage image).
    rewrite existsb_exists. split.
    - intros (entry & Hin & (a & b & Heq)%Contains_substring).
      exists entry, a, b. by rewrite list_elem_of_In.
    - intros (entry & a & b & Hin & Heq). exists entry.
      rewrite <- list_elem_of_In. split; [done|].
      apply Contains_substring. by exists a, b. }
  split; [done|]. split.
  - intros Hin. apply Hiff. exists "", "", (canonicalImage image). by split.
  - intros Hnil. unfold Legacy.isImageInWhiteList. by rewrite Hnil.
Qed.

(** On the sample: the entry ["example.com/app"] whitelists the application
    image of any registry under that domain. *)
Lemma isImageInWhiteList_substring_witness :
  Legacy.isImageInWhiteList
    (Legacy.mkDockerHandler Sample.cluster (Legacy.mkWhiteList ["example.com/app"] [])
       Sample.pod_app Sample.pod_app "dind-0" [])
    "registry.example.com/app:v1" = true.
Proof.
  apply (proj2 (proj1 (isImageInWhiteList_substring
                         (Legacy.mkDockerHandler Sample.cluster
                            (Legacy.mkWhiteList ["example.com/app"] [])
                            Sample.pod_app Sample.pod_app "dind-0" [])
                         "registry.example.com/app:v1"))).
  exists "example.com/app", "registry.", ":v1". split; [|reflexivity].
  apply list_elem_of_In. vm_compute. tauto.
Defined.

(** ** [getDigest] and the digest of an accepted image *)

Section DigestFacts.

Variables dindContainer dindNamespace : string.
Variable getSignatures : string -> result (list Legacy.Signature).
Variable getRepoAdminKey : Legacy.Signature -> string.
Variable h : Legacy.DockerHandler.

Lemma getDigest_fold_no_match (tag digest : string) (rows : list Legacy.SignedTagRow) :
  Forall (fun row => Legacy.SignedTag row <> tag) rows ->
  fold_left (fun digest signedTag =>
               if decide (Legacy.SignedTag signedTag = tag)
               then Legacy.Digest signedTag else digest) rows digest
  = digest.
Proof.
  intros Hall. revert digest.
  induction Hall as [|row rows Hrow Hall IH]; intros digest; [done|].
  cbn [fold_left]. by rewrite decide_False, IH.
Qed.

(** X5. [getDigest] reads the first signature only; of its rows signed for the
    tag of the image the last one gives the digest, and without such a row
    the digest is empty. *)
Theorem getDigest_last_row_wins (image : string) (first : Legacy.Signature)
    (others : list Legacy.Signature) :
  (forall pre row post,
     Legacy.SignedTags first = pre ++ row :: post ->
     Legacy.SignedTag row = Legacy.tag (Legacy.getImageInfo image) ->
     Forall (fun r => Legacy.SignedTag r <> Legacy.tag (Legacy.getImageInfo image)) post ->
     Legacy.getDigest image (first :: others) = Returns (Legacy.Digest row))
  /\ (Forall (fun r => Legacy.SignedTag r <> Legacy.tag (Legacy.getImageInfo image))
             (Legacy.SignedTags first) ->
      Legacy.getDigest image (first :: others) = Returns "").
Proof.
  split.
  - intros pre row post Heq Hrow Hpost. unfold Legacy.getDigest.
    rewrite Heq, fold_left_app. cbn [fold_left].
    rewrite decide_True by done. by rewrite getDigest_fold_no_match.
  - intros Hall. unfold Legacy.getDigest. by rewrite getDigest_fold_no_match.
Qed.

Lemma getDigest_last_row_wins_witness :
  Legacy.getDigest "registry.example.com/app:v1"
    [Legacy.mkSignature "registry.example.com/app"
       [Legacy.mkSignedTagRow "v1" "aaa" []; Legacy.mkSignedTagRow "v2" "bbb" [];
        Legacy.mkSignedTagRow "v1" "ccc" []] [] []]
  = Returns "ccc".
Proof.
  apply (proj1 (getDigest_last_row_wins "registry.example.com/app:v1"
                  (Legacy.mkSignature "registry.example.com/app"
                     [Legacy.mkSignedTagRow "v1" "aaa" [];
                      Legacy.mkSignedTagRow "v2" "bbb" [];
                      Legacy.mkSignedTagRow "v1" "ccc" []] [] []) [])
           [Legacy.mkSignedTagRow "v1" "aaa" []; Legacy.mkSignedTagRow "v2" "bbb" []]
           (Legacy.mkSignedTagRow "v1" "ccc" []) []).
  - reflexivity.
  - reflexivity.
  - constructor.
Defined.

(** X6. An image is reported signed with an empty digest when the
    signer-policy matcher accepts the decoded signatures and no row of the
    first signature is signed for the tag of the image. *)
Theorem isSignedImage_accepts_with_empty_digest (image : string)
    (first : Legacy.Signature) (others : list Legacy.Signature) :
  (0 < String.length (inspectionOutput dindContainer dindNamespace h image))%nat ->
  getSignatures (inspectionOutput dindContainer dindNamespace h image)
  = Ok (first :: others) ->
  value (Legacy.hasMatchedSigner getRepoAdminKey h (first :: others)) = true ->
  Forall (fun r => Legacy.SignedTag r <> Legacy.tag (Legacy.getImageInfo image))
         (Legacy.SignedTags first) ->
  value (Legacy.isSignedImage dindContainer dindNamespace getSignatures
                              getRepoAdminKey h image)
  = Returns (true, "").
Proof.
  intros Hlen Hsig Hm Hrows. rewrite isSignedImage_value.
  rewrite bool_decide_eq_false_2 by lia. rewrite Hsig, Hm.
  unfold Legacy.getDigest. by rewrite getDigest_fold_no_match.
Qed.

End DigestFacts.

(** On the sample, whose signature covers the tag [v1] only, the tag [v7] of
    the application is reported signed, without digest. *)
Lemma isSignedImage_accepts_with_empty_digest_witness :
  value (Legacy.isSignedImage "dind" "registry-system" Sample.decodeSignatures
           Sample.repoAdminKey Sample.handler_no_policy "registry.example.com/app:v7")
  = Returns (true, "").
Proof.
  apply (isSignedImage_accepts_with_empty_digest "dind" "registry-system"
           Sample.decodeSignatures Sample.repoAdminKey Sample.handler_no_policy
           "registry.example.com/app:v7" Sample.signature_app []).
  - vm_compute. lia.
  - reflexivity.
  - reflexivity.
  - repeat constructor. intros H. vm_compute in H. discriminate H.
Defined.

(** ** The loops of the legacy handler *)

Lemma bind_ext {A B : Type} (m : M A) (k k' : A -> M B) :
  (forall a, k a = k' a) -> bind m k = bind m k'.
Proof. intros H. destruct m as [a t]. cbn. by rewrite H. Qed.

Lemma withPatchList_id (h : Legacy.DockerHandler) (isInitContainer : bool) :
  withPatchList h isInitContainer (patchList isInitContainer (Legacy.patch h)) = h.
Proof. by destruct h as [? ? ? [? [? ? ?]] ? ?], isInitContainer. Qed.

Lemma withPatchList_twice (h : Legacy.DockerHandler) (isInitContainer : bool)
    (l l' : list corev1.Container) :
  withPatchList (withPatchList h isInitContainer l) isInitContainer l'
  = withPatchList h isInitContainer l'.
Proof. by destruct isInitContainer. Qed.

Lemma patchList_withPatchList (h : Legacy.DockerHandler) (isInitContainer : bool)
    (l : list corev1.Container) :
  patchList isInitContainer (Legacy.patch (withPatchList h isInitContainer l)) = l.
Proof. by destruct isInitContainer. Qed.

(** The list of the patch that a loop does not write. *)
Lemma patchList_other (h : Legacy.DockerHandler) (isInitContainer : bool)
    (l : list corev1.Container) :
  patchList (negb isInitContainer) (Legacy.patch (withPatchList h isInitContainer l))
  = patchList (negb isInitContainer) (Legacy.patch h).
Proof. by destruct isInitContainer. Qed.

Section LegacyLoopFacts.

Variables dindContainer dindNamespace : string.
Variable getSignatures : string -> result (list Legacy.Signature).
Variable getRepoAdminKey : Legacy.Signature -> string.

Local Abbreviation isSignedImage :=
  (Legacy.isSignedImage dindContainer dindNamespace getSignatures getRepoAdminKey).
Local Abbreviation inspected' :=
  (inspected dindContainer dindNamespace getSignatures getRepoAdminKey).
Local Abbreviation passes' :=
  (passes dindContainer dindNamespace getSignatures getRepoAdminKey).
Local Abbreviation patched' :=
  (patched dindContainer dindNamespace getSignatures getRepoAdminKey).
Local Abbreviation loop :=
  (Legacy.addDigestWhenImageValid_loop dindContainer dindNamespace getSignatures
                                       getRepoAdminKey).

(** The inspection of an image does not read the patch. *)
Lemma loginToRegistry_loop_withPatch (h : Legacy.DockerHandler) (p : corev1.Pod)
    (registry : string) (pullSecrets : list corev1.LocalObjectReference) :
  Legacy.loginToRegistry_loop dindContainer dindNamespace (withPatch h p) registry
                              pullSecrets
  = Legacy.loginToRegistry_loop dindContainer dindNamespace h registry pullSecrets.
Proof.
  induction pullSecrets as [|pullSecret rest IH]; [done|].
  cbn [Legacy.loginToRegistry_loop]. by rewrite IH.
Qed.

Lemma hasMatchedSigner_signers_withPatch (h : Legacy.DockerHandler) (p : corev1.Pod)
    (key : string) (signerNames : list string) :
  Legacy.hasMatchedSigner_signers (withPatch h p) key signerNames
  = Legacy.hasMatchedSigner_signers h key signerNames.
Proof.
  induction signerNames as [|signerName rest IH]; [done|].
  cbn [Legacy.hasMatchedSigner_signers]. by rewrite IH.
Qed.

Lemma hasMatchedSigner_policies_withPatch (h : Legacy.DockerHandler) (p : corev1.Pod)
    (key : string) (policies : list Legacy.SignerPolicy) :
  Legacy.hasMatchedSigner_policies (withPatch h p) key policies
  = Legacy.hasMatchedSigner_policies h key policies.
Proof.
  induction policies as [|policy rest IH]; [done|].
  cbn [Legacy.hasMatchedSigner_policies].
  by rewrite IH, hasMatchedSigner_signers_withPatch.
Qed.

Lemma hasMatchedSigner_withPatch (h : Legacy.DockerHandler) (p : corev1.Pod)
    (signatures : list Legacy.Signature) :
  Legacy.hasMatchedSigner getRepoAdminKey (withPatch h p) signatures
  = Legacy.hasMatchedSigner getRepoAdminKey h signatures.
Proof.
  unfold Legacy.hasMatchedSigner. cbn [withPatch Legacy.signerPolicies].
  destruct (bool_decide _); [done|]. destruct signatures; [done|].
  apply hasMatchedSigner_policies_withPatch.
Qed.

Lemma makeCommand_withPatch (h : Legacy.DockerHandler) (p : corev1.Pod)
    (imageInfo : Legacy.ImageInfo) :
  Legacy.makeCommand dindContainer dindNamespace (withPatch h p) imageInfo
  = Legacy.makeCommand dindContainer dindNamespace h imageInfo.
Proof.
  unfold Legacy.makeCommand. apply bind_ext. intros notaryServer.
  destruct (decide _); [done|]. destruct (decide _); [done|].
  unfold Legacy.loginToRegistry. cbn [withPatch Legacy.pod].
  by rewrite loginToRegistry_loop_withPatch.
Qed.

Lemma isSignedImage_withPatch (h : Legacy.DockerHandler) (p : corev1.Pod)
    (image : string) :
  isSignedImage (withPatch h p) image = isSignedImage h image.
Proof.
  unfold Legacy.isSignedImage. rewrite makeCommand_withPatch.
  apply bind_ext. intros command. apply bind_ext. intros r.
  destruct (bool_decide _); [done|]. destruct (getSignatures _); [|done].
  by rewrite hasMatchedSigner_withPatch.
Qed.

Lemma inspected_withPatch (h : Legacy.DockerHandler) (p : corev1.Pod)
    (image : string) :
  inspected' (withPatch h p) image = inspected' h image.
Proof. unfold inspected. by rewrite isSignedImage_withPatch. Qed.

Lemma passes_withPatch (h : Legacy.DockerHandler) (p : corev1.Pod)
    (c : corev1.Container) :
  passes' (withPatch h p) c <-> passes' h c.
Proof. unfold passes, inspected. by rewrite isSignedImage_withPatch. Qed.

Lemma patched_withPatch (h : Legacy.DockerHandler) (p : corev1.Pod)
    (c : corev1.Container) :
  patched' (withPatch h p) c = patched' h c.
Proof. unfold patched, inspected. by rewrite isSignedImage_withPatch. Qed.

Lemma drop_cons_inv {A : Type} (l rest : list A) (x : A) (i : nat) :
  drop i l = x :: rest -> l !! i = Some x /\ drop (S i) l = rest.
Proof.
  intros Hd.
  assert (Hx : l !! i = Some x).
  { rewrite <- (Nat.add_0_r i), <- lookup_drop. by rewrite Hd. }
  split; [done|]. rewrite (drop_S _ _ _ Hx) in Hd. by injection Hd.
Qed.

(** How a loop over [containers] from index [i] ends, when the patch holds
    these containers from that index on: all containers pass and are written
    to the patch; or the first one that does not pass is reported unsigned and
    the patch is left as it is from that container on; or the inspection of
    the first one that does not pass panics. *)
Lemma addDigestWhenImageValid_loop_cases (containers : list corev1.Container)
    (h : Legacy.DockerHandler) (isInitContainer : bool) (i : nat) :
  drop i (patchList isInitContainer (Legacy.patch h)) = containers ->
  let r := value (loop h isInitContainer i containers true "") in
  let kept := take i (patchList isInitContainer (Legacy.patch h)) in
  (Forall (passes' h) containers
   /\ r = Returns (true, "",
                   withPatchList h isInitContainer
                     (kept ++ List.map (patched' h) containers)))
  \/ (exists pre c post digest,
        containers = pre ++ c :: post /\ Forall (passes' h) pre
        /\ Legacy.isImageInWhiteList h (corev1.Image c) = false
        /\ inspected' h (corev1.Image c) = Returns (false, digest)
        /\ r = Returns (false, corev1.Image c,
                        withPatchList h isInitContainer
                          (kept ++ List.map (patched' h) pre ++ c :: post)))
  \/ (exists pre c post p,
        containers = pre ++ c :: post /\ Forall (passes' h) pre
        /\ Legacy.isImageInWhiteList h (corev1.Image c) = false
        /\ inspected' h (corev1.Image c) = Panics p
        /\ r = Panics p).
Proof.
  revert h i. induction containers as [|c rest IH]; intros h i Hdrop; cbv zeta.
  { left. split; [constructor|].
    cbn [Legacy.addDigestWhenImageValid_loop ret value fst List.map].
    rewrite <- Hdrop. by rewrite take_drop, withPatchList_id. }
  destruct (drop_cons_inv _ _ _ _ Hdrop) as [Hc Hrest].
  cbn [Legacy.addDigestWhenImageValid_loop].
  destruct (Legacy.isImageInWhiteList h (corev1.Image c)) eqn:Hw; cbn [negb].
  - (* whitelisted: the loop goes on with the same handler *)
    assert (Hpc : patched' h c = c) by (unfold patched; by rewrite Hw).
    destruct (IH h (S i) Hrest)
      as [[Hall Hr]|[(pre & c' & post & d & -> & Hpre & Hw' & Hi & Hr)
                    |(pre & c' & post & p & -> & Hpre & Hw' & Hi & Hr)]];
      cbv zeta in Hr; rewrite Hr; rewrite ?(take_S_r _ _ _ Hc), <- ?app_assoc.
    + left. split; [constructor; [by left|done]|]. cbn [List.map app]. by rewrite Hpc.
    + right; left. exists (c :: pre), c', post, d.
      repeat split; try done; [constructor; [by left|done]|].
      cbn [List.map app]. by rewrite Hpc.
    + right; right. exists (c :: pre), c', post, p.
      repeat split; try done. constructor; [by left|done].
  - (* not whitelisted: the image is inspected *)
    rewrite value_bind. fold (inspected' h (corev1.Image c)).
    destruct (inspected' h (corev1.Image c)) as [[validation digest]|p] eqn:Hi.
    2:{ right; right. exists [], c, rest, p. repeat split; try done. }
    destruct validation; cbn [andb negb].
    2:{ right; left. exists [], c, rest, digest. repeat split; try done.
        cbn [ret value fst List.map app]. rewrite <- Hdrop, take_drop.
        by rewrite withPatchList_id. }
    unfold Legacy.setPatchImage. fold (patchList isInitContainer (Legacy.patch h)).
    rewrite Hc.
    set (x := corev1.setImage c (corev1.Image c +:+ "@sha256:" +:+ digest)).
    set (P := patchList isInitContainer (Legacy.patch h)) in *.
    change (Legacy.mkDockerHandler _ _ _ _ _ _)
      with (withPatchList h isInitContainer (<[i:=x]> P)).
    assert (Hpc : patched' h c = x).
    { unfold patched. rewrite Hw. fold (inspected' h (corev1.Image c)). by rewrite Hi. }
    assert (Hlt : (i < length P)%nat) by (by eapply lookup_lt_Some).
    assert (Hdrop' : drop (S i) (patchList isInitContainer
                                   (Legacy.patch (withPatchList h isInitContainer
                                                    (<[i:=x]> P)))) = rest).
    { rewrite patchList_withPatchList, drop_insert_lt by lia. done. }
    assert (Htake : take (S i) (<[i:=x]> P) = take i P ++ [x]).
    { rewrite (take_S_r (<[i:=x]> P) i x) by (by rewrite list_lookup_insert_eq).
      by rewrite take_insert_ge. }
    assert (Hmap : forall l,
               List.map (patched' (withPatchList h isInitContainer (<[i:=x]> P))) l
               = List.map (patched' h) l).
    { intros l. apply map_ext. intros a. apply patched_withPatch. }
    destruct (IH (withPatchList h isInitContainer (<[i:=x]> P)) (S i) Hdrop')
      as [[Hall Hr]|[(pre & c' & post & d & -> & Hpre & Hw' & Hi' & Hr)
                    |(pre & c' & post & p & -> & Hpre & Hw' & Hi' & Hr)]];
      cbv zeta in Hr; rewrite Hr;
      rewrite ?patchList_withPatchList, ?withPatchList_twice, ?Htake, <- ?app_assoc.
    + left. split.
      * constructor; [right; by exists digest|].
        eapply Forall_impl; [exact Hall|]. intros a. apply passes_withPatch.
      * cbn [List.map app]. by rewrite Hpc, Hmap.
    + right; left. exists (c :: pre), c', post, d. repeat split; try done.
      * constructor; [right; by exists digest|].
        eapply Forall_impl; [exact Hpre|]. intros a. apply passes_withPatch.
      * rewrite <- Hi'. symmetry. apply inspected_withPatch.
      * cbn [List.map app]. by rewrite Hpc, Hmap.
    + right; right. exists (c :: pre), c', post, p. repeat split; try done.
      * constructor; [right; by exists digest|].
        eapply Forall_impl; [exact Hpre|]. intros a. apply passes_withPatch.
      * rewrite <- Hi'. symmetry. apply inspected_withPatch.
Qed.

Lemma passes_rejected (h : Legacy.DockerHandler) (c : corev1.Container)
    (digest : string) :
  Legacy.isImageInWhiteList h (corev1.Image c) = false ->
  inspected' h (corev1.Image c) = Returns (false, digest) ->
  ~ passes' h c.
Proof. intros Hw Hi [Hw'|[d Hd]]; congruence. Qed.

Lemma passes_panics (h : Legacy.DockerHandler) (c : corev1.Container) (p : panic) :
  Legacy.isImageInWhiteList h (corev1.Image c) = false ->
  inspected' h (corev1.Image c) = Panics p ->
  ~ passes' h c.
Proof. intros Hw Hi [Hw'|[d Hd]]; congruence. Qed.

(** The first element of a list that fails a property is determined. *)
Lemma first_failure_unique {A : Type} (P : A -> Prop) (pre pre' : list A)
    (c c' : A) (post post' : list A) :
  pre ++ c :: post = pre' ++ c' :: post' ->
  Forall P pre -> ~ P c -> Forall P pre' -> ~ P c' ->
  pre = pre' /\ c = c' /\ post = post'.
Proof.
  revert pre'. induction pre as [|a pre IH]; intros [|a' pre'] Heq Hpre Hc Hpre' Hc';
    cbn [app] in Heq; injection Heq as -> Heq.
  - done.
  - by apply Forall_cons in Hpre' as [? _].
  - by apply Forall_cons in Hpre as [? _].
  - apply Forall_cons in Hpre as [_ Hpre]. apply Forall_cons in Hpre' as [_ Hpre'].
    by destruct (IH pre' Heq Hpre Hc Hpre' Hc') as (-> & -> & ->).
Qed.

Local Abbreviation isValid' :=
  (Legacy.isValid dindContainer dindNamespace getSignatures getRepoAdminKey).

(** What [isValid] returns for a handler as [newDockerHandler] makes it,
    its patch a copy of its pod. *)
Lemma isValid_cases (h : Legacy.DockerHandler) :
  Legacy.patch h = Legacy.pod h ->
  let r := value (isValid' h) in
  (Forall (passes' h) (visited h)
   /\ r = Returns (true, "", withPatchOf h (List.map (patched' h) (visited h))))
  \/ (exists pre c post digest,
        visited h = pre ++ c :: post /\ Forall (passes' h) pre
        /\ Legacy.isImageInWhiteList h (corev1.Image c) = false
        /\ inspected' h (corev1.Image c) = Returns (false, digest)
        /\ r = Returns (false, corev1.Image c,
                        withPatchOf h (List.map (patched' h) pre ++ c :: post)))
  \/ (exists pre c post p,
        visited h = pre ++ c :: post /\ Forall (passes' h) pre
        /\ Legacy.isImageInWhiteList h (corev1.Image c) = false
        /\ inspected' h (corev1.Image c) = Panics p
        /\ r = Panics p).
Proof.
  intros Hpatch. cbv zeta.
  unfold Legacy.isValid, Legacy.addDigestWhenImageValid, visited, withPatchOf.
  rewrite value_bind.
  set (I := corev1.InitContainers (corev1.Spec (Legacy.pod h))).
  set (C := corev1.Containers (corev1.Spec (Legacy.pod h))).
  assert (HI : drop 0 (patchList true (Legacy.patch h)) = I) by (by rewrite Hpatch).
  destruct (addDigestWhenImageValid_loop_cases I h true 0 HI)
    as [[Hall Hr]|[(pre & c & post & d & HIeq & Hpre & Hw & Hi & Hr)
                  |(pre & c & post & p & HIeq & Hpre & Hw & Hi & Hr)]];
    cbv zeta in Hr; rewrite ?take_0 in Hr; cbn [app] in Hr; fold loop; rewrite Hr.
  - (* the init containers pass: the containers are visited *)
    set (h1 := withPatchList h true (List.map (patched' h) I)).
    assert (HC : drop 0 (patchList false (Legacy.patch h1)) = C).
    { unfold h1. cbn [drop]. rewrite (patchList_other h true). by rewrite Hpatch. }
    assert (Hmap : forall l, List.map (patched' h1) l = List.map (patched' h) l).
    { intros l. apply map_ext. intros a. apply patched_withPatch. }
    change (Legacy.pod h1) with (Legacy.pod h). fold C.
    destruct (addDigestWhenImageValid_loop_cases C h1 false 0 HC)
      as [[Hall2 Hr2]|[(pre & c & post & d & HCeq & Hpre & Hw & Hi & Hr2)
                      |(pre & c & post & p & HCeq & Hpre & Hw & Hi & Hr2)]];
      cbv zeta in Hr2; rewrite ?take_0 in Hr2; cbn [app] in Hr2; rewrite Hr2, ?Hmap.
    + left. split.
      * apply Forall_app_2; [done|].
        eapply Forall_impl; [exact Hall2|]. intros a. apply passes_withPatch.
      * rewrite map_app, take_app_length', drop_app_length' by (by rewrite length_map).
        done.
    + right; left. exists (I ++ pre), c, post, d. rewrite HCeq.
      split; [by rewrite <- app_assoc|]. split.
      { apply Forall_app_2; [done|].
        eapply Forall_impl; [exact Hpre|]. intros a. apply passes_withPatch. }
      split; [done|]. split; [by rewrite <- Hi; symmetry; apply inspected_withPatch|].
      rewrite map_app, <- app_assoc.
      rewrite take_app_length', drop_app_length' by (by rewrite length_map).
      done.
    + right; right. exists (I ++ pre), c, post, p. rewrite HCeq.
      split; [by rewrite <- app_assoc|]. split.
      { apply Forall_app_2; [done|].
        eapply Forall_impl; [exact Hpre|]. intros a. apply passes_withPatch. }
      split; [done|]. split; [by rewrite <- Hi; symmetry; apply inspected_withPatch|].
      done.
  - (* an init container is not signed: the containers are not visited *)
    right; left. exists pre, c, (post ++ C), d.
    split; [by rewrite HIeq, <- app_assoc|]. do 3 (split; [done|]).
    cbn [value ret fst].
    replace (List.map (patched' h) pre ++ c :: post ++ C)
      with ((List.map (patched' h) pre ++ c :: post) ++ C) by (by rewrite <- app_assoc).
    rewrite take_app_length', drop_app_length'
      by (rewrite HIeq, !length_app, length_map; done).
    unfold C. rewrite <- Hpatch. by destruct h as [? ? ? [? [? ? ?]] ? ?].
  - right; right. exists pre, c, (post ++ C), p.
    split; [by rewrite HIeq, <- app_assoc|]. by do 3 (split; [done|]).
Qed.

(** X7. [isValid] accepts a pod exactly when each of its containers, init
    containers first, has a whitelisted image or an image that the inspection
    reports signed; the name it returns is then empty, the pod of the handler
    is as it was, and in the patch every inspected container has its image
    followed by ["@sha256:"] and the signed digest. *)
Theorem isValid_accepts_exactly_passing_pods (h : Legacy.DockerHandler)
    (name : string) (h' : Legacy.DockerHandler) :
  Legacy.patch h = Legacy.pod h ->
  value (isValid' h) = Returns (true, name, h')
  <-> Forall (passes' h) (visited h) /\ name = ""
      /\ h' = withPatchOf h (List.map (patched' h) (visited h)).
Proof.
  intros Hpatch.
  destruct (isValid_cases h Hpatch)
    as [[Hall Hr]|[(pre & c & post & d & Heq & Hpre & Hw & Hi & Hr)
                  |(pre & c & post & p & Heq & Hpre & Hw & Hi & Hr)]];
    cbv zeta in Hr; rewrite Hr.
  - split; [by intros [= <- <-]|by intros (_ & -> & ->)].
  - split; [done|]. intros (Hall & _). rewrite Heq in Hall.
    apply Forall_app in Hall as [_ Hall]. apply Forall_cons in Hall as [Hc _].
    by destruct (passes_rejected h c d Hw Hi).
  - split; [done|]. intros (Hall & _). rewrite Heq in Hall.
    apply Forall_app in Hall as [_ Hall]. apply Forall_cons in Hall as [Hc _].
    by destruct (passes_panics h c p Hw Hi).
Qed.

(** X8. [isValid] rejects a pod at its first container whose image is neither
    whitelisted nor reported signed, and names that image: the containers
    before it are patched with their digests, that container and the ones
    after it are left as they were, and no later container is inspected. *)
Theorem isValid_rejects_first_unsigned (h : Legacy.DockerHandler)
    (pre : list corev1.Container) (c : corev1.Container)
    (post : list corev1.Container) (digest : string) :
  Legacy.patch h = Legacy.pod h ->
  visited h = pre ++ c :: post ->
  Forall (passes' h) pre ->
  Legacy.isImageInWhiteList h (corev1.Image c) = false ->
  inspected' h (corev1.Image c) = Returns (false, digest) ->
  value (isValid' h)
  = Returns (false, corev1.Image c,
             withPatchOf h (List.map (patched' h) pre ++ c :: post)).
Proof.
  intros Hpatch Hvis Hpre Hw Hi.
  pose proof (passes_rejected h c digest Hw Hi) as Hc.
  destruct (isValid_cases h Hpatch)
    as [[Hall Hr]|[(pre' & c' & post' & d & Heq & Hpre' & Hw' & Hi' & Hr)
                  |(pre' & c' & post' & p & Heq & Hpre' & Hw' & Hi' & Hr)]];
    cbv zeta in Hr.
  - rewrite Hvis in Hall. apply Forall_app in Hall as [_ Hall].
    by apply Forall_cons in Hall as [? _].
  - rewrite Hvis in Heq.
    by destruct (first_failure_unique _ _ _ _ _ _ _ Heq Hpre Hc Hpre'
                   (passes_rejected h c' d Hw' Hi')) as (-> & -> & ->).
  - rewrite Hvis in Heq.
    destruct (first_failure_unique _ _ _ _ _ _ _ Heq Hpre Hc Hpre'
                (passes_panics h c' p Hw' Hi')) as (-> & -> & ->).
    congruence.
Qed.

(** X9. A panic of the inspection of the first container that does not pass
    is the panic of [isValid]: no verdict is returned. *)
Theorem isValid_panics_with_first_inspection (h : Legacy.DockerHandler)
    (pre : list corev1.Container) (c : corev1.Container)
    (post : list corev1.Container) (p : panic) :
  Legacy.patch h = Legacy.pod h ->
  visited h = pre ++ c :: post ->
  Forall (passes' h) pre ->
  Legacy.isImageInWhiteList h (corev1.Image c) = false ->
  inspected' h (corev1.Image c) = Panics p ->
  value (isValid' h) = Panics p.
Proof.
  intros Hpatch Hvis Hpre Hw Hi.
  pose proof (passes_panics h c p Hw Hi) as Hc.
  destruct (isValid_cases h Hpatch)
    as [[Hall Hr]|[(pre' & c' & post' & d & Heq & Hpre' & Hw' & Hi' & Hr)
                  |(pre' & c' & post' & p' & Heq & Hpre' & Hw' & Hi' & Hr)]];
    cbv zeta in Hr.
  - rewrite Hvis in Hall. apply Forall_app in Hall as [_ Hall].
    by apply Forall_cons in Hall as [? _].
  - rewrite Hvis in Heq.
    destruct (first_failure_unique _ _ _ _ _ _ _ Heq Hpre Hc Hpre'
                (passes_rejected h c' d Hw' Hi')) as (-> & -> & ->).
    congruence.
  - rewrite Hvis in Heq.
    destruct (first_failure_unique _ _ _ _ _ _ _ Heq Hpre Hc Hpre'
                (passes_panics h c' p' Hw' Hi')) as (-> & -> & ->).
    congruence.
Qed.

(** A loop over whitelisted images inspects nothing and writes nothing. *)
Lemma addDigestWhenImageValid_loop_whitelisted (h : Legacy.DockerHandler)
    (isInitContainer : bool) (i : nat) (containers : list corev1.Container)
    (isValid : bool) (name : string) :
  Forall (fun c => Legacy.isImageInWhiteList h (corev1.Image c) = true) containers ->
  loop h isInitContainer i containers isValid name = ret (Returns (isValid, name, h)).
Proof.
  intros Hall. revert i. induction Hall as [|c rest Hc _ IH]; intros i; [done|].
  cbn [Legacy.addDigestWhenImageValid_loop]. rewrite Hc. cbn [negb]. apply IH.
Qed.

(** X10. A pod whose images are all whitelisted is accepted without any
    request to the cluster or to the helper pod, and the handler, its patch
    included, is left as it was. *)
Theorem isValid_whitelisted_pod_without_call (h : Legacy.DockerHandler) :
  Forall (fun c => Legacy.isImageInWhiteList h (corev1.Image c) = true) (visited h) ->
  isValid' h = ret (Returns (true, "", h)).
Proof.
  intros Hall. apply Forall_app in Hall as [HI HC].
  unfold Legacy.isValid, Legacy.addDigestWhenImageValid.
  rewrite (addDigestWhenImageValid_loop_whitelisted h true 0 _ true "" HI).
  rewrite bind_ret_l.
  by rewrite (addDigestWhenImageValid_loop_whitelisted h false 0 _ true "" HC).
Qed.

(** The loops of the earlier text are the loop of [addDigestWhenImageValid]. *)
Lemma bind_value_ext {A B : Type} (m : M A) (k k' : A -> M B) :
  k (value m) = k' (value m) -> bind m k = bind m k'.
Proof. destruct m as [a t]. cbn. by intros ->. Qed.

Local Abbreviation inline_initContainers :=
  (LegacyInline.isValid_initContainers dindContainer dindNamespace getSignatures
                                       getRepoAdminKey).
Local Abbreviation inline_containers :=
  (LegacyInline.isValid_containers dindContainer dindNamespace getSignatures
                                   getRepoAdminKey).

Lemma isValid_initContainers_loop (h : Legacy.DockerHandler) (i : nat)
    (containers : list corev1.Container) (isValid : bool) (name : string) :
  inline_initContainers h i containers isValid name
  = loop h true i containers isValid name.
Proof.
  revert h i isValid. induction containers as [|c rest IH]; intros h i isValid; [done|].
  cbn [LegacyInline.isValid_initContainers Legacy.addDigestWhenImageValid_loop].
  destruct (negb (Legacy.isImageInWhiteList h (corev1.Image c))); [|apply IH].
  apply bind_ext. intros [[validation digest]|p]; [|done].
  destruct (negb (isValid && validation)); [done|].
  destruct (Legacy.setPatchImage h true i _); [apply IH|done].
Qed.

Lemma isValid_containers_loop (h : Legacy.DockerHandler) (i : nat)
    (containers : list corev1.Container) (name : string) :
  inline_containers h i containers true name = loop h false i containers true name.
Proof.
  revert h i. induction containers as [|c rest IH]; intros h i; [done|].
  cbn [LegacyInline.isValid_containers Legacy.addDigestWhenImageValid_loop negb].
  destruct (negb (Legacy.isImageInWhiteList h (corev1.Image c))); [|apply IH].
  apply bind_ext. intros [[[] digest]|p]; cbn [andb negb]; [|done|done].
  destruct (Legacy.setPatchImage h false i _); [apply IH|done].
Qed.

Lemma isValid_containers_broken (h : Legacy.DockerHandler) (i : nat)
    (containers : list corev1.Container) (name : string) :
  inline_containers h i containers false name = ret (Returns (false, name, h)).
Proof. by destruct containers. Qed.

(** A loop that ends valid has not written the name. *)
Lemma addDigestWhenImageValid_loop_valid_name (h : Legacy.DockerHandler)
    (isInitContainer : bool) (i : nat) (containers : list corev1.Container)
    (name name' : string) (h' : Legacy.DockerHandler) :
  value (loop h isInitContainer i containers true name) = Returns (true, name', h') ->
  name' = name.
Proof.
  revert h i. induction containers as [|c rest IH]; intros h i.
  { by intros [= -> _]. }
  cbn [Legacy.addDigestWhenImageValid_loop].
  destruct (negb (Legacy.isImageInWhiteList h (corev1.Image c))); [|apply IH].
  rewrite value_bind.
  destruct (value (isSignedImage h (corev1.Image c))) as [[[] digest]|p];
    cbn [andb negb]; [|done|done].
  destruct (Legacy.setPatchImage h isInitContainer i _); [apply IH|done].
Qed.

(** X11. The two texts of the handler agree: [isValid] with its two loops
    inline returns the same verdict, name and patch, after the same requests
    in the same order, as [isValid] calling [addDigestWhenImageValid] twice. *)
Theorem inline_isValid_agrees (h : Legacy.DockerHandler) :
  LegacyInline.isValid dindContainer dindNamespace getSignatures getRepoAdminKey h
  = isValid' h.
Proof.
  unfold LegacyInline.isValid, Legacy.isValid, Legacy.addDigestWhenImageValid.
  rewrite isValid_initContainers_loop. apply bind_value_ext.
  destruct (value (loop h true 0 _ true "")) as [[[[] name] h1]|p] eqn:Hr; [| |done].
  - apply addDigestWhenImageValid_loop_valid_name in Hr as ->.
    apply isValid_containers_loop.
  - apply isValid_containers_broken.
Qed.

End LegacyLoopFacts.

Lemma isValid_whitelisted_pod_without_call_witness :
  Legacy.isValid "dind" "registry-system" Sample.decodeSignatures Sample.repoAdminKey
    (Sample.handler_of Sample.pod_mirror)
  = ret (Returns (true, "", Sample.handler_of Sample.pod_mirror)).
Proof.
  apply (isValid_whitelisted_pod_without_call "dind" "registry-system"
           Sample.decodeSignatures Sample.repoAdminKey
           (Sample.handler_of Sample.pod_mirror)).
  apply Forall_cons_2; [vm_compute; reflexivity|].
  apply Forall_cons_2; [vm_compute; reflexivity|].
  apply Forall_nil_2.
Defined.

Lemma isValid_accepts_exactly_passing_pods_witness :
  value (Legacy.isValid "dind" "registry-system" Sample.decodeSignatures
           Sample.repoAdminKey (Sample.handler_of Sample.pod_signed))
  = Returns
      (true, "",
       withPatch (Sample.handler_of Sample.pod_signed)
         (corev1.mkPod "default"
            (corev1.mkPodSpec
               [corev1.mkContainer "setup" "registry.example.com/app:v1@sha256:abc123"]
               [Sample.container_proxy;
                corev1.mkContainer "app" "registry.example.com/app:v1@sha256:abc123"]
               []))).
Proof.
  apply (isValid_accepts_exactly_passing_pods "dind" "registry-system"
           Sample.decodeSignatures Sample.repoAdminKey
           (Sample.handler_of Sample.pod_signed)); [reflexivity|].
  split; [|split; [reflexivity|vm_compute; reflexivity]].
  apply Forall_cons_2; [right; exists "abc123"; vm_compute; reflexivity|].
  apply Forall_cons_2; [left; vm_compute; reflexivity|].
  apply Forall_cons_2; [right; exists "abc123"; vm_compute; reflexivity|].
  apply Forall_nil_2.
Defined.

Lemma isValid_rejects_first_unsigned_witness :
  value (Legacy.isValid "dind" "registry-system" Sample.decodeSignatures
           Sample.repoAdminKey (Sample.handler_of Sample.pod_unsigned))
  = Returns
      (false, "registry.example.com/tool:v9",
       withPatch (Sample.handler_of Sample.pod_unsigned)
         (corev1.mkPod "default"
            (corev1.mkPodSpec
               [corev1.mkContainer "setup" "registry.example.com/app:v1@sha256:abc123"]
               [Sample.container_proxy; Sample.container_tool; Sample.container_app]
               []))).
Proof.
  etrans.
  - apply (isValid_rejects_first_unsigned "dind" "registry-system"
             Sample.decodeSignatures Sample.repoAdminKey
             (Sample.handler_of Sample.pod_unsigned)
             [Sample.container_setup; Sample.container_proxy] Sample.container_tool
             [Sample.container_app] "").
    + reflexivity.
    + reflexivity.
    + apply Forall_cons_2; [right; exists "abc123"; vm_compute; reflexivity|].
      apply Forall_cons_2; [left; vm_compute; reflexivity|].
      apply Forall_nil_2.
    + vm_compute. reflexivity.
    + vm_compute. reflexivity.
  - vm_compute. reflexivity.
Defined.

Lemma isValid_panics_with_first_inspection_witness :
  value (Legacy.isValid "dind" "registry-system" Sample.decodeSignatures
           Sample.repoAdminKey (Sample.handler_of Sample.pod_silent))
  = Panics (LogPanic "Failed to get signature of image registry.example.com/probe:1").
Proof.
  apply (isValid_panics_with_first_inspection "dind" "registry-system"
           Sample.decodeSignatures Sample.repoAdminKey
           (Sample.handler_of Sample.pod_silent)
           [Sample.container_setup] Sample.container_probe [Sample.container_app]).
  - reflexivity.
  - reflexivity.
  - apply Forall_cons_2; [right; exists "abc123"; vm_compute; reflexivity|].
    apply Forall_nil_2.
  - vm_compute. reflexivity.
  - vm_compute. reflexivity.
Defined.

(** ** The construction of the handler, the login and the command *)

Section LegacyRequests.

Variables dindContainer dindNamespace dindDeployment : string.
Variable ReadWhiteList : Legacy.Cluster -> result Legacy.WhiteList.

Local Abbreviation newDockerHandler :=
  (Legacy.newDockerHandler dindNamespace dindDeployment ReadWhiteList).
Local Abbreviation loginToRegistry_loop :=
  (Legacy.loginToRegistry_loop dindContainer dindNamespace).
Local Abbreviation loginToRegistry :=
  (Legacy.loginToRegistry dindContainer dindNamespace).
Local Abbreviation logsIn' := (logsIn dindContainer dindNamespace).

(** X12. [newDockerHandler] fails only when the whitelist or the signer
    policies of the pod's namespace cannot be read: a failed listing of the
    helper pods never fails it. The handler it returns holds the pod, a patch
    equal to the pod, the whitelist and the policies that were read, and the
    name of the first helper pod, or the empty name when none is listed. *)
Theorem newDockerHandler_result (clientset : Legacy.Cluster) (pod : corev1.Pod)
    (h : Legacy.DockerHandler) :
  value (newDockerHandler clientset pod) = Ok h
  <-> exists wl items,
        ReadWhiteList clientset = Ok wl
        /\ Legacy.signerpolicies clientset (corev1.Namespace pod) = Ok items
        /\ h = Legacy.mkDockerHandler clientset wl pod pod
                 (default "" (head (Legacy.podNames clientset dindNamespace
                                      ("app=" +:+ dindDeployment))))
                 items.
Proof.
  unfold Legacy.newDockerHandler.
  destruct (ReadWhiteList clientset) as [wl|err] eqn:Hwl.
  2:{ split; [done|]. by intros (? & ? & ? & _). }
  rewrite !value_bind. cbn [call value fst].
  destruct (Legacy.signerpolicies clientset (corev1.Namespace pod)) as [items|err] eqn:Hp.
  2:{ split; [done|]. by intros (? & ? & _ & ? & _). }
  cbn [ret fst]. split.
  - intros [= <-]. exists wl, items. repeat split.
    by destruct (Legacy.podNames clientset dindNamespace _).
  - intros (wl' & items' & [= <-] & [= <-] & ->).
    by destruct (Legacy.podNames clientset dindNamespace _).
Qed.

(** The first element of a list with a property, seen from the head. *)
Lemma first_with_cons {A : Type} (R L : A -> Prop) (s : A) (rest : list A) :
  (exists pre s0 post, s :: rest = pre ++ s0 :: post /\ Forall R pre /\ L s0)
  <-> L s \/ (R s /\ exists pre s0 post, rest = pre ++ s0 :: post /\ Forall R pre /\ L s0).
Proof.
  split.
  - intros ([|a pre] & s0 & post & Heq & Hpre & Hs0); cbn [app] in Heq;
      injection Heq as -> ->; [by left|].
    apply Forall_cons in Hpre as [Ha Hpre]. right. split; [done|].
    by exists pre, s0, post.
  - intros [Hs|[Hs (pre & s0 & post & -> & Hpre & Hs0)]].
    + by exists [], s, rest.
    + exists (s :: pre), s0, post. repeat split; [|done]. by constructor.
Qed.

Lemma loginToRegistry_loop_nil (h : Legacy.DockerHandler) (registry : string)
    (pullSecrets : list corev1.LocalObjectReference) :
  value (loginToRegistry_loop h registry pullSecrets) = None
  <-> exists pre s post,
        pullSecrets = pre ++ s :: post /\ Forall (readable h) pre
        /\ logsIn' h registry s.
Proof.
  induction pullSecrets as [|s rest IH].
  { split; [done|]. by intros ([|? ?] & ? & ? & ? & _). }
  rewrite first_with_cons, <- IH. clear IH.
  cbn [Legacy.loginToRegistry_loop]. rewrite value_bind.
  unfold logsIn, readable.
  destruct (value (Legacy.getSecret h (corev1.Name s))) as [secret|err] eqn:Hs.
  2:{ split; [done|]. by intros [(? & ? & ? & ? & ? & _)|[[? ?] _]]. }
  destruct (corev1.Data secret !! "ID") as [id|] eqn:Hid.
  2:{ split; [intros H; right; split; [by exists secret|done]|].
      intros [(? & ? & ? & ? & [= <-] & ? & _)|[_ H]]; [congruence|done]. }
  destruct (corev1.Data secret !! "PASSWD") as [pw|] eqn:Hpw.
  2:{ split; [intros H; right; split; [by exists secret|done]|].
      intros [(? & ? & ? & ? & [= <-] & ? & ? & _)|[_ H]]; [congruence|done]. }
  rewrite value_bind.
  destruct (value (Legacy.execToDockerDaemon dindContainer dindNamespace h _))
    as [result err] eqn:Hexec. cbn [fst snd].
  destruct err as [err|].
  { split; [intros H; right; split; [by exists secret|done]|].
    intros [(? & ? & ? & ? & [= <-] & ? & ? & ? & _)|[_ H]]; [congruence|done]. }
  destruct (GoStrings.Contains (Legacy.OutBuffer result) "Login Succeeded") eqn:Hout.
  - split; [|done]. intros _. left. by exists secret, id, pw, result.
  - split; [intros H; right; split; [by exists secret|done]|].
    intros [(? & ? & ? & ? & [= <-] & ? & ? & ? & ?)|[_ H]]; [congruence|done].
Qed.

(** X13. [loginToRegistry] returns [nil] exactly when some pull secret of the
    pod holds both credentials and its login command is answered with
    ["Login Succeeded"], and every pull secret listed before it could be
    read: a pull secret that cannot be read ends the attempts, one without
    credentials or with a refused login is passed over. *)
Theorem loginToRegistry_nil_iff_login_succeeded (h : Legacy.DockerHandler)
    (registry : string) :
  value (loginToRegistry h registry) = None
  <-> exists pre s post,
        corev1.ImagePullSecrets (corev1.Spec (Legacy.pod h)) = pre ++ s :: post
        /\ Forall (readable h) pre /\ logsIn' h registry s.
Proof.
  unfold Legacy.loginToRegistry. rewrite <- loginToRegistry_loop_nil.
  by destruct (corev1.ImagePullSecrets (corev1.Spec (Legacy.pod h))).
Qed.

(** X14. When the registries of the cluster cannot be listed, the image of
    any registry but [docker.io] is inspected with the trust server unset and
    under its full name; the failure is not reported, and no login to the
    registry is attempted. *)
Theorem makeCommand_without_registry_list (h : Legacy.DockerHandler)
    (imageInfo : Legacy.ImageInfo) (err : error) :
  Legacy.registry imageInfo <> "docker.io" ->
  Legacy.registries (Legacy.client h) = Err err ->
  Legacy.makeCommand dindContainer dindNamespace h imageInfo
  = ("unset DOCKER_CONTENT_TRUST_SERVER; docker trust inspect "
     +:+ Legacy.registry imageInfo +:+ "/" +:+ Legacy.name imageInfo +:+ ":"
     +:+ Legacy.tag imageInfo,
     [ListRegistries]).
Proof.
  intros Hreg Herr.
  unfold Legacy.makeCommand, Legacy.findNotaryServer, Legacy.getRegistries.
  rewrite decide_False by done. rewrite Herr. reflexivity.
Qed.

End LegacyRequests.

Lemma loginToRegistry_nil_iff_login_succeeded_witness :
  value (Legacy.loginToRegistry "dind" "registry-system" Sample.handler_login
           "registry.example.com") = None.
Proof.
  apply (proj2 (loginToRegistry_nil_iff_login_succeeded "dind" "registry-system"
                  Sample.handler_login "registry.example.com")).
  exists [corev1.mkLocalObjectReference "empty"],
         (corev1.mkLocalObjectReference "regcred"),
         [corev1.mkLocalObjectReference "missing"].
  split; [reflexivity|]. split.
  - apply Forall_cons_2; [|apply Forall_nil_2].
    exists (corev1.mkSecret "empty" ∅). vm_compute. reflexivity.
  - exists (corev1.mkSecret "regcred" {[ "ID" := "bob"; "PASSWD" := "hunter2" ]}),
           "bob", "hunter2", (Legacy.mkExecResult "Login Succeeded" "").
    repeat split; vm_compute; reflexivity.
Defined.

Lemma makeCommand_without_registry_list_witness :
  Legacy.makeCommand "dind" "registry-system" Sample.handler_no_registries
    (Legacy.getImageInfo "registry.example.com/app:v1")
  = ("unset DOCKER_CONTENT_TRUST_SERVER; docker trust inspect registry.example.com/app:v1",
     [ListRegistries]).
Proof.
  apply (makeCommand_without_registry_list "dind" "registry-system"
           Sample.handler_no_registries
           (Legacy.getImageInfo "registry.example.com/app:v1")
           "the server could not find the requested resource").
  - intros H. vm_compute in H. discriminate H.
  - reflexivity.
Defined.

(** ** The token of the notary server and the pass phrases *)

Section TokenFacts.

Variable net : Trust.Network.
Variable notaryServerURL : string.
Variable image : Trust.Image.

(** X15. A token that [GetToken] returned is kept: when it has a value, the
    next [GetToken] returns the same token without any request. *)
Theorem GetToken_reuses_token (token token' : option Trust.Token) (t : Trust.Token)
    (calls : list Trust.HttpCall) :
  Trust.GetToken net notaryServerURL image token = ((Some t, None), token', calls) ->
  Trust.Value t <> "" ->
  token' = Some t
  /\ Trust.GetToken net notaryServerURL image token' = ((Some t, None), Some t, []).
Proof.
  intros H Hv.
  assert (token' = Some t /\ Trust.Type_ t <> "") as [-> Ht].
  { revert H.
    unfold Trust.GetToken, Trust.fetchToken, Trust.setToken, Trust.checkPingResponse.
    repeat case_match; intros Heq; simplify_eq/=; split; try done.
    match goal with
    | Hor : _ || _ = false |- _ =>
        apply orb_false_elim in Hor as [Hor _]; by apply bool_decide_eq_false_1 in Hor
    end. }
  split; [done|]. unfold Trust.GetToken.
  by rewrite !bool_decide_eq_false_2.
Qed.

(** X16. A [GetToken] that fails returns no token and leaves the token of
    the repository as it was. When the URL of the server does not parse, or
    no request can be made of it, the error is that one and nothing was given
    to the HTTP client; otherwise the ping was given to it first. *)
Theorem GetToken_failure_keeps_token (token token' returned : option Trust.Token)
    (err : error) (calls : list Trust.HttpCall) :
  Trust.GetToken net notaryServerURL image token = ((returned, Some err), token', calls) ->
  returned = None /\ token' = token
  /\ match Trust.url_Parse net notaryServerURL with
     | Err e => err = e /\ calls = []
     | Ok u =>
         match Trust.http_NewRequest net u with
         | Some e => err = e /\ calls = []
         | None => head calls = Some (Trust.PingCall u (Trust.authorizationOf image))
         end
     end.
Proof.
  unfold Trust.GetToken, Trust.fetchToken, Trust.setToken, Trust.checkPingResponse.
  intros H. repeat case_match; by simplify_eq/=.
Qed.

(** X17. What [fetchToken] gives to the HTTP client. Nothing, when the URL
    of the server does not parse or no request can be made of it. Otherwise
    the ping, followed by at most one token request; and the token request is
    there exactly when the ping was answered outside the 200s, the first
    challenge of the answer names a realm and a service, and a request can be
    made of the realm: it then goes to that realm for that service with the
    scope [repository:<image>:pull,push], under the authorization of the
    ping. *)
Theorem fetchToken_requests (token : option Trust.Token) :
  let sent := snd (Trust.fetchToken net notaryServerURL image token) in
  let authorization := Trust.authorizationOf image in
  let scope := "repository:" +:+ Trust.GetImageNameWithHost image +:+ ":pull,push" in
  match Trust.url_Parse net notaryServerURL with
  | Err _ => sent = []
  | Ok u =>
      match Trust.http_NewRequest net u with
      | Some _ => sent = []
      | None =>
          exists rest,
            sent = Trust.PingCall u authorization :: rest
            /\ (rest = []
                \/ exists realm service,
                     rest = [Trust.TokenCall realm service scope authorization])
            /\ forall realm service,
                 rest = [Trust.TokenCall realm service scope authorization]
                 <-> exists pingResp first others,
                       Trust.ping net u authorization = Ok pingResp
                       /\ ((200 <=? Trust.PingStatusCode pingResp)%Z
                           && (Trust.PingStatusCode pingResp <? 300)%Z) = false
                       /\ Trust.Challenges pingResp = first :: others
                       /\ Trust.Parameters first !! "realm" = Some realm
                       /\ Trust.Parameters first !! "service" = Some service
                       /\ Trust.http_NewRequest net realm = None
      end
  end.
Proof.
  cbv zeta. unfold Trust.fetchToken, Trust.checkPingResponse.
  destruct (Trust.url_Parse net notaryServerURL) as [u|err]; [|done].
  destruct (Trust.http_NewRequest net u) as [err|] eqn:Hreq; [done|].
  destruct (Trust.ping net u _) as [pingResp|err] eqn:Hping.
  2:{ exists []. split; [done|]. split; [by left|].
      intros realm service. split; [done|]. by intros (? & ? & ? & ? & _). }
  destruct (_ && _) eqn:Hcode.
  { exists []. split; [by destruct (decide _)|]. split; [by left|].
    intros realm service. split; [done|].
    intros (? & ? & ? & [= <-] & Hc & _). congruence. }
  cbn [fst].
  destruct (Trust.Challenges pingResp) as [|first others] eqn:Hch.
  { exists []. split; [done|]. split; [by left|].
    intros realm service. split; [done|].
    intros (? & ? & ? & [= <-] & _ & Hc & _). congruence. }
  destruct (Trust.Parameters first !! "realm") as [realm|] eqn:Hrealm.
  2:{ exists []. split; [done|]. split; [by left|].
      intros realm service. split; [done|].
      intros (? & ? & ? & [= <-] & _ & Hc & Hr & _). rewrite Hch in Hc.
      injection Hc as <- _. congruence. }
  destruct (Trust.Parameters first !! "service") as [service|] eqn:Hservice.
  2:{ exists []. split; [done|]. split; [by left|].
      intros realm' service. split; [done|].
      intros (? & ? & ? & [= <-] & _ & Hc & _ & Hs & _). rewrite Hch in Hc.
      injection Hc as <- _. congruence. }
  unfold Trust.setToken.
  destruct (Trust.http_NewRequest net realm) as [err|] eqn:Hrealmreq.
  { exists []. split; [done|]. split; [by left|].
    intros realm' service'. split; [done|].
    intros (? & ? & ? & [= <-] & _ & Hc & Hr & _ & Hq). rewrite Hch in Hc.
    injection Hc as <- _. congruence. }
  exists [Trust.TokenCall realm service
            ("repository:" +:+ Trust.GetImageNameWithHost image +:+ ":pull,push")
            (Trust.authorizationOf image)].
  split; [by repeat case_match|]. split; [right; by exists realm, service|].
  intros realm' service'. split.
  - intros [= <- <-]. by exists pingResp, first, others.
  - intros (? & ? & ? & [= <-] & _ & Hc & Hr & Hs & _). rewrite Hch in Hc.
    injection Hc as <- _. congruence.
Qed.

(** X18. [NewReadOnly] starts without token, so it fetches one before
    anything else, from [DefaultNotaryServer] when the URL given is empty:
    when the URL of the server does not parse, or no request can be made of
    it, it fails with that error and nothing is given to the HTTP client;
    otherwise the ping is the first thing given to it. *)
Theorem NewReadOnly_fetches_token_first (notaryURL path : string) :
  let server := if decide (notaryURL = "") then "https://notary.docker.io" else notaryURL in
  match Trust.url_Parse net server with
  | Err e => Trust.NewReadOnly net image notaryURL path = (Err e, [])
  | Ok u =>
      match Trust.http_NewRequest net u with
      | Some e => Trust.NewReadOnly net image notaryURL path = (Err e, [])
      | None =>
          head (snd (Trust.NewReadOnly net image notaryURL path))
          = Some (Trust.PingCall u (Trust.authorizationOf image))
      end
  end.
Proof.
  cbv zeta.
  unfold Trust.NewReadOnly, Trust.GetToken, Trust.fetchToken, Trust.checkPingResponse,
    Trust.DefaultNotaryServer.
  cbn [orb].
  destruct (Trust.url_Parse net _) as [u|e]; [|done].
  destruct (Trust.http_NewRequest net u) as [e|]; [done|].
  by repeat case_match.
Qed.

(** X19. The pass phrases of the object that [NewReadOnly] makes are the nil
    map. On the nil map the pass retriever finds no pass phrase and returns
    the error, and it panics when it is to create one, as [AddKeyPass] does.
    On a map, a pass phrase added with [AddKeyPass] is the one that the pass
    retriever returns for that key, without error and without change to the
    map, and a retrieval that creates a pass phrase returns the fresh one,
    replacing whatever the key had. *)
Theorem passRetriever_by_map (m : gmap string string) (fresh key val alias : string)
    (attempts : Z) :
  (forall notaryURL path n token p calls,
     Trust.NewReadOnly net image notaryURL path = (Ok (n, token, p), calls) -> p = None)
  /\ Trust.passRetriever None fresh key alias false attempts
     = Returns (None, ("", (1 <? attempts)%Z, Some "no pass phrase is found"))
  /\ Trust.passRetriever None fresh key alias true attempts = Panics NilMapAssignment
  /\ Trust.AddKeyPass None key val = Panics NilMapAssignment
  /\ Trust.AddKeyPass (Some m) key val = Returns (Some (<[key := val]> m))
  /\ Trust.passRetriever (Some (<[key := val]> m)) fresh key alias false attempts
     = Returns (Some (<[key := val]> m), (val, (1 <? attempts)%Z, None))
  /\ Trust.passRetriever (Some m) fresh key alias true attempts
     = Returns (Some (<[key := fresh]> m), (fresh, (1 <? attempts)%Z, None)).
Proof.
  split; [|repeat split].
  - intros notaryURL path n token p calls. unfold Trust.NewReadOnly.
    repeat case_match; by intros [= _ _ <- _].
  - unfold Trust.passRetriever. cbn. by rewrite lookup_insert_eq.
  - unfold Trust.passRetriever. cbn. by rewrite lookup_insert_eq.
Qed.

End TokenFacts.

Lemma GetToken_reuses_token_witness :
  Trust.GetToken Sample.network "https://notary.example.com" Sample.image_app
    (Some (Trust.mkToken "Bearer" "tok"))
  = ((Some (Trust.mkToken "Bearer" "tok"), None), Some (Trust.mkToken "Bearer" "tok"), []).
Proof.
  apply (GetToken_reuses_token Sample.network "https://notary.example.com"
           Sample.image_app None (Some (Trust.mkToken "Bearer" "tok"))
           (Trust.mkToken "Bearer" "tok")
           [Trust.PingCall "https://notary.example.com/v2" (Some "Basic Ym9iOmh1bnRlcjI=");
            Trust.TokenCall "https://auth.example.com/token" "notary"
              "repository:registry.example.com/app:pull,push"
              (Some "Basic Ym9iOmh1bnRlcjI=")]).
  - vm_compute. reflexivity.
  - intros H. discriminate H.
Defined.

Lemma GetToken_failure_keeps_token_witness :
  snd (fst (Trust.GetToken Sample.network "https://notary.docker.io" Sample.image_app
              (Some (Trust.mkToken "Bearer" ""))))
  = Some (Trust.mkToken "Bearer" "")
  /\ snd (fst (Trust.GetToken Sample.network "notary.example.com:4443" Sample.image_app
                 None))
     = None.
Proof.
  split.
  - apply (GetToken_failure_keeps_token Sample.network "https://notary.docker.io"
             Sample.image_app (Some (Trust.mkToken "Bearer" "")) _ None "no such host"
             [Trust.PingCall "https://notary.docker.io/v2"
                (Some "Basic Ym9iOmh1bnRlcjI=")]).
    vm_compute. reflexivity.
  - apply (GetToken_failure_keeps_token Sample.network "notary.example.com:4443"
             Sample.image_app None _ None
             "first path segment in URL cannot contain colon" []).
    vm_compute. reflexivity.
Defined.

(** On the sample network: the ping and the token request of the sample
    notary, and nothing for a URL that does not parse. *)
Example fetchToken_sample :
  snd (Trust.fetchToken Sample.network "https://notary.example.com" Sample.image_app None)
  = [Trust.PingCall "https://notary.example.com/v2" (Some "Basic Ym9iOmh1bnRlcjI=");
     Trust.TokenCall "https://auth.example.com/token" "notary"
       "repository:registry.example.com/app:pull,push" (Some "Basic Ym9iOmh1bnRlcjI=")]
  /\ Trust.fetchToken Sample.network "notary.example.com:4443" Sample.image_app None
     = (Some "first path segment in URL cannot contain colon", None, []).
Proof. split; vm_compute; reflexivity. Qed.

(** ** The summary of the trust data *)

Lemma hex_bytes_pair (b : Byte.byte) :
  default Byte.x00
    (Byte.of_N (16 * hexvalue (Trust.hexdigit (N.div (Byte.to_N b) 16))
                + hexvalue (Trust.hexdigit (N.modulo (Byte.to_N b) 16))))
  = b.
Proof. by destruct b. Qed.

Lemma hex_bytes_EncodeToString (src : list Byte.byte) :
  hex_bytes (Trust.hex_EncodeToString src) = src.
Proof.
  induction src as [|b rest IH]; [done|].
  cbn [Trust.hex_EncodeToString hex_bytes]. by rewrite hex_bytes_pair, IH.
Qed.

(** [hex.EncodeToString] loses nothing, and writes two digits for a byte. *)
Lemma hex_EncodeToString_inj (a b : list Byte.byte) :
  Trust.hex_EncodeToString a = Trust.hex_EncodeToString b -> a = b.
Proof.
  intros H. by rewrite <- (hex_bytes_EncodeToString a), H, hex_bytes_EncodeToString.
Qed.

Lemma hex_EncodeToString_length (a : list Byte.byte) :
  String.length (Trust.hex_EncodeToString a) = (2 * length a)%nat.
Proof.
  induction a as [|x rest IH]; [done|].
  cbn [Trust.hex_EncodeToString String.length length]. rewrite IH. lia.
Qed.

(** X20. Two signed targets are filed under the same key exactly when they
    have the same name and the same SHA-256 hash, a missing hash counting as
    the empty one: targets that differ in either never share a row. The
    digest of the key has two digits for every byte of the hash. *)
Theorem targetKey_identifies_name_and_hash (a b : Trust.TargetSignedStruct) :
  (Trust.targetKey a = Trust.targetKey b
   <-> Trust.TargetName a = Trust.TargetName b
       /\ default [] (Trust.Hashes a !! Trust.SHA256)
          = default [] (Trust.Hashes b !! Trust.SHA256))
  /\ String.length (Trust.Digest (Trust.targetKey a))
     = (2 * length (default [] (Trust.Hashes a !! Trust.SHA256)))%nat.
Proof.
  unfold Trust.targetKey. split; [split|].
  - intros [= Hn Hd]. split; [done|]. by apply hex_EncodeToString_inj.
  - by intros [-> ->].
  - apply hex_EncodeToString_length.
Qed.

Lemma map_fmap {A B : Type} (f : A -> B) (l : list A) : List.map f l = f <$> l.
Proof. reflexivity. Qed.

Section SummaryFacts.

Variable NaturalLess : string -> string -> bool.

(** X21. In the summary that [GetSignedMetadata] returns no two rows have the
    same tag and digest, and no two signers have the same name. *)
Theorem GetSignedMetadata_no_duplicates (n : Trust.notaryRepo) (tag : string) :
  let summary := fst (Trust.GetSignedMetadata NaturalLess n tag) in
  NoDup (List.map Trust.Key (Trust.SignedTags summary))
  /\ NoDup (List.map Trust.Name (Trust.Signers summary)).
Proof.
  cbv zeta. unfold Trust.GetSignedMetadata.
  destruct (Trust.GetAllTargetMetadataByName (Trust.repo n) tag) as [allTargets|err].
  2:{ cbn. split; constructor. }
  destruct (Trust.ListRoles (Trust.repo n)) as [adminRoles|err].
  2:{ cbn. split; constructor. }
  cbn [fst Trust.SignedTags Trust.Signers]. split.
  - unfold Trust.addRepoAdmin. rewrite map_map.
    rewrite (map_ext _ Trust.Key) by (intros row; by destruct (bool_decide _)).
    unfold Trust.matchReleasedSignatures, Trust.sortRows.
    rewrite !map_fmap, merge_sort_Permutation, <- list_fmap_compose.
    apply NoDup_fst_map_to_list.
  - unfold Trust.sortSigners.
    rewrite !map_fmap, merge_sort_Permutation, <- list_fmap_compose.
    apply NoDup_fst_map_to_list.
Qed.

(** X22. The administrative keys of a summary are those of the roles that
    [ListRoles] names "root" and "targets", the first under the name "Root",
    the second under the name "Repository", each with the key IDs of its
    role; no other role is listed. *)
Theorem GetSignedMetadata_administrative_keys (n : Trust.notaryRepo) (tag : string)
    (adminRoles : list Trust.Role) (signer : Trust.trustSigner) :
  snd (Trust.GetSignedMetadata NaturalLess n tag) = None ->
  Trust.ListRoles (Trust.repo n) = Ok adminRoles ->
  signer ∈ Trust.AdministrativeKeys (fst (Trust.GetSignedMetadata NaturalLess n tag))
  <-> exists role,
        role ∈ adminRoles
        /\ ((Trust.RoleName role = "root"
             /\ signer = Trust.mkTrustSigner "Root"
                           (List.map Trust.mkTrustKey (Trust.KeyIDs role)))
            \/ (Trust.RoleName role = "targets"
                /\ signer = Trust.mkTrustSigner "Repository"
                              (List.map Trust.mkTrustKey (Trust.KeyIDs role)))).
Proof.
  unfold Trust.GetSignedMetadata. intros Hok Hroles. revert Hok.
  destruct (Trust.GetAllTargetMetadataByName (Trust.repo n) tag) as [allTargets|err];
    [|done].
  rewrite Hroles. intros _. cbn [fst Trust.AdministrativeKeys].
  unfold Trust.sortSigners, Trust.adminSigners.
  rewrite merge_sort_Permutation, list_elem_of_In, in_flat_map.
  unfold Trust.CanonicalRootRole, Trust.CanonicalTargetsRole. split.
  - intros (role & Hin%list_elem_of_In & Hs). exists role. split; [done|].
    repeat case_bool_decide; cbn in Hs; intuition.
  - intros (role & Hin & [[Hn ->]|[Hn ->]]); exists role;
      (split; [by apply list_elem_of_In|]); rewrite Hn.
    + rewrite bool_decide_eq_true_2 by done. by left.
    + rewrite bool_decide_eq_false_2, bool_decide_eq_true_2 by done. by left.
Qed.

(** X23. When [GetSignedMetadata] fails the summary is empty, and the error
    is that of reading the targets, or, when the roles cannot be listed, the
    message "No signers for" with the URL of the server, whatever the error
    of the listing was. A failure to read the delegation roles fails
    nothing. *)
Theorem GetSignedMetadata_errors (n : Trust.notaryRepo) (tag : string) (err : error) :
  snd (Trust.GetSignedMetadata NaturalLess n tag) = Some err ->
  fst (Trust.GetSignedMetadata NaturalLess n tag) = Trust.emptyTrustRepo
  /\ (Trust.GetAllTargetMetadataByName (Trust.repo n) tag = Err err
      \/ exists allTargets cause,
           Trust.GetAllTargetMetadataByName (Trust.repo n) tag = Ok allTargets
           /\ Trust.ListRoles (Trust.repo n) = Err cause
           /\ err = "No signers for " +:+ Trust.notaryServerURL n).
Proof.
  unfold Trust.GetSignedMetadata.
  destruct (Trust.GetAllTargetMetadataByName (Trust.repo n) tag) as [allTargets|e].
  2:{ intros [= ->]. split; [done|by left]. }
  destruct (Trust.ListRoles (Trust.repo n)) as [adminRoles|e]; [done|].
  intros [= <-]. split; [done|]. right. by exists allTargets, e.
Qed.

End SummaryFacts.

Lemma getDelegationRoleToKeyMap_fold_other (post : list Trust.Role)
    (m : gmap string (list string)) (signerName : string) :
  Forall (fun r => skippedRole r = true
                   \/ Trust.notaryRoleToSigner (Trust.RoleName r) <> signerName) post ->
  fold_left
    (fun signerRoleToKeyIDs delRole =>
       if skippedRole delRole then signerRoleToKeyIDs
       else <[Trust.notaryRoleToSigner (Trust.RoleName delRole) := Trust.KeyIDs delRole]>
              signerRoleToKeyIDs)
    post m !! signerName
  = m !! signerName.
Proof.
  intros Hpost. revert m. induction Hpost as [|r post Hr _ IH]; intros m; [done|].
  cbn [fold_left]. rewrite IH. destruct Hr as [->|Hr]; [done|].
  destruct (skippedRole r); [done|]. by rewrite lookup_insert_ne.
Qed.

(** X24. In [getDelegationRoleToKeyMap] the last role of a signer name wins:
    a delegation role that is not skipped gives its key IDs to its signer
    name when no later role that is not skipped has the same signer name,
    whatever the roles before it were. *)
Theorem getDelegationRoleToKeyMap_last_role_wins (pre post : list Trust.Role)
    (role : Trust.Role) :
  skippedRole role = false ->
  Forall (fun r => skippedRole r = true
                   \/ Trust.notaryRoleToSigner (Trust.RoleName r)
                      <> Trust.notaryRoleToSigner (Trust.RoleName role)) post ->
  Trust.getDelegationRoleToKeyMap (pre ++ role :: post)
    !! Trust.notaryRoleToSigner (Trust.RoleName role)
  = Some (Trust.KeyIDs role).
Proof.
  intros Hrole Hpost. unfold Trust.getDelegationRoleToKeyMap.
  rewrite fold_left_app. cbn [fold_left].
  change (fun (signerRoleToKeyIDs : gmap string (list string)) delRole =>
            if bool_decide (Trust.RoleName delRole = Trust.ReleasesRole)
               || bool_decide (Trust.RoleName delRole = Trust.CanonicalRootRole)
               || bool_decide (Trust.RoleName delRole = Trust.CanonicalSnapshotRole)
               || bool_decide (Trust.RoleName delRole = Trust.CanonicalTargetsRole)
               || bool_decide (Trust.RoleName delRole = Trust.CanonicalTimestampRole)
            then signerRoleToKeyIDs
            else <[Trust.notaryRoleToSigner (Trust.RoleName delRole) := Trust.KeyIDs delRole]>
                   signerRoleToKeyIDs)
    with (fun (signerRoleToKeyIDs : gmap string (list string)) delRole =>
            if skippedRole delRole then signerRoleToKeyIDs
            else <[Trust.notaryRoleToSigner (Trust.RoleName delRole) := Trust.KeyIDs delRole]>
                   signerRoleToKeyIDs).
  rewrite getDelegationRoleToKeyMap_fold_other by done.
  change (_ || _ || _ || _ || _) with (skippedRole role). rewrite Hrole.
  apply lookup_insert_eq.
Qed.

Lemma GetSignedMetadata_administrative_keys_witness :
  Trust.mkTrustSigner "Repository" [Trust.mkTrustKey "key-repo"]
    ∈ Trust.AdministrativeKeys (fst (Trust.GetSignedMetadata String.ltb Sample.notaryRepo "v1")).
Proof.
  apply (proj2 (GetSignedMetadata_administrative_keys String.ltb Sample.notaryRepo "v1"
                  [Trust.mkRole "root" ["key-root"];
                   Trust.mkRole "targets" ["key-repo"];
                   Trust.mkRole "snapshot" ["key-snapshot"]]
                  (Trust.mkTrustSigner "Repository" [Trust.mkTrustKey "key-repo"])
                  eq_refl eq_refl)).
  exists (Trust.mkRole "targets" ["key-repo"]). split.
  - apply list_elem_of_further, list_elem_of_here.
  - right. split; reflexivity.
Defined.

Lemma GetSignedMetadata_errors_witness :
  Trust.GetSignedMetadata String.ltb Sample.notaryRepo_no_roles "v1"
  = (Trust.emptyTrustRepo, Some "No signers for https://notary.example.com").
Proof.
  destruct (GetSignedMetadata_errors String.ltb Sample.notaryRepo_no_roles "v1"
              "No signers for https://notary.example.com" eq_refl) as [Hrepo _].
  rewrite (surjective_pairing (Trust.GetSignedMetadata _ _ _)), Hrepo. reflexivity.
Defined.

Lemma getDelegationRoleToKeyMap_last_role_wins_witness :
  Trust.getDelegationRoleToKeyMap Sample.roles_twice !! "alice" = Some ["key-new"].
Proof.
  apply (getDelegationRoleToKeyMap_last_role_wins
           [Trust.mkRole "targets/alice" ["key-old"];
            Trust.mkRole "targets/releases" ["key-alice"]]
           [Trust.mkRole "targets/bob" ["key-bob"]]
           (Trust.mkRole "alice" ["key-new"])).
  - reflexivity.
  - apply Forall_cons_2; [|apply Forall_nil_2].
    right. intros H. vm_compute in H. discriminate H.
Defined.

(** ** Invariants of the validator *)

Lemma append_not_empty (a b : string) : a <> "" -> a +:+ b <> "".
Proof. destruct a as [|c a]; [done|]. intros _. by rewrite append_cons_l. Qed.

Section ValidatorInvariants.

Import corev1.

Variable env : Pods.Collaborators.
Variable h : Pods.validator.

(** The body leaves the slice as it was, or accepts the image and writes it
    at the index. *)
Lemma addDigestWhenImageValid_body_cases (containers : list Container) (i : nat)
    (c : Container) (namespace : string) (pullSecrets : list LocalObjectReference) :
  let r := value (Pods.addDigestWhenImageValid_body env h containers i c namespace
                                                    pullSecrets) in
  (fst r = containers
   /\ (snd r = (true, "", None)
       \/ (exists reason, reason <> "" /\ snd r = (false, reason, None))
       \/ (exists err, snd r = (false, "", Some err))))
  \/ (exists image, fst r = <[i := setImage c image]> containers
                    /\ snd r = (true, "", None)).
Proof.
  cbv zeta. unfold Pods.addDigestWhenImageValid_body.
  destruct (Pods.parseImage env (Image c)) as [ref|err].
  2:{ left. split; [done|]. right; right. by exists err. }
  rewrite !value_bind.
  destruct (snd (value (Pods.getBasicAuthForRegistry env h (Pods.host ref) namespace
                                                      pullSecrets))) as [err|].
  { left. split; [done|]. right; right. by exists err. }
  destruct (fst (Pods.doesMatchPolicy _ _ _)); cbn [andb].
  2:{ left. split; [done|]. right; left. eexists. split; [|done].
      by apply append_not_empty. }
  destruct (bool_decide (Pods.Registry _ = "")); [left; split; [done|by left]|].
  destruct (negb _); [left; split; [done|by left]|].
  rewrite !value_bind. cbn [call value fst].
  destruct (Pods.FetchSignature_answer _ _ _ _) as [[sig|]|err].
  - destruct (_ && _).
    + left. split; [done|]. right; left. eexists. split; [|done].
      by apply append_not_empty.
    + right. by eexists.
  - left. split; [done|]. right; left. eexists. split; [|done].
    by apply append_not_empty.
  - left. split; [done|]. right; right. by exists err.
Qed.

(** The same for a whole list: the names of the containers stay, and a
    slice that was written belongs to an accepted list. *)
Lemma addDigestWhenImageValid_cases (containers : list Container)
    (namespace : string) (pullSecrets : list LocalObjectReference) :
  let r := value (Pods.addDigestWhenImageValid env h containers namespace pullSecrets) in
  List.map ContainerName (fst r) = List.map ContainerName containers
  /\ (snd r = (true, "", None)
      \/ ((exists reason, reason <> "" /\ snd r = (false, reason, None))
          \/ (exists err, snd r = (false, "", Some err)))
         /\ fst r = containers).
Proof.
  cbv zeta.
  destruct (first_not_whitelisted h containers)
    as [Hall|(pre & c & post & Heq & Hpre & Hc)].
  { rewrite addDigestWhenImageValid_skip by done. split; [done|by left]. }
  rewrite (addDigestWhenImageValid_reach env h _ _ _ _ _ _ Heq Hpre Hc).
  destruct (addDigestWhenImageValid_body_cases containers (length pre) c namespace
              pullSecrets) as [[-> Hv]|(image & -> & ->)].
  - split; [done|]. destruct Hv as [->|Hv]; [by left|by right].
  - split; [|by left]. rewrite Heq.
    replace (length pre) with (length pre + 0)%nat by lia.
    rewrite insert_app_r. cbn [list_insert]. by rewrite !map_app.
Qed.

(** X25. [CheckIsValidAndAddDigest] changes nothing of the pod but images:
    the pod it leaves has the namespace and the pull secrets of the pod it
    was given, and the same init containers and containers by number, order
    and name. *)
Theorem CheckIsValidAndAddDigest_changes_images_only (pod : Pod) :
  let pod' := fst (value (Pods.CheckIsValidAndAddDigest env h pod)) in
  Namespace pod' = Namespace pod
  /\ ImagePullSecrets (Spec pod') = ImagePullSecrets (Spec pod)
  /\ List.map ContainerName (InitContainers (Spec pod'))
     = List.map ContainerName (InitContainers (Spec pod))
  /\ List.map ContainerName (Containers (Spec pod'))
     = List.map ContainerName (Containers (Spec pod)).
Proof.
  cbv zeta. unfold Pods.CheckIsValidAndAddDigest.
  destruct (Pods.IsNamespaceWhiteListed _ _); [done|].
  rewrite value_bind.
  destruct (addDigestWhenImageValid_cases (InitContainers (Spec pod)) (Namespace pod)
              (ImagePullSecrets (Spec pod))) as [Hnames _].
  destruct (value (Pods.addDigestWhenImageValid env h (InitContainers (Spec pod)) _ _))
    as [inits [[valid reason] err]].
  cbn [fst snd] in *.
  destruct valid, err as [err|]; try done.
  rewrite value_bind. cbn [setInitContainers Spec Containers Namespace ImagePullSecrets].
  destruct (addDigestWhenImageValid_cases (Containers (Spec pod)) (Namespace pod)
              (ImagePullSecrets (Spec pod))) as [Hnames2 _].
  destruct (value (Pods.addDigestWhenImageValid env h (Containers (Spec pod)) _ _))
    as [conts [[valid2 reason2] err2]].
  cbn [fst snd] in *.
  by destruct valid2, err2 as [err2|].
Qed.

(** X26. Every verdict of [CheckIsValidAndAddDigest] is an acceptance
    without reason nor error, a rejection with a reason that is not empty and
    without error, or a failure with an error and without reason: a pod is
    never refused without a word, and never accepted with an error. *)
Theorem CheckIsValidAndAddDigest_verdict_shape (pod : Pod) :
  let v := snd (value (Pods.CheckIsValidAndAddDigest env h pod)) in
  v = (true, "", None)
  \/ (exists reason, reason <> "" /\ v = (false, reason, None))
  \/ (exists err, v = (false, "", Some err)).
Proof.
  cbv zeta. unfold Pods.CheckIsValidAndAddDigest.
  destruct (Pods.IsNamespaceWhiteListed _ _); [by left|].
  rewrite value_bind.
  destruct (addDigestWhenImageValid_cases (InitContainers (Spec pod)) (Namespace pod)
              (ImagePullSecrets (Spec pod))) as [_ Hv].
  destruct (value (Pods.addDigestWhenImageValid env h (InitContainers (Spec pod)) _ _))
    as [inits v].
  cbn [fst snd] in *.
  destruct Hv as [->|[[(reason & Hreason & ->)|(err & ->)] _]].
  2:{ right; left. by exists reason. }
  2:{ right; right. by exists err. }
  rewrite value_bind. cbn [setInitContainers Spec Containers Namespace ImagePullSecrets].
  destruct (addDigestWhenImageValid_cases (Containers (Spec pod)) (Namespace pod)
              (ImagePullSecrets (Spec pod))) as [_ Hv].
  destruct (value (Pods.addDigestWhenImageValid env h (Containers (Spec pod)) _ _))
    as [conts v].
  cbn [fst snd] in *.
  destruct Hv as [->|[[(reason & Hreason & ->)|(err & ->)] _]].
  - by left.
  - right; left. by exists reason.
  - right; right. by exists err.
Qed.

(** X27. A pod that is not accepted keeps its containers as they were: a
    digest is written to a container only when the pod is accepted, while
    the init containers of a pod refused for one of its containers may carry
    the digest that their own validation wrote. *)
Theorem CheckIsValidAndAddDigest_refused_keeps_containers (pod : Pod)
    (reason : string) (err : option error) :
  snd (value (Pods.CheckIsValidAndAddDigest env h pod)) = (false, reason, err) ->
  Containers (Spec (fst (value (Pods.CheckIsValidAndAddDigest env h pod))))
  = Containers (Spec pod).
Proof.
  unfold Pods.CheckIsValidAndAddDigest.
  destruct (Pods.IsNamespaceWhiteListed _ _); [done|].
  rewrite !value_bind.
  destruct (value (Pods.addDigestWhenImageValid env h (InitContainers (Spec pod)) _ _))
    as [inits [[valid reason1] err1]].
  cbn [fst snd].
  destruct valid, err1 as [err1|]; try done.
  rewrite !value_bind. cbn [setInitContainers Spec Containers Namespace ImagePullSecrets].
  destruct (addDigestWhenImageValid_cases (Containers (Spec pod)) (Namespace pod)
              (ImagePullSecrets (Spec pod))) as [_ Hv].
  destruct (value (Pods.addDigestWhenImageValid env h (Containers (Spec pod)) _ _))
    as [conts v].
  cbn [fst snd] in *.
  destruct Hv as [->|[[(reason2 & Hreason & ->)|(err2 & ->)] ->]]; done.
Qed.

(** X28. [getBasicAuthForRegistry] asks for the pull secrets in the order of
    the list and stops at the first one that decides: its requests are those
    for the secrets up to and including the first one whose credential for
    the host is not the empty one (an error counts), each in the namespace of
    the pod and none after it; and those for all listed secrets when each
    yields the empty credential. *)
Theorem getBasicAuthForRegistry_requests_until_decided (host namespace : string)
    (pullSecrets : list LocalObjectReference) :
  let requests := trace (Pods.getBasicAuthForRegistry env h host namespace pullSecrets) in
  (Forall (fun q => credentialOf env h host namespace q = Ok "") pullSecrets ->
   requests = List.map (fun q => GetSecret namespace (Name q)) pullSecrets)
  /\ (forall pre p post,
        pullSecrets = pre ++ p :: post ->
        Forall (fun q => credentialOf env h host namespace q = Ok "") pre ->
        credentialOf env h host namespace p <> Ok "" ->
        requests = List.map (fun q => GetSecret namespace (Name q)) (pre ++ [p])).
Proof.
  cbv zeta. split.
  - induction 1 as [|q rest Hq _ IH]; [done|].
    rewrite getBasicAuthForRegistry_cons, Hq. rewrite decide_True by done.
    rewrite trace_bind, IH. reflexivity.
  - intros pre p post -> Hpre Hp. induction Hpre as [|q pre Hq _ IH].
    + cbn [app]. rewrite getBasicAuthForRegistry_cons.
      destruct (credentialOf env h host namespace p) as [a|err]; [|done].
      destruct (decide (a = "")) as [->|]; [done|reflexivity].
    + rewrite <- app_comm_cons, getBasicAuthForRegistry_cons, Hq.
      rewrite decide_True by done. rewrite trace_bind, IH. reflexivity.
Qed.

End ValidatorInvariants.

Lemma CheckIsValidAndAddDigest_refused_keeps_containers_witness :
  corev1.Containers
    (corev1.Spec (fst (value (Pods.CheckIsValidAndAddDigest Sample.collaborators
                                Sample.validator Sample.pod_refused))))
  = [Sample.container_tool].
Proof.
  apply (CheckIsValidAndAddDigest_refused_keeps_containers Sample.collaborators
           Sample.validator Sample.pod_refused
           "Image 'registry.example.com/tool:v9' is not signed" None).
  vm_compute. reflexivity.
Defined.

(** ** The inspection command *)

Section CommandFacts.

Variables dindContainer dindNamespace : string.

(** X29. An image without ["/"] is an image of Docker Hub: its command unsets
    the trust server and names the image without registry, and making it asks
    the cluster nothing and attempts no login. *)
Theorem makeCommand_docker_hub_image (h : Legacy.DockerHandler) (image : string) :
  GoStrings.Contains image "/" = false ->
  Legacy.makeCommand dindContainer dindNamespace h (Legacy.getImageInfo image)
  = ret ("unset DOCKER_CONTENT_TRUST_SERVER; docker trust inspect "
         +:+ Legacy.name (Legacy.getImageInfo image) +:+ ":"
         +:+ Legacy.tag (Legacy.getImageInfo image)).
Proof.
  intros H. unfold Legacy.makeCommand, Legacy.findNotaryServer.
  rewrite (getImageInfo_no_slash image H). reflexivity.
Qed.

(** X30. For a registry that the cluster lists with a notary server of its
    own, the command exports that notary server and names the image in full,
    whether the login to the registry succeeded or not: a failed login is
    not reported and does not change the command. *)
Theorem makeCommand_ignores_login_failure (h : Legacy.DockerHandler)
    (imageInfo : Legacy.ImageInfo) (regList : list Legacy.Registry)
    (targetReg : Legacy.Registry) :
  Legacy.registry imageInfo <> "docker.io" ->
  Legacy.registries (Legacy.client h) = Ok regList ->
  List.find (fun reg => bool_decide ("https://" +:+ Legacy.registry imageInfo
                                     = Legacy.ServerURL reg)) regList
  = Some targetReg ->
  Legacy.NotaryURL targetReg <> "docker.io" ->
  Legacy.NotaryURL targetReg <> "docker-hub" ->
  value (Legacy.makeCommand dindContainer dindNamespace h imageInfo)
  = "export DOCKER_CONTENT_TRUST_SERVER=" +:+ Legacy.NotaryURL targetReg
    +:+ "; docker trust inspect "
    +:+ Legacy.registry imageInfo +:+ "/" +:+ Legacy.name imageInfo +:+ ":"
    +:+ Legacy.tag imageInfo.
Proof.
  intros Hreg Hlist Hfind Hn1 Hn2.
  unfold Legacy.makeCommand, Legacy.findNotaryServer, Legacy.getRegistries.
  rewrite decide_False by done. rewrite Hlist.
  rewrite !value_bind. cbn [call ret value fst]. rewrite Hfind. cbn [fst].
  rewrite !decide_False by done. by rewrite value_bind.
Qed.

End CommandFacts.

Lemma makeCommand_docker_hub_image_witness :
  Legacy.makeCommand "dind" "registry-system" Sample.handler
    (Legacy.getImageInfo "nginx:1.19")
  = ret "unset DOCKER_CONTENT_TRUST_SERVER; docker trust inspect nginx:1.19".
Proof.
  apply (makeCommand_docker_hub_image "dind" "registry-system" Sample.handler "nginx:1.19").
  reflexivity.
Defined.

Lemma makeCommand_ignores_login_failure_witness :
  value (Legacy.makeCommand "dind" "registry-system" Sample.handler
           (Legacy.getImageInfo "registry.example.com/app:v1"))
  = "export DOCKER_CONTENT_TRUST_SERVER=https://notary.example.com; docker trust inspect registry.example.com/app:v1".
Proof.
  apply (makeCommand_ignores_login_failure "dind" "registry-system" Sample.handler
           (Legacy.getImageInfo "registry.example.com/app:v1")
           [Legacy.mkRegistry "https://registry.example.com" "https://notary.example.com"]
           (Legacy.mkRegistry "https://registry.example.com" "https://notary.example.com")).
  - intros H. vm_compute in H. discriminate H.
  - reflexivity.
  - vm_compute. reflexivity.
  - intros H. discriminate H.
  - intros H. discriminate H.
Defined.

(** On the sample: [other] has no credential for the host and [regcred] has
    one, so [missing] is never asked for. *)
Example getBasicAuthForRegistry_requests_sample :
  trace (Pods.getBasicAuthForRegistry Sample.collaborators Sample.validator
           "registry.example.com" "default"
           [corev1.mkLocalObjectReference "other"; corev1.mkLocalObjectReference "regcred";
            corev1.mkLocalObjectReference "missing"])
  = [GetSecret "default" "other"; GetSecret "default" "regcred"].
Proof. vm_compute. reflexivity. Qed.
